(** * Bonding-curve pricing and ledger engine of the Sei meme-token factory

    A shallow embedding of [BondingCurveSEI.sol] (contract [TokenFactory]) and
    of the [Token] contract it deploys, with the properties of the
    specification stated over that embedding.

    Conventions.
    - A [uint256] is a [Z] in the range [0, 2^256).  Solidity 0.8 arithmetic
      is checked: an operation that leaves the range aborts the call, which
      is [None] in the pure functions and [Panic] in the transactions.
    - An [address] is a [Z]; [address(0)] is [0].
    - A Solidity [mapping] is a [gmap] read with a default value.
    - A transaction is a function from the world state to a result; a call
      that fails leaves the world state as it was (EVM revert). *)

From Stdlib Require Import ZArith Lia List.
From stdpp Require Import base option gmap strings list.

Open Scope Z_scope.

(** ** Checked 256-bit arithmetic *)

Module U256.

Definition modulus : Z := 2 ^ 256.

Definition max : Z := modulus - 1.

Definition in_range (z : Z) : Prop := 0 <= z < modulus.

Definition add (a b : Z) : option Z :=
  if a + b <? modulus then Some (a + b) else None.

Definition sub (a b : Z) : option Z :=
  if b <=? a then Some (a - b) else None.

Definition mul (a b : Z) : option Z :=
  if a * b <? modulus then Some (a * b) else None.

Definition div (a b : Z) : option Z :=
  if b =? 0 then None else Some (a / b).

End U256.

(** ** Constants of the factory *)

Definition DECIMALS : Z := 10 ^ 18.
Definition ether : Z := 10 ^ 18.
Definition MAX_SUPPLY : Z := 1000000 * DECIMALS.
Definition INIT_SUPPLY : Z := (MAX_SUPPLY * 20) / 100.
Definition MEMETOKEN_CREATION_FEE : Z := 1000000000000.
Definition FEE_BPS : Z := 100.
Definition BPS_DENOMINATOR : Z := 10000.
Definition INITIAL_PRICE : Z := 11400755737022590.
Definition K : Z := 4900862993591.
Definition MEMECOIN_FUNDING_GOAL : Z := 115000 * ether.
Definition _NOT_ENTERED : Z := 1.
Definition _ENTERED : Z := 2.

(** ** Bonding-curve math *)

(** The body of the [for (i = 1; i <= 20; i++)] loop of [exp], run for the
    [n] iterations that remain; [i] is the loop counter of the next one. *)
Fixpoint exp_loop (n : nat) (x i term sum : Z) : option Z :=
  match n with
  | O => Some sum
  | S n' =>
      tx ← U256.mul term x;
      d ← U256.mul i DECIMALS;
      term' ← U256.div tx d;
      sum' ← U256.add sum term';
      if term' <? 1 then Some sum' else exp_loop n' x (i + 1) term' sum'
  end.

Definition exp (x : Z) : option Z := exp_loop 20 x 1 DECIMALS DECIMALS.

Definition calculateCost (currentRaw amountRaw : Z) : option Z :=
  s ← U256.add currentRaw amountRaw;
  ks ← U256.mul K s;
  exponent1 ← U256.div ks DECIMALS;
  kc ← U256.mul K currentRaw;
  exponent0 ← U256.div kc DECIMALS;
  exp1 ← exp exponent1;
  exp0 ← exp exponent0;
  d ← U256.sub exp1 exp0;
  p ← U256.mul INITIAL_PRICE d;
  U256.div p K.

Definition calculateRefund (currentRaw amountRaw : Z) : option Z :=
  kc ← U256.mul K currentRaw;
  exponent1 ← U256.div kc DECIMALS;
  r ← U256.sub currentRaw amountRaw;
  kr ← U256.mul K r;
  exponent0 ← U256.div kr DECIMALS;
  exp1 ← exp exponent1;
  exp0 ← exp exponent0;
  d ← U256.sub exp1 exp0;
  p ← U256.mul INITIAL_PRICE d;
  U256.div p K.

(** ** The series of [exp] as the specification words it

    Term [i] of the Q18 Maclaurin series: [t_0 = 1e18] and
    [t_i = (t_{i-1} * x) / (i * 1e18)], every division truncated. *)
Fixpoint q18_term (x : Z) (i : nat) : Z :=
  match i with
  | O => 10 ^ 18
  | S j => (q18_term x j * x) / (Z.of_nat i * 10 ^ 18)
  end.

(** Adds the terms [i], [i+1], ... to [acc], at most [n] of them, and stops
    after the first term that is zero. *)
Fixpoint q18_sum (x : Z) (n i : nat) (acc : Z) : Z :=
  match n with
  | O => acc
  | S n' =>
      let t := q18_term x i in
      if t =? 0 then acc + t else q18_sum x n' (S i) (acc + t)
  end.

Definition exp_spec (x : Z) : Z := q18_sum x 20 1 (10 ^ 18).

(** No product and no partial sum of the iterations that are run leaves the
    256-bit range. *)
Fixpoint q18_fits (x : Z) (n i : nat) (acc : Z) : bool :=
  match n with
  | O => true
  | S n' =>
      let t := q18_term x i in
      (q18_term x (Nat.pred i) * x <? U256.modulus)
      && (acc + t <? U256.modulus)
      && (if t =? 0 then true else q18_fits x n' (S i) (acc + t))
  end.

Definition exp_fits (x : Z) : bool := q18_fits x 20 1 (10 ^ 18).

(** The exponent [K * raw / 1e18] that [calculateCost] feeds to [exp]. *)
Definition exponent_of (raw : Z) : Z := K * raw / DECIMALS.

(** The curve cap: 800,000 tokens are sold on the curve. *)
Definition maxCurveRaw : Z := MAX_SUPPLY - INIT_SUPPLY.

(** ** The world the contracts run in *)

Definition address : Type := Z.

(** A call fails with a [require] reason, by an arithmetic fault, or inside
    a contract this repository does not contain (router, pair, recipient). *)
Inductive Failure : Type :=
| Revert (reason : string)
| Panic
| External.

Inductive Result (A : Type) : Type :=
| Ok (a : A)
| Err (f : Failure).

Arguments Ok {A} a.
Arguments Err {A} f.

(** The taxonomy of the specification, as the reasons the code gives. *)
Definition UnknownAsset : Failure := Revert "Unknown token".
Definition AlreadyLaunched : Failure := Revert "Launched: use Uniswap".
Definition InsufficientPayment : Failure := Revert "Insufficient SEI sent".
Definition InsufficientBalance : Failure := Revert "Insufficient balance".
Definition InsufficientReserve : Failure := Revert "Insufficient curve SEI".
Definition ReentrantCall : Failure := Revert "ReentrancyGuard: reentrant call".
Definition CurveComplete : Failure := Revert "Curve complete".
Definition NothingToBuy : Failure := Revert "Nothing to buy".

Inductive Event : Type :=
| MemeTokenCreated (tokenAddress creator timestamp : Z)
| TokenBought (tokenAddress buyer tokenQty totalPaid timestamp : Z)
| TokenSold (tokenAddress seller tokenQty netRefund timestamp : Z)
| TokenLaunched (tokenAddress ethForLP listingFeeTaken timestamp : Z)
| ListingFeeUpdated (newListingFee : Z)
| Transfer (token from to value : Z)
| Approval (token owner spender value : Z)
| FactorySet (token factory : Z)
| Minted (token to amount : Z)
| Burned (token from amount : Z)
| Sent (to amount : Z).

(** Storage of one deployed [Token]. *)
Record TokenStorage : Type := mkToken {
  tk_name : string;
  tk_symbol : string;
  tk_maxSupply : Z;
  tk_totalSupply : Z;
  tk_balances : gmap Z Z;
  tk_allowances : gmap (Z * Z) Z;
  tk_factory : address;
  tk_factoryLocked : bool
}.

Record MemeToken : Type := mkMemeToken {
  name : string;
  symbol : string;
  description : string;
  tokenImageUrl : string;
  fundingRaised : Z;
  tokenAddress : address;
  creatorAddress : address;
  isLaunched : bool
}.

(** What a mapping returns for a key never written. *)
Definition noMemeToken : MemeToken :=
  mkMemeToken EmptyString EmptyString EmptyString EmptyString 0 0 0 false.

(** Storage of the factory, its native balance, the tokens it deployed and
    the log of what the transactions emitted and paid out. *)
Record World : Type := mkWorld {
  this : address;
  owner : address;
  uniswapFactory : address;
  uniswapRouter : address;
  memeTokenAddresses : list address;
  addressToMemeToken : gmap Z MemeToken;
  curveSupply : gmap Z Z;
  listingFee : Z;
  protocolFeeBalance : Z;
  _status : Z;
  balance : Z;
  tokens : gmap Z TokenStorage;
  log : list Event
}.

Definition memeTokenOf (w : World) (a : address) : MemeToken :=
  default noMemeToken (addressToMemeToken w !! a).

Definition curveSupplyOf (w : World) (a : address) : Z :=
  default 0 (curveSupply w !! a).

Definition set_memeTokenAddresses (v : list address) (w : World) : World :=
  mkWorld (this w) (owner w) (uniswapFactory w) (uniswapRouter w) v
    (addressToMemeToken w) (curveSupply w) (listingFee w)
    (protocolFeeBalance w) (_status w) (balance w) (tokens w) (log w).

Definition set_addressToMemeToken (v : gmap Z MemeToken) (w : World) : World :=
  mkWorld (this w) (owner w) (uniswapFactory w) (uniswapRouter w)
    (memeTokenAddresses w) v (curveSupply w) (listingFee w)
    (protocolFeeBalance w) (_status w) (balance w) (tokens w) (log w).

Definition set_curveSupply (v : gmap Z Z) (w : World) : World :=
  mkWorld (this w) (owner w) (uniswapFactory w) (uniswapRouter w)
    (memeTokenAddresses w) (addressToMemeToken w) v (listingFee w)
    (protocolFeeBalance w) (_status w) (balance w) (tokens w) (log w).

Definition set_listingFee (v : Z) (w : World) : World :=
  mkWorld (this w) (owner w) (uniswapFactory w) (uniswapRouter w)
    (memeTokenAddresses w) (addressToMemeToken w) (curveSupply w) v
    (protocolFeeBalance w) (_status w) (balance w) (tokens w) (log w).

Definition set_protocolFeeBalance (v : Z) (w : World) : World :=
  mkWorld (this w) (owner w) (uniswapFactory w) (uniswapRouter w)
    (memeTokenAddresses w) (addressToMemeToken w) (curveSupply w)
    (listingFee w) v (_status w) (balance w) (tokens w) (log w).

Definition set_status (v : Z) (w : World) : World :=
  mkWorld (this w) (owner w) (uniswapFactory w) (uniswapRouter w)
    (memeTokenAddresses w) (addressToMemeToken w) (curveSupply w)
    (listingFee w) (protocolFeeBalance w) v (balance w) (tokens w) (log w).

Definition set_balance (v : Z) (w : World) : World :=
  mkWorld (this w) (owner w) (uniswapFactory w) (uniswapRouter w)
    (memeTokenAddresses w) (addressToMemeToken w) (curveSupply w)
    (listingFee w) (protocolFeeBalance w) (_status w) v (tokens w) (log w).

Definition set_tokens (v : gmap Z TokenStorage) (w : World) : World :=
  mkWorld (this w) (owner w) (uniswapFactory w) (uniswapRouter w)
    (memeTokenAddresses w) (addressToMemeToken w) (curveSupply w)
    (listingFee w) (protocolFeeBalance w) (_status w) (balance w) v (log w).

Definition set_log (v : list Event) (w : World) : World :=
  mkWorld (this w) (owner w) (uniswapFactory w) (uniswapRouter w)
    (memeTokenAddresses w) (addressToMemeToken w) (curveSupply w)
    (listingFee w) (protocolFeeBalance w) (_status w) (balance w) (tokens w) v.

(** Writes through the storage pointer [mt] of the Solidity code. *)
Definition set_fundingRaised (v : Z) (m : MemeToken) : MemeToken :=
  mkMemeToken (name m) (symbol m) (description m) (tokenImageUrl m) v
    (tokenAddress m) (creatorAddress m) (isLaunched m).

Definition set_isLaunched (v : bool) (m : MemeToken) : MemeToken :=
  mkMemeToken (name m) (symbol m) (description m) (tokenImageUrl m)
    (fundingRaised m) (tokenAddress m) (creatorAddress m) v.

(** ** The monad of a call: world state, failure *)

Definition M (A : Type) : Type := World -> Result (A * World).

#[export] Instance M_ret : MRet M := fun A a w => Ok (a, w).

#[export] Instance M_bind : MBind M := fun A B f m w =>
  match m w with
  | Ok (a, w') => f a w'
  | Err e => Err e
  end.

Definition fail {A} (e : Failure) : M A := fun _ => Err e.

Definition require (b : bool) (reason : string) : M unit :=
  if b then mret tt else fail (Revert reason).

(** A checked arithmetic operation inside a call. *)
Definition checked (o : option Z) : M Z :=
  match o with
  | Some z => mret z
  | None => fail Panic
  end.

Definition gets {A} (f : World -> A) : M A := fun w => Ok (f w, w).

Definition modify (f : World -> World) : M unit := fun w => Ok (tt, f w).

Definition emit (e : Event) : M unit := modify (fun w => set_log (log w ++ [e]) w).

(** A whole transaction: a failed call leaves the world as it was. *)
Definition transact {A} (m : M A) (w : World) : World * Result A :=
  match m w with
  | Ok (a, w') => (w', Ok a)
  | Err e => (w, Err e)
  end.

(** What the contracts outside this repository answer.  Each field is the
    outcome of one external call; [None] or [false] is a call that fails. *)
Record Env : Type := mkEnv {
  env_accepts : address -> Z -> bool;
  env_create : address;
  env_WETH : option address;
  env_getPair : address -> address -> option address;
  env_createPair : address -> address -> option address;
  env_addLiquidityETH : address -> Z -> TokenStorage -> option (TokenStorage * Z);
  env_pairTransfer : address -> Z -> bool
}.

Definition external {A} (o : option A) : M A :=
  match o with
  | Some a => mret a
  | None => fail External
  end.

(** [msg.value] arrives with a payable call. *)
Definition receive (value : Z) : M unit :=
  modify (fun w => set_balance (balance w + value) w).

(** [to.call{value: amount}("")]: the success flag of the call. *)
Definition send (env : Env) (to amount : Z) : M bool := fun w =>
  if (amount <=? balance w) && env_accepts env to amount
  then Ok (true, set_log (log w ++ [Sent to amount])
                   (set_balance (balance w - amount) w))
  else Ok (false, w).

(** ** The [Token] contract *)

Module Token.

Definition storage (token : address) : M TokenStorage := fun w =>
  match tokens w !! token with
  | Some tk => Ok (tk, w)
  | None => Err External
  end.

Definition store (token : address) (tk : TokenStorage) : M unit :=
  modify (fun w => set_tokens (<[token := tk]> (tokens w)) w).

Definition balance_in (tk : TokenStorage) (account : address) : Z :=
  default 0 (tk_balances tk !! account).

Definition allowance_in (tk : TokenStorage) (o spender : address) : Z :=
  default 0 (tk_allowances tk !! (o, spender)).

Definition set_totalSupply (v : Z) (tk : TokenStorage) : TokenStorage :=
  mkToken (tk_name tk) (tk_symbol tk) (tk_maxSupply tk) v (tk_balances tk)
    (tk_allowances tk) (tk_factory tk) (tk_factoryLocked tk).

Definition set_balance_of (account : address) (v : Z) (tk : TokenStorage)
  : TokenStorage :=
  mkToken (tk_name tk) (tk_symbol tk) (tk_maxSupply tk) (tk_totalSupply tk)
    (<[account := v]> (tk_balances tk)) (tk_allowances tk) (tk_factory tk)
    (tk_factoryLocked tk).

Definition set_allowance (o spender : address) (v : Z) (tk : TokenStorage)
  : TokenStorage :=
  mkToken (tk_name tk) (tk_symbol tk) (tk_maxSupply tk) (tk_totalSupply tk)
    (tk_balances tk) (<[(o, spender) := v]> (tk_allowances tk)) (tk_factory tk)
    (tk_factoryLocked tk).

Definition lock_factory (f : address) (tk : TokenStorage) : TokenStorage :=
  mkToken (tk_name tk) (tk_symbol tk) (tk_maxSupply tk) (tk_totalSupply tk)
    (tk_balances tk) (tk_allowances tk) f true.

Definition balanceOf (token account : address) : M Z :=
  tk ← storage token; mret (balance_in tk account).

Definition _transfer (token from to amount : Z) : M unit :=
  require (negb (from =? 0)) "ERC20: transfer from zero";;
  require (negb (to =? 0)) "ERC20: transfer to zero";;
  tk ← storage token;
  let fromBal := balance_in tk from in
  require (amount <=? fromBal) "ERC20: transfer > balance";;
  let tk1 := set_balance_of from (fromBal - amount) tk in
  toBal ← checked (U256.add (balance_in tk1 to) amount);
  store token (set_balance_of to toBal tk1);;
  emit (Transfer token from to amount).

Definition _mint (token to amount : Z) : M unit :=
  require (negb (to =? 0)) "ERC20: mint to zero";;
  tk ← storage token;
  total ← checked (U256.add (tk_totalSupply tk) amount);
  require (total <=? tk_maxSupply tk) "max supply exceeded";;
  toBal ← checked (U256.add (balance_in tk to) amount);
  store token (set_balance_of to toBal (set_totalSupply total tk));;
  emit (Transfer token 0 to amount).

Definition _burn (token from amount : Z) : M unit :=
  require (negb (from =? 0)) "ERC20: burn from zero";;
  tk ← storage token;
  let fromBal := balance_in tk from in
  require (amount <=? fromBal) "ERC20: burn > balance";;
  let tk1 := set_balance_of from (fromBal - amount) tk in
  total ← checked (U256.sub (tk_totalSupply tk1) amount);
  store token (set_totalSupply total tk1);;
  emit (Transfer token from 0 amount).

Definition _approve (token o spender amount : Z) : M unit :=
  require (negb (o =? 0)) "ERC20: approve from zero";;
  require (negb (spender =? 0)) "ERC20: approve to zero";;
  tk ← storage token;
  store token (set_allowance o spender amount tk);;
  emit (Approval token o spender amount).

Definition transfer (sender token to amount : Z) : M bool :=
  _transfer token sender to amount;; mret true.

Definition approve (sender token spender amount : Z) : M bool :=
  _approve token sender spender amount;; mret true.

Definition transferFrom (sender token from to amount : Z) : M bool :=
  tk ← storage token;
  let currentAllowance := allowance_in tk from sender in
  require (amount <=? currentAllowance) "ERC20: insufficient allowance";;
  _approve token from sender (currentAllowance - amount);;
  _transfer token from to amount;;
  mret true.

Definition setFactory (token _factory : Z) : M unit :=
  tk ← storage token;
  require (negb (tk_factoryLocked tk)) "Factory already set";;
  require (negb (_factory =? 0)) "Zero factory";;
  store token (lock_factory _factory tk);;
  emit (FactorySet token _factory).

Definition onlyFactory {A} (sender token : Z) (body : M A) : M A :=
  tk ← storage token;
  require (sender =? tk_factory tk) "Not factory";;
  body.

Definition mint (sender token amount to : Z) : M unit :=
  onlyFactory sender token
    (_mint token to amount;; emit (Minted token to amount)).

Definition burn (sender token amount from : Z) : M unit :=
  onlyFactory sender token
    (_burn token from amount;; emit (Burned token from amount)).

(** [new Token(...)]: the contract is created at the address the chain
    assigns; creation fails when that address is taken. *)
Definition constructor (env : Env) (sender : address) (_name _symbol : string)
    (_maxSupply _initialLpSupply : Z) : M address :=
  let token := env_create env in
  taken ← gets (fun w => bool_decide (is_Some (tokens w !! token)));
  (if taken : bool then fail External else mret tt);;
  require (0 <? _maxSupply) "maxSupply zero";;
  require (_initialLpSupply <=? _maxSupply) "init > max";;
  store token (mkToken _name _symbol _maxSupply 0 ∅ ∅ 0 false);;
  _mint token sender _initialLpSupply;;
  mret token.

End Token.

(** ** The [TokenFactory] contract *)

Definition constructor (sender _uniswapFactory _uniswapRouter _listingFee self : Z)
  : Result World :=
  if _uniswapFactory =? 0 then Err (Revert "zero factory")
  else if _uniswapRouter =? 0 then Err (Revert "zero router")
  else Ok (mkWorld self sender _uniswapFactory _uniswapRouter [] ∅ ∅
             _listingFee 0 _NOT_ENTERED 0 ∅ []).

Definition nonReentrant {A} (body : M A) : M A :=
  st ← gets _status;
  require (negb (st =? _ENTERED)) "ReentrancyGuard: reentrant call";;
  modify (set_status _ENTERED);;
  r ← body;
  modify (set_status _NOT_ENTERED);;
  mret r.

Definition onlyOwner {A} (sender : address) (body : M A) : M A :=
  o ← gets owner;
  require (sender =? o) "Not owner";;
  body.

Definition setListingFee (sender _listingFee : Z) : M unit :=
  onlyOwner sender
    (modify (set_listingFee _listingFee);;
     emit (ListingFeeUpdated _listingFee)).

(** [mt.field = v] through the storage pointer [mt] of [tokenAddr]. *)
Definition update_memeToken (tokenAddr : address) (f : MemeToken -> MemeToken)
  : M unit :=
  modify (fun w =>
    set_addressToMemeToken
      (<[tokenAddr := f (memeTokenOf w tokenAddr)]> (addressToMemeToken w)) w).

Definition createMemeToken (env : Env) (sender timestamp value : Z)
    (name symbol imageUrl description : string) : M address :=
  receive value;;
  nonReentrant
    (require (MEMETOKEN_CREATION_FEE <=? value) "Creation fee required";;
     fees ← gets protocolFeeBalance;
     fees' ← checked (U256.add fees value);
     modify (set_protocolFeeBalance fees');;
     self ← gets this;
     tokenAddr ← Token.constructor env self name symbol MAX_SUPPLY INIT_SUPPLY;
     Token.setFactory tokenAddr self;;
     modify (fun w => set_memeTokenAddresses (memeTokenAddresses w ++ [tokenAddr]) w);;
     modify (fun w =>
       set_addressToMemeToken
         (<[tokenAddr := mkMemeToken name symbol description imageUrl 0
                           tokenAddr sender false]> (addressToMemeToken w)) w);;
     emit (MemeTokenCreated tokenAddr sender timestamp);;
     mret tokenAddr).

Definition getAllMemeTokens (w : World) : list MemeToken :=
  map (memeTokenOf w) (memeTokenAddresses w).

(** The [while (low < high)] loop of [calculateTokenAmountFromEth].  Every
    iteration brings [low] and [high] closer, so [fuel] iterations are enough
    when [high - low <= fuel]; the [staticcall] of [calculateCost] reports an
    arithmetic fault as [ok = false], here [None]. *)
Fixpoint search (fuel : nat) (currentRaw effectiveEth low high : Z) : option Z :=
  if low <? high then
    match fuel with
    | O => None
    | S fuel' =>
        s ← U256.add low high;
        s1 ← U256.add s 1;
        mid ← U256.div s1 2;
        amountRaw ← U256.mul mid DECIMALS;
        match calculateCost currentRaw amountRaw with
        | Some cost =>
            if cost <=? effectiveEth
            then search fuel' currentRaw effectiveEth mid high
            else high' ← U256.sub mid 1;
                 search fuel' currentRaw effectiveEth low high'
        | None =>
            high' ← U256.sub mid 1;
            search fuel' currentRaw effectiveEth low high'
        end
    end
  else Some low.

Definition known (mt : MemeToken) (tokenAddr : address) : bool :=
  (tokenAddress mt =? tokenAddr) && negb (tokenAddr =? 0).

Definition calculateTokenAmountFromEth (tokenAddr ethAmount : Z) : M Z :=
  mt ← gets (fun w => memeTokenOf w tokenAddr);
  require (known mt tokenAddr) "Unknown token";;
  require (negb (isLaunched mt)) "Already launched";;
  currentRaw ← gets (fun w => curveSupplyOf w tokenAddr);
  availRaw ← checked (U256.sub maxCurveRaw currentRaw);
  maxTokens ← checked (U256.div availRaw DECIMALS);
  if (maxTokens =? 0) || (ethAmount =? 0) then mret 0
  else
    n ← checked (U256.mul ethAmount (BPS_DENOMINATOR - FEE_BPS));
    effectiveEth ← checked (U256.div n BPS_DENOMINATOR);
    checked (search (Z.to_nat maxTokens) currentRaw effectiveEth 0 maxTokens).

Definition _launchOnUniswap (env : Env) (tokenAddr ethAmount : Z) : M unit :=
  require (0 <? ethAmount) "No SEI for LP";;
  router ← gets uniswapRouter;
  weth ← external (env_WETH env);
  pair0 ← external (env_getPair env tokenAddr weth);
  pair ← (if pair0 =? 0 then external (env_createPair env tokenAddr weth)
          else mret pair0);
  self ← gets this;
  held ← Token.balanceOf tokenAddr self;
  require (INIT_SUPPLY <=? held) "Insufficient LP tokens";;
  Token.approve self tokenAddr router INIT_SUPPLY;;
  funds ← gets balance;
  (if ethAmount <=? funds then mret tt else fail External);;
  modify (set_balance (funds - ethAmount));;
  emit (Sent router ethAmount);;
  tk ← Token.storage tokenAddr;
  r ← external (env_addLiquidityETH env tokenAddr ethAmount tk);
  Token.store tokenAddr (fst r);;
  require (0 <? snd r) "No liquidity minted";;
  (if env_pairTransfer env pair (snd r) then mret tt else fail External).

(** The graduation block at the end of [buyMemeToken]. *)
Definition graduate (env : Env) (timestamp tokenAddr : Z) : M unit :=
  mt ← gets (fun w => memeTokenOf w tokenAddr);
  sold ← gets (fun w => curveSupplyOf w tokenAddr);
  if negb (isLaunched mt)
     && ((MEMECOIN_FUNDING_GOAL <=? fundingRaised mt) || (maxCurveRaw <=? sold))
  then
    let lpEth0 := fundingRaised mt in
    fee ← gets listingFee;
    r ← (if (0 <? fee) && (fee <? lpEth0)
         then
           lpEth ← checked (U256.sub lpEth0 fee);
           fees ← gets protocolFeeBalance;
           fees' ← checked (U256.add fees fee);
           modify (set_protocolFeeBalance fees');;
           mret (lpEth, fee)
         else mret (lpEth0, 0));
    update_memeToken tokenAddr (set_isLaunched true);;
    update_memeToken tokenAddr (set_fundingRaised 0);;
    _launchOnUniswap env tokenAddr (fst r);;
    emit (TokenLaunched tokenAddr (fst r) (snd r) timestamp)
  else mret tt.

(** The refund at the end of [buyMemeToken]: what was sent above the price
    goes back to the buyer. *)
Definition refundExcess (env : Env) (sender value totalRequired : Z) : M unit :=
  if totalRequired <? value
  then
    excess ← checked (U256.sub value totalRequired);
    success ← send env sender excess;
    require success "Refund failed"
  else mret tt.

Definition buyMemeToken (env : Env) (sender timestamp value : Z)
    (tokenAddr tokenQty : Z) : M Z :=
  receive value;;
  nonReentrant
    (mt ← gets (fun w => memeTokenOf w tokenAddr);
     require (known mt tokenAddr) "Unknown token";;
     require (negb (isLaunched mt)) "Launched: use Uniswap";;
     currentRaw ← gets (fun w => curveSupplyOf w tokenAddr);
     availableRaw ← checked (U256.sub maxCurveRaw currentRaw);
     require (0 <? availableRaw) "Curve complete";;
     requested ← checked (U256.mul tokenQty DECIMALS);
     let buyRaw := if availableRaw <? requested then availableRaw else requested in
     require (0 <? buyRaw) "Nothing to buy";;
     curveCost ← checked (calculateCost currentRaw buyRaw);
     feeNum ← checked (U256.mul curveCost FEE_BPS);
     fee ← checked (U256.div feeNum BPS_DENOMINATOR);
     totalRequired ← checked (U256.add curveCost fee);
     require (totalRequired <=? value) "Insufficient SEI sent";;
     fees ← gets protocolFeeBalance;
     fees' ← checked (U256.add fees fee);
     modify (set_protocolFeeBalance fees');;
     raised ← gets (fun w => fundingRaised (memeTokenOf w tokenAddr));
     raised' ← checked (U256.add raised curveCost);
     update_memeToken tokenAddr (set_fundingRaised raised');;
     sold ← checked (U256.add currentRaw buyRaw);
     modify (fun w => set_curveSupply (<[tokenAddr := sold]> (curveSupply w)) w);;
     actualTokenQty ← checked (U256.div buyRaw DECIMALS);
     self ← gets this;
     Token.mint self tokenAddr buyRaw sender;;
     emit (TokenBought tokenAddr sender actualTokenQty totalRequired timestamp);;
     refundExcess env sender value totalRequired;;
     graduate env timestamp tokenAddr;;
     mret totalRequired).

Definition sellMemeToken (env : Env) (sender timestamp : Z)
    (tokenAddr tokenQty : Z) : M Z :=
  nonReentrant
    (mt ← gets (fun w => memeTokenOf w tokenAddr);
     require (known mt tokenAddr) "Unknown token";;
     require (negb (isLaunched mt)) "Launched: use Uniswap";;
     qtyRaw ← checked (U256.mul tokenQty DECIMALS);
     currentRaw ← gets (fun w => curveSupplyOf w tokenAddr);
     held ← Token.balanceOf tokenAddr sender;
     require (qtyRaw <=? held) "Insufficient balance";;
     require (qtyRaw <=? currentRaw) "Curve supply too low";;
     refund ← checked (calculateRefund currentRaw qtyRaw);
     raised ← gets (fun w => fundingRaised (memeTokenOf w tokenAddr));
     require (refund <=? raised) "Insufficient curve SEI";;
     feeNum ← checked (U256.mul refund FEE_BPS);
     fee ← checked (U256.div feeNum BPS_DENOMINATOR);
     netRefund ← checked (U256.sub refund fee);
     fees ← gets protocolFeeBalance;
     fees' ← checked (U256.add fees fee);
     modify (set_protocolFeeBalance fees');;
     raised' ← checked (U256.sub raised refund);
     update_memeToken tokenAddr (set_fundingRaised raised');;
     sold ← checked (U256.sub currentRaw qtyRaw);
     modify (fun w => set_curveSupply (<[tokenAddr := sold]> (curveSupply w)) w);;
     self ← gets this;
     Token.burn self tokenAddr qtyRaw sender;;
     success ← send env sender netRefund;
     require success "SEI transfer failed";;
     emit (TokenSold tokenAddr sender tokenQty netRefund timestamp);;
     mret netRefund).

Definition withdrawProtocolFees (env : Env) (sender to : Z) : M unit :=
  onlyOwner sender
    (nonReentrant
       (require (negb (to =? 0)) "zero";;
        amount ← gets protocolFeeBalance;
        require (0 <? amount) "no fees";;
        modify (set_protocolFeeBalance 0);;
        success ← send env to amount;
        require success "SEI transfer failed")).

Definition withdrawFees (env : Env) (sender to : Z) : M unit :=
  onlyOwner sender
    (nonReentrant
       (require (negb (to =? 0)) "zero";;
        bal ← gets balance;
        require (0 <? bal) "no balance";;
        success ← send env to bal;
        require success "SEI transfer failed")).

(** ** Transactions *)

Inductive Call : Type :=
| CreateMemeToken (value : Z) (name symbol imageUrl description : string)
| BuyMemeToken (value tokenAddr tokenQty : Z)
| SellMemeToken (tokenAddr tokenQty : Z)
| SetListingFee (_listingFee : Z)
| WithdrawProtocolFees (to : Z)
| WithdrawFees (to : Z)
| TokenTransfer (token to amount : Z)
| TokenApprove (token spender amount : Z)
| TokenTransferFrom (token from to amount : Z)
| TokenSetFactory (token _factory : Z).

(** The value a call returns, when it returns one. *)
Definition run (env : Env) (sender timestamp : Z) (c : Call) : M Z :=
  match c with
  | CreateMemeToken value n s i d => createMemeToken env sender timestamp value n s i d
  | BuyMemeToken value tokenAddr tokenQty =>
      buyMemeToken env sender timestamp value tokenAddr tokenQty
  | SellMemeToken tokenAddr tokenQty =>
      sellMemeToken env sender timestamp tokenAddr tokenQty
  | SetListingFee fee => setListingFee sender fee;; mret 0
  | WithdrawProtocolFees to => withdrawProtocolFees env sender to;; mret 0
  | WithdrawFees to => withdrawFees env sender to;; mret 0
  | TokenTransfer token to amount => Token.transfer sender token to amount;; mret 1
  | TokenApprove token spender amount => Token.approve sender token spender amount;; mret 1
  | TokenTransferFrom token from to amount =>
      Token.transferFrom sender token from to amount;; mret 1
  | TokenSetFactory token f => Token.setFactory token f;; mret 0
  end.

Definition exec (env : Env) (sender timestamp : Z) (c : Call) (w : World) : World :=
  fst (transact (run env sender timestamp c) w).

(** The arguments of a call are 256-bit values. *)
Definition call_wf (c : Call) : Prop :=
  match c with
  | CreateMemeToken value _ _ _ _ => U256.in_range value
  | BuyMemeToken value _ tokenQty => U256.in_range value /\ U256.in_range tokenQty
  | SellMemeToken _ tokenQty => U256.in_range tokenQty
  | SetListingFee fee => U256.in_range fee
  | WithdrawProtocolFees _ | WithdrawFees _ => True
  | TokenTransfer _ _ amount | TokenApprove _ _ amount
  | TokenTransferFrom _ _ _ amount => U256.in_range amount
  | TokenSetFactory _ _ => True
  end.

(** One transaction sent from outside; the factory itself sends none. *)
Inductive step (w : World) : World -> Prop :=
| step_call env sender timestamp c :
    sender <> this w -> call_wf c ->
    step w (exec env sender timestamp c w).

(** The worlds the factory can be in, from its deployment on. *)
Inductive reachable : World -> Prop :=
| reachable_init sender f r fee self w :
    U256.in_range fee ->
    constructor sender f r fee self = Ok w -> reachable w
| reachable_step w w' : reachable w -> step w w' -> reachable w'.

(** A test environment: every recipient accepts, the router takes the tokens
    it was approved for and mints liquidity. *)
Definition demo_env (fresh : address) : Env :=
  mkEnv (fun _ _ => true) fresh (Some 900) (fun _ _ => Some 0)
    (fun _ _ => Some 901)
    (fun _ amount tk => Some (tk, amount)) (fun _ _ => true).

Definition demo_world : World :=
  mkWorld 500 1 700 701 [] ∅ ∅ 5 0 _NOT_ENTERED 0 ∅ [].

(** One asset, created by account 7 at address 1000. *)
Definition demo_created : World :=
  exec (demo_env 1000) 7 100
    (CreateMemeToken 2000000000000 "A" "A" "u" "d") demo_world.

(** Account 7 bought three tokens of it. *)
Definition demo_bought : World :=
  exec (demo_env 0) 7 101 (BuyMemeToken (2 * ether) 1000 3) demo_created.

(** Account 7 bought three tokens of the fresh asset one at a time. *)
Definition demo_singles : World :=
  exec (demo_env 0) 7 104 (BuyMemeToken ether 1000 1)
    (exec (demo_env 0) 7 103 (BuyMemeToken ether 1000 1)
       (exec (demo_env 0) 7 102 (BuyMemeToken ether 1000 1) demo_created)).

(** Account 7 asked for 800,001 tokens of the fresh asset: the curve sold
    out and the asset graduated. *)
Definition demo_launched : World :=
  exec (demo_env 0) 7 101 (BuyMemeToken (200000 * ether) 1000 800001)
    demo_created.


(** The native currency a log records as paid out, in order. *)
Fixpoint payouts (l : list Event) : list (Z * Z) :=
  match l with
  | [] => []
  | Sent to amount :: r => (to, amount) :: payouts r
  | _ :: r => payouts r
  end.


(** ** Quantities the statements below speak about *)

(** The trading fee on a gross amount. *)
Definition feeOf (gross : Z) : Z := gross * FEE_BPS / BPS_DENOMINATOR.

(** What a buy of [tokenQty] whole tokens fills: the request, clamped to the
    supply that remains on the curve. *)
Definition buyRawOf (w : World) (tokenAddr tokenQty : Z) : Z :=
  if maxCurveRaw - curveSupplyOf w tokenAddr <? tokenQty * DECIMALS
  then maxCurveRaw - curveSupplyOf w tokenAddr
  else tokenQty * DECIMALS.

(** The graduation condition after a buy that costs [cost] and fills [buyRaw]. *)
Definition graduates (w : World) (tokenAddr cost buyRaw : Z) : bool :=
  (MEMECOIN_FUNDING_GOAL <=? fundingRaised (memeTokenOf w tokenAddr) + cost)
  || (maxCurveRaw <=? curveSupplyOf w tokenAddr + buyRaw).

(** The listing fee taken from a reserve [lp0] at graduation. *)
Definition listingFeeTaken (fee lp0 : Z) : Z :=
  if (0 <? fee) && (fee <? lp0) then fee else 0.

(** The token storage after [amount] was minted to [to]. *)
Definition minted (tk : TokenStorage) (to amount : Z) : TokenStorage :=
  Token.set_balance_of to (Token.balance_in tk to + amount)
    (Token.set_totalSupply (tk_totalSupply tk + amount) tk).

(** What a successful [buyMemeToken] did, in terms of the world before. *)
Record buy_facts (env : Env) (sender timestamp value a qty : Z) (w : World)
    (ret : Z) (w' : World) (cost : Z) (tk : TokenStorage) : Prop := {
  bf_status : _status w <> _ENTERED;
  bf_known : known (memeTokenOf w a) a = true;
  bf_open : isLaunched (memeTokenOf w a) = false;
  bf_room : curveSupplyOf w a < maxCurveRaw;
  bf_qty : qty * DECIMALS < U256.modulus;
  bf_pos : 0 < buyRawOf w a qty;
  bf_cost : calculateCost (curveSupplyOf w a) (buyRawOf w a qty) = Some cost;
  bf_ret : ret = cost + feeOf cost;
  bf_paid : ret <= value;
  bf_token : tokens w !! a = Some tk;
  bf_supply :
    curveSupply w' = <[a := curveSupplyOf w a + buyRawOf w a qty]> (curveSupply w);
  bf_asset :
    addressToMemeToken w' =
      <[a := if graduates w a cost (buyRawOf w a qty)
             then set_fundingRaised 0 (set_isLaunched true (memeTokenOf w a))
             else set_fundingRaised (fundingRaised (memeTokenOf w a) + cost)
                    (memeTokenOf w a)]> (addressToMemeToken w);
  bf_fees :
    protocolFeeBalance w' =
      protocolFeeBalance w + feeOf cost
      + (if graduates w a cost (buyRawOf w a qty)
         then listingFeeTaken (listingFee w) (fundingRaised (memeTokenOf w a) + cost)
         else 0);
  bf_status' : _status w' = _NOT_ENTERED;
  bf_log :
    let lp0 := fundingRaised (memeTokenOf w a) + cost in
    log w' =
      log w
      ++ [Transfer a 0 sender (buyRawOf w a qty);
          Minted a sender (buyRawOf w a qty);
          TokenBought a sender (buyRawOf w a qty / DECIMALS) ret timestamp]
      ++ (if ret <? value then [Sent sender (value - ret)] else [])
      ++ (if graduates w a cost (buyRawOf w a qty)
          then [Approval a (this w) (uniswapRouter w) INIT_SUPPLY;
                Sent (uniswapRouter w) (lp0 - listingFeeTaken (listingFee w) lp0);
                TokenLaunched a (lp0 - listingFeeTaken (listingFee w) lp0)
                  (listingFeeTaken (listingFee w) lp0) timestamp]
          else []);
  bf_balance :
    let lp0 := fundingRaised (memeTokenOf w a) + cost in
    balance w' =
      balance w + ret
      - (if graduates w a cost (buyRawOf w a qty)
         then lp0 - listingFeeTaken (listingFee w) lp0 else 0);
  bf_frame :
    this w' = this w /\ owner w' = owner w /\ listingFee w' = listingFee w
    /\ uniswapRouter w' = uniswapRouter w
    /\ uniswapFactory w' = uniswapFactory w
    /\ memeTokenAddresses w' = memeTokenAddresses w;
  bf_tokens :
    let lp0 := fundingRaised (memeTokenOf w a) + cost in
    let tk1 := minted tk sender (buyRawOf w a qty) in
    if graduates w a cost (buyRawOf w a qty)
    then exists r,
      env_addLiquidityETH env a (lp0 - listingFeeTaken (listingFee w) lp0)
        (Token.set_allowance (this w) (uniswapRouter w) INIT_SUPPLY tk1)
        = Some r
      /\ tokens w' = <[a := fst r]> (tokens w)
    else tokens w' = <[a := tk1]> (tokens w)
}.

(** The token storage after [amount] was burnt from [from]. *)
Definition burned (tk : TokenStorage) (from amount : Z) : TokenStorage :=
  Token.set_totalSupply (tk_totalSupply tk - amount)
    (Token.set_balance_of from (Token.balance_in tk from - amount) tk).

(** What a successful [sellMemeToken] did, in terms of the world before. *)
Record sell_facts (env : Env) (sender timestamp a qty : Z) (w : World)
    (ret : Z) (w' : World) (refund : Z) (tk : TokenStorage) : Prop := {
  sf_status : _status w <> _ENTERED;
  sf_known : known (memeTokenOf w a) a = true;
  sf_open : isLaunched (memeTokenOf w a) = false;
  sf_qty : qty * DECIMALS < U256.modulus;
  sf_token : tokens w !! a = Some tk;
  sf_held : qty * DECIMALS <= Token.balance_in tk sender;
  sf_sold : qty * DECIMALS <= curveSupplyOf w a;
  sf_refund : calculateRefund (curveSupplyOf w a) (qty * DECIMALS) = Some refund;
  sf_cover : refund <= fundingRaised (memeTokenOf w a);
  sf_ret : ret = refund - feeOf refund;
  sf_fee : feeOf refund <= refund;
  sf_supply :
    curveSupply w' = <[a := curveSupplyOf w a - qty * DECIMALS]> (curveSupply w);
  sf_asset :
    addressToMemeToken w' =
      <[a := set_fundingRaised (fundingRaised (memeTokenOf w a) - refund)
               (memeTokenOf w a)]> (addressToMemeToken w);
  sf_fees : protocolFeeBalance w' = protocolFeeBalance w + feeOf refund;
  sf_status' : _status w' = _NOT_ENTERED;
  sf_log :
    log w' =
      log w ++ [Transfer a sender 0 (qty * DECIMALS);
                Burned a sender (qty * DECIMALS);
                Sent sender ret;
                TokenSold a sender qty ret timestamp];
  sf_balance : balance w' = balance w - ret;
  sf_frame :
    this w' = this w /\ owner w' = owner w /\ listingFee w' = listingFee w
    /\ uniswapRouter w' = uniswapRouter w
    /\ uniswapFactory w' = uniswapFactory w
    /\ memeTokenAddresses w' = memeTokenAddresses w;
  sf_tokens : tokens w' = <[a := burned tk sender (qty * DECIMALS)]> (tokens w)
}.

(** ** The invariant of the ledger *)

Definition wf (w : World) : Prop :=
  _status w = _NOT_ENTERED /\
  forall a,
    0 <= fundingRaised (memeTokenOf w a) /\
    0 <= curveSupplyOf w a <= maxCurveRaw /\
    (isLaunched (memeTokenOf w a) = true ->
     known (memeTokenOf w a) a = true /\ is_Some (tokens w !! a)).

(** A call that leaves the curve ledger alone. *)
Definition ledger_kept (w w' : World) : Prop :=
  addressToMemeToken w' = addressToMemeToken w /\
  curveSupply w' = curveSupply w /\
  (_status w' = _status w \/ _status w' = _NOT_ENTERED) /\
  forall a, is_Some (tokens w !! a) -> is_Some (tokens w' !! a).

(** ** The series without the early exit *)

(** The sum of the terms [0 .. n] of the series. *)
Fixpoint q18_series (x : Z) (n : nat) : Z :=
  match n with
  | O => q18_term x 0
  | S m => q18_series x m + q18_term x (S m)
  end.

(** The second difference of term [i] over the exponents [a <= b], both
    moved up by [s]. *)
Definition term_gain (a b s : Z) (i : nat) : Z :=
  q18_term (b + s) i - q18_term (a + s) i - q18_term b i + q18_term a i.

(** [q] whole tokens are affordable: their cost evaluates and is within the
    spend limit. *)
Definition affordable (currentRaw effectiveEth q : Z) : bool :=
  match calculateCost currentRaw (q * DECIMALS) with
  | Some cost => cost <=? effectiveEth
  | None => false
  end.

(** Account 7 sold the three tokens of [demo_bought] back. *)
Definition demo_sold_back : World :=
  exec (demo_env 0) 7 102 (SellMemeToken 1000 3) demo_bought.

(** ** Further invariants of the ledger *)

Definition ledger_inv (w : World) : Prop :=
  forall a,
    curveSupplyOf w a mod DECIMALS = 0 /\
    (isLaunched (memeTokenOf w a) = false ->
     curveSupplyOf w a < maxCurveRaw /\
     fundingRaised (memeTokenOf w a) < MEMECOIN_FUNDING_GOAL) /\
    (isLaunched (memeTokenOf w a) = true ->
     fundingRaised (memeTokenOf w a) = 0).

(** ** Token storage after a transfer *)

Definition moved (tk : TokenStorage) (from to amount : Z) : TokenStorage :=
  let tk1 := Token.set_balance_of from (Token.balance_in tk from - amount) tk in
  Token.set_balance_of to (Token.balance_in tk1 to + amount) tk1.

(** ** The registry and the tokens of the assets on a curve *)

(** The token a successful [createMemeToken] leaves behind: the whole initial
    supply held by the factory, which is its locked minter. *)
Definition created (name symbol : string) (self : address) : TokenStorage :=
  mkToken name symbol MAX_SUPPLY INIT_SUPPLY (<[self := INIT_SUPPLY]> ∅) ∅ self true.

(** The registry lists each deployed token once; an address that is not
    listed has no token, no record and nothing sold. *)
Definition registry_inv (w : World) : Prop :=
  NoDup (memeTokenAddresses w) /\
  forall a,
    (a ∈ memeTokenAddresses w ->
       is_Some (tokens w !! a) /\ tokenAddress (memeTokenOf w a) = a) /\
    (a ∉ memeTokenAddresses w ->
       tokens w !! a = None /\ memeTokenOf w a = noMemeToken /\
       curveSupplyOf w a = 0).

(** The balances of a token, added up. *)
Definition sum_balances (tk : TokenStorage) : Z :=
  map_fold (fun _ v acc => v + acc) 0 (tk_balances tk).

(** The token of an asset on a curve of the factory [self] with [sold] raw
    units sold. *)
Definition curve_token (self sold : Z) (tk : TokenStorage) : Prop :=
  tk_factory tk = self /\ tk_factoryLocked tk = true /\
  tk_maxSupply tk = MAX_SUPPLY /\
  tk_totalSupply tk = INIT_SUPPLY + sold /\
  sum_balances tk = tk_totalSupply tk /\
  (forall account, 0 <= Token.balance_in tk account) /\
  INIT_SUPPLY <= Token.balance_in tk self /\
  forall spender, Token.allowance_in tk self spender = 0.

Definition token_inv (w : World) : Prop :=
  forall a tk,
    isLaunched (memeTokenOf w a) = false -> tokens w !! a = Some tk ->
    curve_token (this w) (curveSupplyOf w a) tk.

Definition assets_inv (w : World) : Prop := registry_inv w /\ token_inv w.

(** The owner's calls leave the registry and the tokens alone. *)
Definition registry_kept (w w' : World) : Prop :=
  tokens w' = tokens w /\ addressToMemeToken w' = addressToMemeToken w /\
  curveSupply w' = curveSupply w /\
  memeTokenAddresses w' = memeTokenAddresses w /\ this w' = this w.

(** What a record says about the asset itself, as opposed to its trading. *)
Definition metadata (mt : MemeToken) : string * string * string * string * Z * Z :=
  (name mt, symbol mt, description mt, tokenImageUrl mt, tokenAddress mt,
   creatorAddress mt).

(** ** Token transfers in the test worlds *)

(** Account 7 gave one of its three tokens to account 8. *)
Definition demo_transferred : World :=
  exec (demo_env 0) 7 105 (TokenTransfer 1000 8 DECIMALS) demo_bought.

(** Account 7 let account 9 spend two of its three tokens. *)
Definition demo_approved : World :=
  exec (demo_env 0) 7 105 (TokenApprove 1000 9 (2 * DECIMALS)) demo_bought.

(** Account 9 moved one of them to account 8. *)
Definition demo_spent : World :=
  exec (demo_env 0) 9 106 (TokenTransferFrom 1000 7 8 DECIMALS) demo_approved.

(** ** Withdrawals in the test worlds *)

(** The owner withdrew the protocol fees of [demo_bought] to account 2. *)
Definition demo_withdrawn : World :=
  exec (demo_env 0) 1 107 (WithdrawProtocolFees 2) demo_bought.

(** The owner withdrew the whole balance of [demo_bought] to account 2. *)
Definition demo_drained : World :=
  exec (demo_env 0) 1 107 (WithdrawFees 2) demo_bought.

(** ** The funds of the factory *)

(** The reserves of all curves: what the listed assets have raised. *)
Definition reserves (w : World) : Z :=
  foldr Z.add 0
    (map (fun a => fundingRaised (memeTokenOf w a)) (memeTokenAddresses w)).

(** [withdrawFees] is the one call that takes funds the ledger still counts. *)
Definition drains (c : Call) : bool :=
  match c with
  | WithdrawFees _ => true
  | _ => false
  end.

(** The worlds the factory can be in when [withdrawFees] is never called. *)
Inductive reachable_undrained : World -> Prop :=
| undrained_init sender f r fee self w :
    U256.in_range fee ->
    constructor sender f r fee self = Ok w -> reachable_undrained w
| undrained_step w env sender timestamp c :
    reachable_undrained w -> sender <> this w -> call_wf c ->
    drains c = false ->
    reachable_undrained (exec env sender timestamp c w).
(** * Facts *)

Module U256Facts.
Import U256.

Lemma add_Some a b c : add a b = Some c <-> a + b < modulus /\ c = a + b.
Proof.
  unfold add. destruct (Z.ltb_spec (a + b) modulus); split.
  - intros [= <-]. split; [assumption | reflexivity].
  - intros [_ ->]. reflexivity.
  - discriminate.
  - intros [? _]. lia.
Qed.

Lemma sub_Some a b c : sub a b = Some c <-> b <= a /\ c = a - b.
Proof.
  unfold sub. destruct (Z.leb_spec b a); split.
  - intros [= <-]. split; [assumption | reflexivity].
  - intros [_ ->]. reflexivity.
  - discriminate.
  - intros [? _]. lia.
Qed.

Lemma mul_Some a b c : mul a b = Some c <-> a * b < modulus /\ c = a * b.
Proof.
  unfold mul. destruct (Z.ltb_spec (a * b) modulus); split.
  - intros [= <-]. split; [assumption | reflexivity].
  - intros [_ ->]. reflexivity.
  - discriminate.
  - intros [? _]. lia.
Qed.

Lemma div_Some a b c : div a b = Some c <-> b <> 0 /\ c = a / b.
Proof.
  unfold div. destruct (Z.eqb_spec b 0); split.
  - discriminate.
  - intros [? _]. contradiction.
  - intros [= <-]. split; [assumption | reflexivity].
  - intros [_ ->]. reflexivity.
Qed.

End U256Facts.

(** ** Facts about [exp] *)

Ltac bind_inv H :=
  repeat match type of H with
  | (_ ≫= _) = Some _ =>
      let a := fresh "a" in
      let Ha := fresh "Ha" in
      apply bind_Some in H as (a & Ha & H)
  end.

Lemma DECIMALS_pos : 0 < DECIMALS.
Proof. reflexivity. Qed.

Lemma exp_loop_S n x i term sum :
  exp_loop (S n) x i term sum =
    (tx ← U256.mul term x;
     d ← U256.mul i DECIMALS;
     term' ← U256.div tx d;
     sum' ← U256.add sum term';
     if term' <? 1 then Some sum' else exp_loop n x (i + 1) term' sum').
Proof. reflexivity. Qed.

Lemma exp_unfold x : exp x = exp_loop (S 19) x 1 DECIMALS DECIMALS.
Proof. reflexivity. Qed.

Lemma exp_loop_ge n : forall x i term sum v,
  0 <= x -> 0 < i -> 0 <= term ->
  exp_loop n x i term sum = Some v -> sum <= v.
Proof.
  induction n as [|n IH]; intros x i term sum v Hx Hi Ht H; simpl in H.
  - injection H as <-. lia.
  - bind_inv H.
    apply U256Facts.mul_Some in Ha as [_ ->].
    apply U256Facts.mul_Some in Ha0 as [_ ->].
    apply U256Facts.div_Some in Ha1 as [_ ->].
    apply U256Facts.add_Some in Ha2 as [_ ->].
    assert (0 <= term * x / (i * DECIMALS)).
    { apply Z.div_pos; [nia | pose proof DECIMALS_pos; nia]. }
    destruct (Z.ltb_spec (term * x / (i * DECIMALS)) 1).
    + injection H as <-. lia.
    + apply IH in H; lia.
Qed.

(** [exp_loop] is monotone: a run on smaller data succeeds whenever the run
    on larger data does, and adds no more to its sum. *)
Lemma exp_loop_mono n : forall x X i t T s S' V,
  0 <= x <= X -> 0 < i -> 0 <= t <= T -> 0 <= s <= S' ->
  exp_loop n X i T S' = Some V ->
  exists v, exp_loop n x i t s = Some v /\ s <= v /\ v - s <= V - S'.
Proof.
  induction n as [|n IH]; intros x X i t T s S' V Hx Hi Ht Hs H; simpl in H.
  - injection H as <-. exists s. simpl. split; [reflexivity | lia].
  - bind_inv H.
    apply U256Facts.mul_Some in Ha as [HTX ->].
    apply U256Facts.mul_Some in Ha0 as [HiD ->].
    apply U256Facts.div_Some in Ha1 as [HD ->].
    apply U256Facts.add_Some in Ha2 as [HST ->].
    assert (Hd : 0 < i * DECIMALS) by (pose proof DECIMALS_pos; nia).
    assert (Htx : t * x <= T * X) by nia.
    assert (Hq : t * x / (i * DECIMALS) <= T * X / (i * DECIMALS))
      by (apply Z.div_le_mono; lia).
    assert (Hq0 : 0 <= t * x / (i * DECIMALS)) by (apply Z.div_pos; nia).
    simpl.
    assert (E1 : U256.mul t x = Some (t * x)) by (apply U256Facts.mul_Some; lia).
    assert (E2 : U256.mul i DECIMALS = Some (i * DECIMALS))
      by (apply U256Facts.mul_Some; lia).
    assert (E3 : U256.div (t * x) (i * DECIMALS) = Some (t * x / (i * DECIMALS)))
      by (apply U256Facts.div_Some; lia).
    assert (E4 : U256.add s (t * x / (i * DECIMALS))
                 = Some (s + t * x / (i * DECIMALS)))
      by (apply U256Facts.add_Some; lia).
    rewrite E1; simpl. rewrite E2; simpl. rewrite E3; simpl. rewrite E4; simpl.
    destruct (Z.ltb_spec (T * X / (i * DECIMALS)) 1) as [HT1|HT1].
    + injection H as <-.
      destruct (Z.ltb_spec (t * x / (i * DECIMALS)) 1); [|lia].
      eexists; split; [reflexivity | lia].
    + destruct (Z.ltb_spec (t * x / (i * DECIMALS)) 1) as [Ht1|Ht1].
      * apply exp_loop_ge in H; [|lia..].
        eexists; split; [reflexivity | lia].
      * destruct (IH x X (i + 1) (t * x / (i * DECIMALS))
                    (T * X / (i * DECIMALS)) (s + t * x / (i * DECIMALS))
                    (S' + T * X / (i * DECIMALS)) V) as (v & Hv & Hge & Hle);
          [lia..|assumption|].
        exists v. split; [assumption | lia].
Qed.

(** [exp] is total and non-decreasing below any input on which it returns,
    and grows at least as fast as its argument. *)
Lemma exp_mono x X V :
  0 <= x <= X -> exp X = Some V ->
  exists v, exp x = Some v /\ DECIMALS <= v /\ X - x <= V - v.
Proof.
  intros Hx H. rewrite exp_unfold, exp_loop_S in *. bind_inv H.
  apply U256Facts.mul_Some in Ha as [HTX ->].
  apply U256Facts.mul_Some in Ha0 as [HiD ->].
  apply U256Facts.div_Some in Ha1 as [HD ->].
  apply U256Facts.add_Some in Ha2 as [HST ->].
  assert (EX : DECIMALS * X / (1 * DECIMALS) = X).
  { rewrite Z.mul_1_l, Z.mul_comm. apply Z.div_mul. discriminate. }
  assert (Ex : DECIMALS * x / (1 * DECIMALS) = x).
  { rewrite Z.mul_1_l, Z.mul_comm. apply Z.div_mul. discriminate. }
  rewrite EX in *.
  assert (E1 : U256.mul DECIMALS x = Some (DECIMALS * x)).
  { apply U256Facts.mul_Some. pose proof DECIMALS_pos. split; [nia | reflexivity]. }
  assert (E2 : U256.mul 1 DECIMALS = Some (1 * DECIMALS)) by reflexivity.
  assert (E3 : U256.div (DECIMALS * x) (1 * DECIMALS) = Some x).
  { apply U256Facts.div_Some. rewrite Ex. split; [discriminate | reflexivity]. }
  assert (E4 : U256.add DECIMALS x = Some (DECIMALS + x))
    by (apply U256Facts.add_Some; lia).
  rewrite E1, E2; cbn [mbind option_bind]. rewrite E3; cbn [mbind option_bind].
  rewrite E4; cbn [mbind option_bind].
  pose proof DECIMALS_pos as HD0.
  destruct (Z.ltb_spec X 1) as [HX1|HX1].
  - injection H as <-. destruct (Z.ltb_spec x 1); [|lia].
    eexists; split; [reflexivity | lia].
  - destruct (Z.ltb_spec x 1) as [Hx1|Hx1].
    + apply exp_loop_ge in H; [|lia..].
      eexists; split; [reflexivity | lia].
    + destruct (exp_loop_mono 19 x X (1 + 1) x X (DECIMALS + x) (DECIMALS + X) V)
        as (v & Hv & Hge & Hle); [lia..|assumption|].
      exists v. split; [assumption | lia].
Qed.

Example exp_cap : exp (K * 800000) = Some 50435252932401309679.
Proof. vm_compute. reflexivity. Qed.

(** ** Facts about [calculateCost] *)


Lemma K_pos : 0 < K.
Proof. reflexivity. Qed.

Lemma modulus_pos : 0 < U256.modulus.
Proof. reflexivity. Qed.

Lemma exponent_of_nonneg raw : 0 <= raw -> 0 <= exponent_of raw.
Proof.
  intros H. unfold exponent_of. apply Z.div_pos; [|apply DECIMALS_pos].
  pose proof K_pos. nia.
Qed.

Lemma exponent_of_mono a b : a <= b -> exponent_of a <= exponent_of b.
Proof.
  intros H. unfold exponent_of. apply Z.div_le_mono; [apply DECIMALS_pos|].
  pose proof K_pos. nia.
Qed.

(** On whole tokens the exponent is exact. *)
Lemma exponent_of_whole n : exponent_of (n * DECIMALS) = K * n.
Proof.
  unfold exponent_of. rewrite Z.mul_assoc. apply Z.div_mul. discriminate.
Qed.

Lemma exponent_of_add_whole c n :
  exponent_of (c + n * DECIMALS) = exponent_of c + K * n.
Proof.
  unfold exponent_of.
  replace (K * (c + n * DECIMALS)) with (K * c + K * n * DECIMALS) by ring.
  apply Z.div_add. discriminate.
Qed.

(** What a successful evaluation of [calculateCost] computed. *)
Lemma calculateCost_Some c d v :
  calculateCost c d = Some v <->
  exists e1 e0,
    c + d < U256.modulus /\ K * (c + d) < U256.modulus /\
    K * c < U256.modulus /\
    exp (exponent_of (c + d)) = Some e1 /\ exp (exponent_of c) = Some e0 /\
    e0 <= e1 /\ INITIAL_PRICE * (e1 - e0) < U256.modulus /\
    v = INITIAL_PRICE * (e1 - e0) / K.
Proof.
  unfold calculateCost, exponent_of. split.
  - intros H. bind_inv H.
    apply U256Facts.add_Some in Ha as [? ->].
    apply U256Facts.mul_Some in Ha0 as [? ->].
    apply U256Facts.div_Some in Ha1 as [_ ->].
    apply U256Facts.mul_Some in Ha2 as [? ->].
    apply U256Facts.div_Some in Ha3 as [_ ->].
    apply U256Facts.sub_Some in Ha6 as [? ->].
    apply U256Facts.mul_Some in Ha7 as [? ->].
    apply U256Facts.div_Some in H as [_ ->].
    exists a4, a5. repeat split; assumption.
  - intros (e1 & e0 & H1 & H2 & H3 & H4 & H5 & H6 & H7 & ->).
    assert (E1 : U256.add c d = Some (c + d)) by (apply U256Facts.add_Some; lia).
    assert (E2 : U256.mul K (c + d) = Some (K * (c + d)))
      by (apply U256Facts.mul_Some; lia).
    assert (E3 : U256.mul K c = Some (K * c)) by (apply U256Facts.mul_Some; lia).
    assert (E4 : U256.sub e1 e0 = Some (e1 - e0)) by (apply U256Facts.sub_Some; lia).
    assert (E5 : U256.mul INITIAL_PRICE (e1 - e0) = Some (INITIAL_PRICE * (e1 - e0)))
      by (apply U256Facts.mul_Some; lia).
    rewrite E1; cbn [mbind option_bind]. rewrite E2; cbn [mbind option_bind].
    change (U256.div (K * (c + d)) DECIMALS) with (Some (K * (c + d) / DECIMALS)).
    cbn [mbind option_bind]. rewrite E3; cbn [mbind option_bind].
    change (U256.div (K * c) DECIMALS) with (Some (K * c / DECIMALS)).
    cbn [mbind option_bind]. rewrite H4; cbn [mbind option_bind].
    rewrite H5; cbn [mbind option_bind]. rewrite E4; cbn [mbind option_bind].
    rewrite E5; cbn [mbind option_bind]. reflexivity.
Qed.

(** The scaling by [INITIAL_PRICE / K] keeps order, strictly. *)
Lemma price_scale_mono a b :
  a <= b -> INITIAL_PRICE * a / K <= INITIAL_PRICE * b / K.
Proof.
  intros H. apply Z.div_le_mono; [apply K_pos|].
  assert (0 < INITIAL_PRICE) by reflexivity. nia.
Qed.

Lemma price_scale_strict a b :
  a < b -> INITIAL_PRICE * a / K < INITIAL_PRICE * b / K.
Proof.
  intros H.
  assert (HK : K <= INITIAL_PRICE) by (vm_compute; discriminate).
  assert (INITIAL_PRICE * a / K + 1 <= INITIAL_PRICE * b / K); [|lia].
  replace (INITIAL_PRICE * a / K + 1) with ((INITIAL_PRICE * a + 1 * K) / K)
    by (rewrite Z.div_add; [reflexivity | discriminate]).
  apply Z.div_le_mono; [apply K_pos|].
  pose proof K_pos. nia.
Qed.

(** [calculateCost] is non-decreasing in the amount, and evaluates on every
    smaller amount once it evaluates on a larger one. *)
Lemma calculateCost_mono_amount c d d' v :
  0 <= c -> 0 <= d' <= d -> calculateCost c d = Some v ->
  exists v', calculateCost c d' = Some v' /\ 0 <= v' <= v.
Proof.
  intros Hc Hd H. apply calculateCost_Some in H
    as (e1 & e0 & H1 & H2 & H3 & H4 & H5 & H6 & H7 & ->).
  destruct (exp_mono (exponent_of (c + d')) (exponent_of (c + d)) e1)
    as (e1' & He1' & _ & Hle1); [|assumption|].
  { split; [apply exponent_of_nonneg; lia | apply exponent_of_mono; lia]. }
  destruct (exp_mono (exponent_of c) (exponent_of (c + d')) e1')
    as (e0' & He0' & _ & Hle0); [|assumption|].
  { split; [apply exponent_of_nonneg; lia | apply exponent_of_mono; lia]. }
  assert (e0' = e0) by congruence. subst e0'.
  pose proof (exponent_of_mono c (c + d') ltac:(lia)).
  pose proof (exponent_of_mono (c + d') (c + d) ltac:(lia)).
  assert (0 < INITIAL_PRICE) by reflexivity. pose proof K_pos.
  exists (INITIAL_PRICE * (e1' - e0) / K). split.
  - apply calculateCost_Some. exists e1', e0.
    repeat split; try assumption; try lia; nia.
  - split; [apply Z.div_pos; nia | apply price_scale_mono; lia].
Qed.

(** It is strictly increasing across amounts that reach a larger exponent. *)
Lemma calculateCost_strict_amount c d d' v :
  0 <= c -> 0 <= d' <= d ->
  exponent_of (c + d') < exponent_of (c + d) ->
  calculateCost c d = Some v ->
  exists v', calculateCost c d' = Some v' /\ 0 <= v' < v.
Proof.
  intros Hc Hd Hlt H.
  destruct (calculateCost_mono_amount c d d' v Hc Hd H) as (v' & Hv' & Hv'0 & _).
  exists v'. split; [assumption|]. split; [assumption|].
  apply calculateCost_Some in H
    as (e1 & e0 & H1 & H2 & H3 & H4 & H5 & H6 & H7 & ->).
  apply calculateCost_Some in Hv'
    as (e1' & e0' & _ & _ & _ & H4' & H5' & H6' & _ & ->).
  assert (e0' = e0) by congruence. subst e0'.
  destruct (exp_mono (exponent_of (c + d')) (exponent_of (c + d)) e1)
    as (e1'' & He1'' & _ & Hle1); [|assumption|].
  { split; [apply exponent_of_nonneg; lia | lia]. }
  assert (e1'' = e1') by congruence. subst e1''.
  apply price_scale_strict. lia.
Qed.

(** The cost is positive exactly when the two exponents differ. *)
Lemma calculateCost_pos c d v :
  0 <= c -> 0 <= d -> exponent_of c < exponent_of (c + d) ->
  calculateCost c d = Some v ->
  INITIAL_PRICE * (exponent_of (c + d) - exponent_of c) / K <= v /\ 0 < v.
Proof.
  intros Hc Hd Hlt H. apply calculateCost_Some in H
    as (e1 & e0 & H1 & H2 & H3 & H4 & H5 & H6 & H7 & ->).
  destruct (exp_mono (exponent_of c) (exponent_of (c + d)) e1)
    as (e0' & He0' & _ & Hle); [|assumption|].
  { split; [apply exponent_of_nonneg; lia | lia]. }
  assert (e0' = e0) by congruence. subst e0'.
  assert (L : INITIAL_PRICE * (exponent_of (c + d) - exponent_of c) / K
              <= INITIAL_PRICE * (e1 - e0) / K)
    by (apply price_scale_mono; lia).
  split; [assumption|].
  pose proof (price_scale_strict 0 (exponent_of (c + d) - exponent_of c)
                ltac:(lia)) as P.
  rewrite Z.mul_0_r in P. change (0 / K) with 0 in P. lia.
Qed.

Lemma calculateCost_zero c d v :
  exponent_of (c + d) = exponent_of c ->
  calculateCost c d = Some v -> v = 0.
Proof.
  intros He H. apply calculateCost_Some in H
    as (e1 & e0 & H1 & H2 & H3 & H4 & H5 & H6 & H7 & ->).
  rewrite He in H4. assert (e1 = e0) by congruence. subst e1.
  rewrite Z.sub_diag, Z.mul_0_r. reflexivity.
Qed.

(** Every amount of at least [204046] raw units, so every whole token, moves
    the exponent. *)
Lemma exponent_of_step c d :
  204046 <= d -> exponent_of c < exponent_of (c + d).
Proof.
  intros Hd. unfold exponent_of.
  assert (K * c / DECIMALS + 1 <= K * (c + d) / DECIMALS); [|lia].
  replace (K * c / DECIMALS + 1) with ((K * c + 1 * DECIMALS) / DECIMALS)
    by (rewrite Z.div_add; [reflexivity | discriminate]).
  apply Z.div_le_mono; [apply DECIMALS_pos|].
  assert (DECIMALS <= K * 204046) by (vm_compute; discriminate).
  pose proof K_pos. nia.
Qed.


Lemma maxCurveRaw_val : maxCurveRaw = 800000 * DECIMALS.
Proof. reflexivity. Qed.

(** Within the curve cap [calculateCost] always evaluates. *)
Lemma calculateCost_total c d :
  0 <= c -> 0 <= d -> c + d <= maxCurveRaw ->
  exists v, calculateCost c d = Some v /\ 0 <= v < 10 ^ 40.
Proof.
  intros Hc Hd Hcap. rewrite maxCurveRaw_val in Hcap.
  assert (Hx1 : exponent_of (c + d) <= K * 800000).
  { rewrite <- exponent_of_whole. apply exponent_of_mono. lia. }
  destruct (exp_mono (exponent_of (c + d)) (K * 800000) _
              ltac:(split; [apply exponent_of_nonneg; lia | assumption]) exp_cap)
    as (e1 & He1 & Hge1 & Hle1).
  destruct (exp_mono (exponent_of c) (exponent_of (c + d)) e1)
    as (e0 & He0 & Hge0 & Hle0); [|assumption|].
  { split; [apply exponent_of_nonneg; lia | apply exponent_of_mono; lia]. }
  pose proof (exponent_of_mono c (c + d) ltac:(lia)).
  pose proof (exponent_of_nonneg (c + d) ltac:(lia)).
  assert (HD : DECIMALS = 1000000000000000000) by reflexivity.
  assert (HKv : K = 4900862993591) by reflexivity.
  assert (HP : INITIAL_PRICE = 11400755737022590) by reflexivity.
  assert (HM : 10 ^ 70 < U256.modulus) by reflexivity.
  assert (HM1 : 10 ^ 70 = 10000000000000000000000000000000000000000000000000000000000000000000000) by reflexivity.
  assert (HM2 : 10 ^ 40 = 10000000000000000000000000000000000000000) by reflexivity.
  assert (Hd1 : 0 <= e1 - e0 <= 50435252932401309679) by lia.
  exists (INITIAL_PRICE * (e1 - e0) / K). split.
  - apply calculateCost_Some. exists e1, e0.
    repeat split; try assumption; try lia; nia.
  - split; [apply Z.div_pos; nia|].
    apply Z.div_lt_upper_bound; nia.
Qed.

(** ** Reasoning about calls *)

Lemma payouts_app l1 l2 : payouts (l1 ++ l2) = payouts l1 ++ payouts l2.
Proof.
  induction l1 as [|e l1 IH]; [reflexivity|].
  destruct e; simpl; rewrite ?IH; reflexivity.
Qed.

Lemma bind_Ok {A B} (m : M A) (f : A -> M B) w r :
  (m ≫= f) w = Ok r -> exists a w', m w = Ok (a, w') /\ f a w' = Ok r.
Proof.
  unfold mbind, M_bind. destruct (m w) as [[a w']|e]; [eauto | discriminate].
Qed.

Lemma bind_Err {A B} (m : M A) (f : A -> M B) w e :
  (m ≫= f) w = Err e ->
  m w = Err e \/ exists a w', m w = Ok (a, w') /\ f a w' = Err e.
Proof.
  unfold mbind, M_bind. destruct (m w) as [[a w']|e']; [eauto|].
  intros [= <-]. left. reflexivity.
Qed.

Lemma bind_eval {A B} (m : M A) (f : A -> M B) w a w' :
  m w = Ok (a, w') -> (m ≫= f) w = f a w'.
Proof. unfold mbind, M_bind. intros ->. reflexivity. Qed.

Lemma bind_fail {A B} (m : M A) (f : A -> M B) w e :
  m w = Err e -> (m ≫= f) w = Err e.
Proof. unfold mbind, M_bind. intros ->. reflexivity. Qed.

Lemma ret_Ok {A} (a : A) w r : mret (M := M) a w = Ok r -> r = (a, w).
Proof. intros [= <-]. reflexivity. Qed.

Lemma gets_Ok {A} (f : World -> A) w r : gets f w = Ok r -> r = (f w, w).
Proof. intros [= <-]. reflexivity. Qed.

Lemma modify_Ok f w r : modify f w = Ok r -> r = (tt, f w).
Proof. intros [= <-]. reflexivity. Qed.

Lemma emit_Ok e w r : emit e w = Ok r -> r = (tt, set_log (log w ++ [e]) w).
Proof. intros [= <-]. reflexivity. Qed.

Lemma receive_Ok v w r :
  receive v w = Ok r -> r = (tt, set_balance (balance w + v) w).
Proof. intros [= <-]. reflexivity. Qed.

Lemma require_Ok b reason w r :
  require b reason w = Ok r -> b = true /\ r = (tt, w).
Proof. destruct b; [intros [= <-]; auto | discriminate]. Qed.

Lemma checked_Ok o w r :
  checked o w = Ok r -> exists z, o = Some z /\ r = (z, w).
Proof. destruct o; [intros [= <-]; eauto | discriminate]. Qed.

Lemma external_Ok {A} (o : option A) w r :
  external o w = Ok r -> exists a, o = Some a /\ r = (a, w).
Proof. destruct o; [intros [= <-]; eauto | discriminate]. Qed.

Lemma storage_Ok token w r :
  Token.storage token w = Ok r ->
  exists tk, tokens w !! token = Some tk /\ r = (tk, w).
Proof.
  unfold Token.storage. destruct (tokens w !! token); [|discriminate].
  intros [= <-]. eauto.
Qed.

Lemma send_Ok env to amount w r :
  send env to amount w = Ok r ->
  (r = (true, set_log (log w ++ [Sent to amount])
                (set_balance (balance w - amount) w))
   /\ amount <= balance w /\ env_accepts env to amount = true)
  \/ r = (false, w).
Proof.
  unfold send. destruct (Z.leb_spec amount (balance w)); simpl.
  - destruct (env_accepts env to amount); intros [= <-]; auto.
  - intros [= <-]; auto.
Qed.

Lemma fail_Ok {A} e w (r : A * World) : fail e w = Ok r -> False.
Proof. discriminate. Qed.

Lemma memeTokenOf_kept w w' a :
  addressToMemeToken w' = addressToMemeToken w ->
  memeTokenOf w' a = memeTokenOf w a.
Proof. unfold memeTokenOf. intros ->. reflexivity. Qed.

Lemma curveSupplyOf_kept w w' a :
  curveSupply w' = curveSupply w -> curveSupplyOf w' a = curveSupplyOf w a.
Proof. unfold curveSupplyOf. intros ->. reflexivity. Qed.

Lemma memeTokenOf_insert w w' a b mt :
  addressToMemeToken w' = <[a := mt]> (addressToMemeToken w) ->
  memeTokenOf w' b = if decide (a = b) then mt else memeTokenOf w b.
Proof.
  unfold memeTokenOf. intros ->. rewrite lookup_insert.
  destruct (decide (a = b)); reflexivity.
Qed.

Lemma curveSupplyOf_insert w w' a b v :
  curveSupply w' = <[a := v]> (curveSupply w) ->
  curveSupplyOf w' b = if decide (a = b) then v else curveSupplyOf w b.
Proof.
  unfold curveSupplyOf. intros ->. rewrite lookup_insert.
  destruct (decide (a = b)); reflexivity.
Qed.

Lemma memeTokenOf_set_memeTokenAddresses v w a :
  memeTokenOf (set_memeTokenAddresses v w) a = memeTokenOf w a.
Proof. reflexivity. Qed.
Lemma memeTokenOf_set_curveSupply v w a :
  memeTokenOf (set_curveSupply v w) a = memeTokenOf w a.
Proof. reflexivity. Qed.
Lemma memeTokenOf_set_listingFee v w a :
  memeTokenOf (set_listingFee v w) a = memeTokenOf w a.
Proof. reflexivity. Qed.
Lemma memeTokenOf_set_protocolFeeBalance v w a :
  memeTokenOf (set_protocolFeeBalance v w) a = memeTokenOf w a.
Proof. reflexivity. Qed.
Lemma memeTokenOf_set_status v w a :
  memeTokenOf (set_status v w) a = memeTokenOf w a.
Proof. reflexivity. Qed.
Lemma memeTokenOf_set_balance v w a :
  memeTokenOf (set_balance v w) a = memeTokenOf w a.
Proof. reflexivity. Qed.
Lemma memeTokenOf_set_tokens v w a :
  memeTokenOf (set_tokens v w) a = memeTokenOf w a.
Proof. reflexivity. Qed.
Lemma memeTokenOf_set_log v w a :
  memeTokenOf (set_log v w) a = memeTokenOf w a.
Proof. reflexivity. Qed.
Lemma memeTokenOf_set_same m mt w a :
  memeTokenOf (set_addressToMemeToken (<[a := mt]> m) w) a = mt.
Proof. unfold memeTokenOf. simpl. rewrite lookup_insert_eq. reflexivity. Qed.

Lemma curveSupplyOf_set_memeTokenAddresses v w a :
  curveSupplyOf (set_memeTokenAddresses v w) a = curveSupplyOf w a.
Proof. reflexivity. Qed.
Lemma curveSupplyOf_set_addressToMemeToken v w a :
  curveSupplyOf (set_addressToMemeToken v w) a = curveSupplyOf w a.
Proof. reflexivity. Qed.
Lemma curveSupplyOf_set_listingFee v w a :
  curveSupplyOf (set_listingFee v w) a = curveSupplyOf w a.
Proof. reflexivity. Qed.
Lemma curveSupplyOf_set_protocolFeeBalance v w a :
  curveSupplyOf (set_protocolFeeBalance v w) a = curveSupplyOf w a.
Proof. reflexivity. Qed.
Lemma curveSupplyOf_set_status v w a :
  curveSupplyOf (set_status v w) a = curveSupplyOf w a.
Proof. reflexivity. Qed.
Lemma curveSupplyOf_set_balance v w a :
  curveSupplyOf (set_balance v w) a = curveSupplyOf w a.
Proof. reflexivity. Qed.
Lemma curveSupplyOf_set_tokens v w a :
  curveSupplyOf (set_tokens v w) a = curveSupplyOf w a.
Proof. reflexivity. Qed.
Lemma curveSupplyOf_set_log v w a :
  curveSupplyOf (set_log v w) a = curveSupplyOf w a.
Proof. reflexivity. Qed.
Lemma curveSupplyOf_set_same m v w a :
  curveSupplyOf (set_curveSupply (<[a := v]> m) w) a = v.
Proof. unfold curveSupplyOf. simpl. rewrite lookup_insert_eq. reflexivity. Qed.

Create Rewrite HintDb world.

#[global] Hint Rewrite
  memeTokenOf_set_memeTokenAddresses memeTokenOf_set_curveSupply
  memeTokenOf_set_listingFee memeTokenOf_set_protocolFeeBalance
  memeTokenOf_set_status memeTokenOf_set_balance memeTokenOf_set_tokens
  memeTokenOf_set_log memeTokenOf_set_same
  curveSupplyOf_set_memeTokenAddresses curveSupplyOf_set_addressToMemeToken
  curveSupplyOf_set_listingFee curveSupplyOf_set_protocolFeeBalance
  curveSupplyOf_set_status curveSupplyOf_set_balance curveSupplyOf_set_tokens
  curveSupplyOf_set_log curveSupplyOf_set_same : world.

Ltac wsimpl_cbn_in H :=
  cbn [this owner uniswapFactory uniswapRouter memeTokenAddresses
       addressToMemeToken curveSupply listingFee protocolFeeBalance _status
       balance tokens log set_memeTokenAddresses set_addressToMemeToken
       set_curveSupply set_listingFee set_protocolFeeBalance set_status
       set_balance set_tokens set_log fst snd
       fundingRaised isLaunched tokenAddress creatorAddress name symbol
       description tokenImageUrl set_fundingRaised set_isLaunched] in H.

Ltac wsimpl_in H := autorewrite with world in H; wsimpl_cbn_in H.

Ltac wsimpl :=
  autorewrite with world;
  cbn [this owner uniswapFactory uniswapRouter memeTokenAddresses
       addressToMemeToken curveSupply listingFee protocolFeeBalance _status
       balance tokens log set_memeTokenAddresses set_addressToMemeToken
       set_curveSupply set_listingFee set_protocolFeeBalance set_status
       set_balance set_tokens set_log fst snd
       fundingRaised isLaunched tokenAddress creatorAddress name symbol
       description tokenImageUrl set_fundingRaised set_isLaunched].

Ltac eq_subst H :=
  let Ha := fresh "Ha" in
  let Hw := fresh "Hw" in
  first [ injection H as Ha Hw; wsimpl_in Ha; wsimpl_in Hw; subst
        | wsimpl_in H; subst
        | idtac ].

(** Takes the successful run [H] apart, one operation after the other. *)
Ltac minv_in H :=
  lazymatch type of H with
  | (_ ≫= _) _ = Ok _ =>
      let Hm := fresh "Hm" in
      apply bind_Ok in H; destruct H as (? & ? & Hm & H);
      minv_in Hm; minv_in H
  | mret _ _ = Ok _ => apply ret_Ok in H; eq_subst H
  | gets _ _ = Ok _ => apply gets_Ok in H; eq_subst H
  | modify _ _ = Ok _ => apply modify_Ok in H; eq_subst H
  | emit _ _ = Ok _ => apply emit_Ok in H; eq_subst H
  | receive _ _ = Ok _ => apply receive_Ok in H; eq_subst H
  | Token.store _ _ _ = Ok _ => apply modify_Ok in H; eq_subst H
  | update_memeToken _ _ _ = Ok _ => apply modify_Ok in H; eq_subst H
  | require _ _ _ = Ok _ =>
      let Hb := fresh "Hb" in
      apply require_Ok in H; destruct H as [Hb H]; wsimpl_in Hb; eq_subst H
  | checked _ _ = Ok _ =>
      let Hc := fresh "Hc" in
      apply checked_Ok in H; destruct H as (? & Hc & H); wsimpl_in Hc;
      eq_subst H
  | external _ _ = Ok _ =>
      let Hc := fresh "Hc" in
      apply external_Ok in H; destruct H as (? & Hc & H); wsimpl_in Hc;
      eq_subst H
  | Token.storage _ _ = Ok _ =>
      let Hc := fresh "Hc" in
      apply storage_Ok in H; destruct H as (? & Hc & H); wsimpl_in Hc;
      eq_subst H
  | send _ _ _ _ = Ok _ =>
      let Hc := fresh "Hc" in
      let Hd := fresh "Hd" in
      apply send_Ok in H; destruct H as [(H & Hc & Hd)|H];
      [wsimpl_in Hc; wsimpl_in Hd; eq_subst H | eq_subst H]
  | fail _ _ = Ok _ => exfalso; exact (fail_Ok _ _ _ H)
  | Token.mint _ _ _ _ _ = Ok _ => idtac
  | Token.burn _ _ _ _ _ = Ok _ => idtac
  | Token.approve _ _ _ _ _ = Ok _ => idtac
  | refundExcess _ _ _ _ _ = Ok _ => idtac
  | graduate _ _ _ _ = Ok _ => idtac
  | _launchOnUniswap _ _ _ _ = Ok _ => idtac
  | (if ?b then _ else _) _ = Ok _ =>
      let Hb := fresh "Hb" in
      destruct b eqn:Hb; wsimpl_in Hb; minv_in H
  | _ => idtac
  end.

Ltac minv H :=
  minv_in H;
  repeat match goal with
  | H : false = true |- _ => discriminate H
  | H : <[?a := _]> _ !! ?a = Some _ |- _ =>
      rewrite lookup_insert_eq in H; apply (inj Some) in H; try subst
  end.

#[global] Arguments calculateCost : simpl never.
#[global] Arguments calculateRefund : simpl never.
#[global] Arguments exp : simpl never.
#[global] Arguments U256.add : simpl never.
#[global] Arguments U256.sub : simpl never.
#[global] Arguments U256.mul : simpl never.
#[global] Arguments U256.div : simpl never.
#[global] Arguments maxCurveRaw : simpl never.
#[global] Arguments MEMECOIN_FUNDING_GOAL : simpl never.
#[global] Arguments DECIMALS : simpl never.
#[global] Arguments INIT_SUPPLY : simpl never.
#[global] Arguments MAX_SUPPLY : simpl never.
#[global] Arguments MEMETOKEN_CREATION_FEE : simpl never.
#[global] Arguments memeTokenOf : simpl never.
#[global] Arguments curveSupplyOf : simpl never.

Ltac uclean :=
  repeat match goal with
  | H : U256.add _ _ = Some _ |- _ => apply U256Facts.add_Some in H as [? ?]
  | H : U256.sub _ _ = Some _ |- _ => apply U256Facts.sub_Some in H as [? ?]
  | H : U256.mul _ _ = Some _ |- _ => apply U256Facts.mul_Some in H as [? ?]
  | H : U256.div _ _ = Some _ |- _ => apply U256Facts.div_Some in H as [? ?]
  end; subst.

Lemma world_eta w :
  w = mkWorld (this w) (owner w) (uniswapFactory w) (uniswapRouter w)
        (memeTokenAddresses w) (addressToMemeToken w) (curveSupply w)
        (listingFee w) (protocolFeeBalance w) (_status w) (balance w)
        (tokens w) (log w).
Proof. destruct w; reflexivity. Qed.

(** *** The token operations the factory calls *)

Lemma mint_Ok self token amount to w u w' :
  Token.mint self token amount to w = Ok (u, w') ->
  exists tk,
    tokens w !! token = Some tk /\
    w' = set_log (log w ++ [Transfer token 0 to amount; Minted token to amount])
           (set_tokens (<[token := minted tk to amount]> (tokens w)) w).
Proof.
  intros H. unfold Token.mint, Token.onlyFactory, Token._mint in H. minv H.
  uclean. eexists. split; [eassumption|].
  match goal with
  | H1 : tokens ?w0 !! ?k = Some ?t1, H2 : tokens ?w0 !! ?k = Some ?t2 |- _ =>
      assert (t1 = t2) by congruence; subst t1
  end.
  unfold minted. cbn. rewrite <- app_assoc. reflexivity.
Qed.

Lemma burn_Ok self token amount from w u w' :
  Token.burn self token amount from w = Ok (u, w') ->
  exists tk,
    tokens w !! token = Some tk /\ amount <= Token.balance_in tk from /\
    w' = set_log (log w ++ [Transfer token from 0 amount; Burned token from amount])
           (set_tokens (<[token := burned tk from amount]> (tokens w)) w).
Proof.
  intros H. unfold Token.burn, Token.onlyFactory, Token._burn in H. minv H.
  match goal with
  | H1 : tokens ?w0 !! ?k = Some ?t1, H2 : tokens ?w0 !! ?k = Some ?t2 |- _ =>
      assert (t1 = t2) by congruence; subst t1
  end.
  cbn [tk_totalSupply Token.set_balance_of] in *.
  uclean. eexists. split; [eassumption|]. split; [lia|].
  unfold burned. cbn. rewrite <- app_assoc. reflexivity.
Qed.

Lemma refundExcess_Ok env sender value total w u w' :
  refundExcess env sender value total w = Ok (u, w') ->
  total <= value ->
  w' = set_log (log w ++ (if total <? value then [Sent sender (value - total)] else []))
         (set_balance (balance w - (if total <? value then value - total else 0)) w).
Proof.
  intros H Hle. unfold refundExcess in H.
  destruct (total <? value) eqn:E.
  - minv H. uclean. reflexivity.
  - minv H. rewrite (world_eta w) at 1. cbn.
    rewrite app_nil_r, Z.sub_0_r. reflexivity.
Qed.

Ltac unfold_calls H :=
  unfold createMemeToken, buyMemeToken, sellMemeToken, graduate,
    _launchOnUniswap, withdrawProtocolFees, withdrawFees, setListingFee,
    nonReentrant, onlyOwner, Token.constructor, Token.setFactory, Token.mint,
    Token.burn, Token.onlyFactory, Token._mint, Token._burn, Token.balanceOf,
    Token.approve, Token._approve, Token.transfer, Token._transfer,
    Token.transferFrom in H.

(** *** Creation *)

Lemma createMemeToken_Ok env sender timestamp value n s i d w a w' :
  createMemeToken env sender timestamp value n s i d w = Ok (a, w') ->
  MEMETOKEN_CREATION_FEE <= value /\
  protocolFeeBalance w' = protocolFeeBalance w + value /\
  balance w' = balance w + value /\
  payouts (log w') = payouts (log w).
Proof.
  intros H. unfold_calls H. minv H. wsimpl.
  match goal with H : U256.add _ _ = Some (protocolFeeBalance _) |- _ => idtac
  | _ => idtac end.
  repeat match goal with
  | H : U256.add _ _ = Some _ |- _ => apply U256Facts.add_Some in H as [? ?]
  end.
  repeat split.
  - lia.
  - lia.
  - rewrite !payouts_app. simpl. rewrite !app_nil_r. reflexivity.
Qed.

(** *** Graduation *)

Ltac same_token :=
  repeat match goal with
  | H1 : tokens ?w0 !! ?k = Some ?t1, H2 : tokens ?w0 !! ?k = Some ?t2 |- _ =>
      assert (t1 = t2) by congruence; subst t1; clear H1
  end.

Lemma launch_Ok env token eth w u w' :
  _launchOnUniswap env token eth w = Ok (u, w') ->
  exists tk r,
    tokens w !! token = Some tk /\ 0 < eth <= balance w /\
    env_addLiquidityETH env token eth
      (Token.set_allowance (this w) (uniswapRouter w) INIT_SUPPLY tk) = Some r /\
    w' = set_tokens (<[token := fst r]> (tokens w))
           (set_log (log w ++ [Approval token (this w) (uniswapRouter w) INIT_SUPPLY;
                               Sent (uniswapRouter w) eth])
              (set_balance (balance w - eth) w)).
Proof.
  intros H. unfold _launchOnUniswap, Token.balanceOf, Token.approve,
    Token._approve in H.
  minv H; same_token.
  all: eexists _, _; split; [eassumption|]; split; [lia|]; split; [eassumption|].
  all: cbn; rewrite ?insert_insert_eq, <- ?app_assoc; reflexivity.
Qed.

Lemma graduate_Ok env timestamp a w u w' :
  graduate env timestamp a w = Ok (u, w') ->
  let mt := memeTokenOf w a in
  let lp0 := fundingRaised mt in
  if negb (isLaunched mt)
     && ((MEMECOIN_FUNDING_GOAL <=? lp0) || (maxCurveRaw <=? curveSupplyOf w a))
  then
    exists tk r,
      tokens w !! a = Some tk /\
      listingFeeTaken (listingFee w) lp0 <= lp0 /\
      env_addLiquidityETH env a (lp0 - listingFeeTaken (listingFee w) lp0)
        (Token.set_allowance (this w) (uniswapRouter w) INIT_SUPPLY tk) = Some r /\
      w' = set_log (log w ++ [Approval a (this w) (uniswapRouter w) INIT_SUPPLY;
                              Sent (uniswapRouter w) (lp0 - listingFeeTaken (listingFee w) lp0);
                              TokenLaunched a (lp0 - listingFeeTaken (listingFee w) lp0)
                                (listingFeeTaken (listingFee w) lp0) timestamp])
             (set_tokens (<[a := fst r]> (tokens w))
                (set_balance (balance w - (lp0 - listingFeeTaken (listingFee w) lp0))
                   (set_addressToMemeToken
                      (<[a := set_fundingRaised 0 (set_isLaunched true mt)]>
                         (addressToMemeToken w))
                      (set_protocolFeeBalance
                         (protocolFeeBalance w + listingFeeTaken (listingFee w) lp0) w))))
  else w' = w.
Proof.
  intros H mt lp0. unfold graduate in H.
  apply bind_Ok in H as (? & ? & Hm & H). minv Hm.
  apply bind_Ok in H as (? & ? & Hm & H). minv Hm.
  fold mt in H. fold lp0 in H.
  destruct (negb (isLaunched mt) && _) eqn:G.
  - unfold update_memeToken in H. minv H.
    all: match goal with
         | L : _launchOnUniswap _ _ _ _ = Ok _ |- _ =>
             apply launch_Ok in L as (tk & r & Htk & Heth & Hr & L);
             wsimpl_in Htk; wsimpl_in Heth; wsimpl_in Hr; subst
         end.
    all: fold mt in Hb; fold lp0 in Hb.
    all: unfold listingFeeTaken; fold mt; fold lp0; rewrite Hb.
    all: uclean; rewrite ?Z.sub_0_r, ?Z.add_0_r in *.
    all: exists tk, r; split; [assumption|]; split; [lia|]; split; [assumption|].
    all: fold mt; cbn; rewrite ?insert_insert_eq, <- ?app_assoc; reflexivity.
  - minv H. reflexivity.
Qed.

(** *** Buying *)

Lemma buyMemeToken_Ok env sender timestamp value a qty w ret w' :
  buyMemeToken env sender timestamp value a qty w = Ok (ret, w') ->
  exists cost tk, buy_facts env sender timestamp value a qty w ret w' cost tk.
Proof.
  intros H. unfold buyMemeToken, nonReentrant in H. minv H.
  match goal with
  | L : Token.mint _ _ _ _ _ = Ok _ |- _ =>
      apply mint_Ok in L as (tk & Htk & L); wsimpl_in Htk; subst
  end.
  match goal with
  | L : refundExcess _ _ _ _ _ = Ok _ |- _ =>
      apply refundExcess_Ok in L; [|lia]; wsimpl_in L; subst
  end.
  match goal with
  | L : graduate _ _ _ _ = Ok _ |- _ =>
      apply graduate_Ok in L; rename L into HG
  end.
  cbv zeta in HG. wsimpl_in HG. rewrite Hb1 in HG. cbn [andb] in HG.
  uclean. apply negb_true_iff in Hb1.
  match goal with
  | C : calculateCost _ _ = Some ?c |- _ => exists c, tk
  end.
  destruct (_ || _) eqn:G in HG.
  - destruct HG as (tk0 & r & Htk0 & Hfee & Hr & ->).
    rewrite lookup_insert_eq in Htk0. apply (inj Some) in Htk0. subst tk0.
    constructor; unfold buyRawOf, feeOf, graduates; cbv zeta; rewrite ?G;
      wsimpl; try assumption; try reflexivity; try lia.
    + rewrite insert_insert_eq. reflexivity.
    + rewrite <- !app_assoc. reflexivity.
    + destruct (_ <? value) eqn:E; lia.
    + repeat split.
    + exists r. split; [assumption|]. rewrite !insert_insert_eq. reflexivity.
  - subst.
    constructor; unfold buyRawOf, feeOf, graduates; cbv zeta; rewrite ?G;
      wsimpl; try assumption; try reflexivity; try lia.
    + rewrite <- !app_assoc. rewrite app_nil_r. reflexivity.
    + destruct (_ <? value) eqn:E; lia.
    + repeat split.
Qed.

(** *** Selling *)

Lemma sellMemeToken_Ok env sender timestamp a qty w ret w' :
  sellMemeToken env sender timestamp a qty w = Ok (ret, w') ->
  exists refund tk, sell_facts env sender timestamp a qty w ret w' refund tk.
Proof.
  intros H. unfold sellMemeToken, nonReentrant, Token.balanceOf in H. minv H.
  match goal with
  | L : Token.burn _ _ _ _ _ = Ok _ |- _ =>
      apply burn_Ok in L as (tk & Htk & Hheld & L); wsimpl_in Htk; subst
  end.
  same_token. uclean. apply negb_true_iff in Hb1.
  match goal with
  | C : calculateRefund _ _ = Some ?c |- _ => exists c, tk
  end.
  assert (0 <= FEE_BPS /\ BPS_DENOMINATOR = 10000 /\ FEE_BPS = 100)
    by (repeat split; discriminate).
  constructor; unfold feeOf; wsimpl; try assumption; try reflexivity; try lia.
  - rewrite <- !app_assoc. reflexivity.
  - repeat split.
Qed.

(** *** The invariant holds in every reachable world *)

Lemma calculateCost_nonneg c d v : calculateCost c d = Some v -> 0 <= v.
Proof.
  intros H. apply calculateCost_Some in H
    as (e1 & e0 & _ & _ & _ & _ & _ & Hle & _ & ->).
  apply Z.div_pos; [|apply K_pos].
  assert (0 < INITIAL_PRICE) by reflexivity. nia.
Qed.

Lemma is_Some_insert_keep {V} (m : gmap Z V) k v a :
  is_Some (m !! a) -> is_Some (<[k := v]> m !! a).
Proof.
  intros H. rewrite lookup_insert. destruct (decide (k = a)); [eauto | assumption].
Qed.

Lemma ledger_kept_refl w : ledger_kept w w.
Proof. repeat split; auto. Qed.

Lemma wf_ledger_kept w w' : wf w -> ledger_kept w w' -> wf w'.
Proof.
  intros [Hs Hw] (Ha & Hc & Hst & Ht). split.
  - destruct Hst; congruence.
  - intros a. rewrite (memeTokenOf_kept w w' a Ha), (curveSupplyOf_kept w w' a Hc).
    destruct (Hw a) as (H1 & H2 & H3).
    split; [lia|]. split; [lia|]. intros L. split.
    + apply H3. assumption.
    + apply Ht. apply H3. assumption.
Qed.

Ltac kept_finish :=
  repeat split; wsimpl; auto using is_Some_insert_keep.

Lemma setListingFee_kept sender fee w u w' :
  setListingFee sender fee w = Ok (u, w') -> ledger_kept w w'.
Proof. intros H. unfold_calls H. minv H. kept_finish. Qed.

Lemma withdrawProtocolFees_kept env sender to w u w' :
  withdrawProtocolFees env sender to w = Ok (u, w') -> ledger_kept w w'.
Proof. intros H. unfold_calls H. minv H. kept_finish. Qed.

Lemma withdrawFees_kept env sender to w u w' :
  withdrawFees env sender to w = Ok (u, w') -> ledger_kept w w'.
Proof. intros H. unfold_calls H. minv H. kept_finish. Qed.

Lemma transfer_kept sender token to amount w u w' :
  Token.transfer sender token to amount w = Ok (u, w') -> ledger_kept w w'.
Proof. intros H. unfold_calls H. minv H. kept_finish. Qed.

Lemma approve_kept sender token spender amount w u w' :
  Token.approve sender token spender amount w = Ok (u, w') -> ledger_kept w w'.
Proof. intros H. unfold_calls H. minv H. kept_finish. Qed.

Lemma transferFrom_kept sender token from to amount w u w' :
  Token.transferFrom sender token from to amount w = Ok (u, w') ->
  ledger_kept w w'.
Proof.
  intros H. unfold Token.transferFrom in H.
  unfold Token._approve, Token._transfer in H. minv H. kept_finish.
Qed.

Lemma setFactory_kept token f w u w' :
  Token.setFactory token f w = Ok (u, w') -> ledger_kept w w'.
Proof. intros H. unfold_calls H. minv H. kept_finish. Qed.

Lemma createMemeToken_wf env sender timestamp value n s i d w t w' :
  createMemeToken env sender timestamp value n s i d w = Ok (t, w') ->
  wf w -> wf w' /\ forall a, isLaunched (memeTokenOf w a) = true ->
                              isLaunched (memeTokenOf w' a) = true.
Proof.
  intros H [Hs Hw]. unfold_calls H. minv H.
  match goal with
  | B : bool_decide _ = false |- _ => apply bool_decide_eq_false in B; rename B into Hfresh
  end.
  assert (Hother : forall a, isLaunched (memeTokenOf w a) = true ->
                             a <> env_create env).
  { intros a Ha ->. apply Hw in Ha as [_ Ha]. contradiction. }
  split; [split|].
  - reflexivity.
  - intros a. wsimpl. unfold memeTokenOf. wsimpl.
    rewrite lookup_insert. destruct (decide (env_create env = a)) as [<-|Hne].
    + cbn [default from_option id fundingRaised isLaunched].
      destruct (Hw (env_create env)) as (_ & ? & _).
      split; [lia|]. split; [lia|]. intros [=].
    + destruct (Hw a) as (H1 & H2 & H3). fold (memeTokenOf w a).
      split; [lia|]. split; [lia|]. intros L. split.
      * apply H3. assumption.
      * repeat apply is_Some_insert_keep. apply H3. assumption.
  - intros a Ha. unfold memeTokenOf. wsimpl.
    rewrite lookup_insert_ne; [exact Ha|]. intros E. symmetry in E.
    exact (Hother a Ha E).
Qed.

Lemma buyRawOf_le w a qty : buyRawOf w a qty <= maxCurveRaw - curveSupplyOf w a.
Proof.
  unfold buyRawOf.
  destruct (Z.ltb_spec (maxCurveRaw - curveSupplyOf w a) (qty * DECIMALS)); lia.
Qed.

Lemma buy_tokens_kept env sender timestamp value a qty w ret w' cost tk :
  buy_facts env sender timestamp value a qty w ret w' cost tk ->
  forall b, is_Some (tokens w !! b) -> is_Some (tokens w' !! b).
Proof.
  intros F b Hb. pose proof (bf_tokens _ _ _ _ _ _ _ _ _ _ _ F) as T.
  cbv zeta in T. destruct (graduates _ _ _ _).
  - destruct T as (r & _ & ->). apply is_Some_insert_keep. assumption.
  - rewrite T. apply is_Some_insert_keep. assumption.
Qed.

Lemma buyMemeToken_wf env sender timestamp value a qty w ret w' :
  buyMemeToken env sender timestamp value a qty w = Ok (ret, w') ->
  wf w ->
  wf w' /\ forall b, isLaunched (memeTokenOf w b) = true ->
                     isLaunched (memeTokenOf w' b) = true.
Proof.
  intros H [Hs Hw]. apply buyMemeToken_Ok in H as (cost & tk & F).
  pose proof (buy_tokens_kept _ _ _ _ _ _ _ _ _ _ _ F) as HT.
  pose proof (calculateCost_nonneg _ _ _ (bf_cost _ _ _ _ _ _ _ _ _ _ _ F)) as Hc.
  pose proof (buyRawOf_le w a qty) as Hle.
  pose proof (bf_pos _ _ _ _ _ _ _ _ _ _ _ F) as Hpos.
  split; [split|].
  - exact (bf_status' _ _ _ _ _ _ _ _ _ _ _ F).
  - intros b.
    rewrite (memeTokenOf_insert _ _ _ b _ (bf_asset _ _ _ _ _ _ _ _ _ _ _ F)).
    rewrite (curveSupplyOf_insert _ _ _ b _ (bf_supply _ _ _ _ _ _ _ _ _ _ _ F)).
    destruct (Hw b) as (H1 & H2 & H3).
    destruct (decide (a = b)) as [E|Hne];
      [subst b; rewrite !decide_True by reflexivity
      |rewrite !decide_False by assumption].
    + split; [|split; [lia|]].
      * destruct (graduates _ _ _ _);
          cbn [fundingRaised set_fundingRaised set_isLaunched]; lia.
      * intros _. split.
        -- pose proof (bf_known _ _ _ _ _ _ _ _ _ _ _ F) as Hk.
           destruct (graduates _ _ _ _); exact Hk.
        -- apply HT. rewrite (bf_token _ _ _ _ _ _ _ _ _ _ _ F). eauto.
    + split; [lia|]. split; [lia|]. intros L. split; [apply H3; assumption|].
      apply HT. apply H3. assumption.
  - intros b Hb.
    rewrite (memeTokenOf_insert _ _ _ b _ (bf_asset _ _ _ _ _ _ _ _ _ _ _ F)).
    destruct (decide (a = b)) as [E|Hne];
      [subst b; rewrite !decide_True by reflexivity
      |rewrite !decide_False by assumption; assumption].
    rewrite (bf_open _ _ _ _ _ _ _ _ _ _ _ F) in Hb. discriminate.
Qed.

Lemma sellMemeToken_wf env sender timestamp a qty w ret w' :
  sellMemeToken env sender timestamp a qty w = Ok (ret, w') ->
  0 <= qty -> wf w ->
  wf w' /\ forall b, isLaunched (memeTokenOf w b) = true ->
                     isLaunched (memeTokenOf w' b) = true.
Proof.
  intros H Hq [Hs Hw]. pose proof DECIMALS_pos. apply sellMemeToken_Ok in H as (refund & tk & F).
  pose proof (sf_cover _ _ _ _ _ _ _ _ _ _ F) as Hc.
  pose proof (sf_sold _ _ _ _ _ _ _ _ _ _ F) as Hsold.
  split; [split|].
  - exact (sf_status' _ _ _ _ _ _ _ _ _ _ F).
  - intros b.
    rewrite (memeTokenOf_insert _ _ _ b _ (sf_asset _ _ _ _ _ _ _ _ _ _ F)).
    rewrite (curveSupplyOf_insert _ _ _ b _ (sf_supply _ _ _ _ _ _ _ _ _ _ F)).
    rewrite (sf_tokens _ _ _ _ _ _ _ _ _ _ F).
    destruct (Hw b) as (H1 & H2 & H3).
    destruct (decide (a = b)) as [E|Hne];
      [subst b; rewrite !decide_True by reflexivity
      |rewrite !decide_False by assumption].
    + cbn [fundingRaised set_fundingRaised isLaunched].
      split; [lia|]. split; [lia|]. intros L.
      rewrite (sf_open _ _ _ _ _ _ _ _ _ _ F) in L. discriminate.
    + split; [lia|]. split; [lia|]. intros L. split; [apply H3; assumption|].
      apply is_Some_insert_keep. apply H3. assumption.
  - intros b Hb.
    rewrite (memeTokenOf_insert _ _ _ b _ (sf_asset _ _ _ _ _ _ _ _ _ _ F)).
    destruct (decide (a = b)) as [E|Hne];
      [subst b; rewrite !decide_True by reflexivity
      |rewrite !decide_False by assumption; assumption].
    rewrite (sf_open _ _ _ _ _ _ _ _ _ _ F) in Hb. discriminate.
Qed.

Lemma latch_ledger_kept w w' :
  ledger_kept w w' ->
  forall b, isLaunched (memeTokenOf w b) = true ->
            isLaunched (memeTokenOf w' b) = true.
Proof.
  intros (Ha & _) b Hb. rewrite (memeTokenOf_kept w w' b Ha). assumption.
Qed.

(** Every call keeps the invariant and never clears a launch flag. *)
Lemma run_wf env sender timestamp c w r w' :
  run env sender timestamp c w = Ok (r, w') ->
  call_wf c -> wf w ->
  wf w' /\ forall b, isLaunched (memeTokenOf w b) = true ->
                     isLaunched (memeTokenOf w' b) = true.
Proof.
  intros H Hc Hw. destruct c; cbn [run call_wf] in *.
  - eapply createMemeToken_wf; eassumption.
  - eapply buyMemeToken_wf; eassumption.
  - eapply sellMemeToken_wf; [eassumption | apply Hc | assumption].
  - apply bind_Ok in H as (? & ? & H & H'). apply ret_Ok in H'.
    injection H' as _ <-. apply setListingFee_kept in H.
    split; [eapply wf_ledger_kept | apply latch_ledger_kept]; eassumption.
  - apply bind_Ok in H as (? & ? & H & H'). apply ret_Ok in H'.
    injection H' as _ <-. apply withdrawProtocolFees_kept in H.
    split; [eapply wf_ledger_kept | apply latch_ledger_kept]; eassumption.
  - apply bind_Ok in H as (? & ? & H & H'). apply ret_Ok in H'.
    injection H' as _ <-. apply withdrawFees_kept in H.
    split; [eapply wf_ledger_kept | apply latch_ledger_kept]; eassumption.
  - apply bind_Ok in H as (? & ? & H & H'). apply ret_Ok in H'.
    injection H' as _ <-. apply transfer_kept in H.
    split; [eapply wf_ledger_kept | apply latch_ledger_kept]; eassumption.
  - apply bind_Ok in H as (? & ? & H & H'). apply ret_Ok in H'.
    injection H' as _ <-. apply approve_kept in H.
    split; [eapply wf_ledger_kept | apply latch_ledger_kept]; eassumption.
  - apply bind_Ok in H as (? & ? & H & H'). apply ret_Ok in H'.
    injection H' as _ <-. apply transferFrom_kept in H.
    split; [eapply wf_ledger_kept | apply latch_ledger_kept]; eassumption.
  - apply bind_Ok in H as (? & ? & H & H'). apply ret_Ok in H'.
    injection H' as _ <-. apply setFactory_kept in H.
    split; [eapply wf_ledger_kept | apply latch_ledger_kept]; eassumption.
Qed.

Lemma exec_wf env sender timestamp c w :
  call_wf c -> wf w ->
  wf (exec env sender timestamp c w) /\
  forall b, isLaunched (memeTokenOf w b) = true ->
            isLaunched (memeTokenOf (exec env sender timestamp c w) b) = true.
Proof.
  intros Hc Hw. unfold exec, transact.
  destruct (run env sender timestamp c w) as [[r w']|e] eqn:R; cbn [fst].
  - eapply run_wf; eassumption.
  - split; [assumption | auto].
Qed.

Lemma step_wf w w' : step w w' -> wf w -> wf w'.
Proof. intros [env sender ts c _ Hc] Hw. apply exec_wf; assumption. Qed.

Lemma constructor_wf sender f r fee self w :
  constructor sender f r fee self = Ok w -> wf w.
Proof.
  unfold constructor. destruct (f =? 0); [discriminate|].
  destruct (r =? 0); [discriminate|]. intros [= <-]. split; [reflexivity|].
  intros a. unfold memeTokenOf, curveSupplyOf. cbn [addressToMemeToken curveSupply].
  rewrite !lookup_empty. cbn [default from_option id noMemeToken fundingRaised isLaunched].
  split; [lia|]. split; [|intros [=]].
  split; [lia | vm_compute; discriminate].
Qed.

Lemma reachable_wf w : reachable w -> wf w.
Proof.
  induction 1 as [sender f r fee self w _ Hw | w w' _ IH Hs].
  - eapply constructor_wf; eassumption.
  - eapply step_wf; eassumption.
Qed.

Lemma steps_wf w w' : rtc step w w' -> wf w -> wf w'.
Proof. induction 1; [auto | eauto using step_wf]. Qed.

Lemma steps_latch w w' a :
  rtc step w w' -> wf w -> isLaunched (memeTokenOf w a) = true ->
  isLaunched (memeTokenOf w' a) = true.
Proof.
  induction 1 as [|w w1 w2 Hs _ IH]; [auto|]. intros Hw Ha.
  destruct Hs as [env sender ts c _ Hc].
  destruct (exec_wf env sender ts c w Hc Hw) as [Hw1 Hl]. auto.
Qed.

Lemma reachable_steps w w' : reachable w -> rtc step w w' -> reachable w'.
Proof.
  intros Hr Hs. induction Hs; [assumption|].
  eauto using reachable_step.
Qed.

(** *** Calls that fail *)

Ltac mcompute :=
  cbv beta iota delta [mbind M_bind gets modify receive require mret M_ret
                       fail checked];
  wsimpl.

Lemma nonReentrant_eval {A} (body : M A) w :
  _status w <> _ENTERED ->
  nonReentrant body w =
    match body (set_status _ENTERED w) with
    | Ok (a, w') => Ok (a, set_status _NOT_ENTERED w')
    | Err e => Err e
    end.
Proof.
  intros Hs. unfold nonReentrant. mcompute.
  destruct (Z.eqb_spec (_status w) _ENTERED); [contradiction|].
  cbn [negb]. destruct (body _) as [[a w']|e]; reflexivity.
Qed.

Lemma nonReentrant_entered {A} (body : M A) w :
  _status w = _ENTERED -> nonReentrant body w = Err ReentrantCall.
Proof.
  intros Hs. unfold nonReentrant. mcompute. rewrite Hs. reflexivity.
Qed.

Lemma buy_launched env sender timestamp value a qty w :
  _status w <> _ENTERED -> known (memeTokenOf w a) a = true ->
  isLaunched (memeTokenOf w a) = true ->
  buyMemeToken env sender timestamp value a qty w = Err AlreadyLaunched.
Proof.
  intros Hs Hk Hl. unfold buyMemeToken.
  rewrite (bind_eval _ _ _ tt (set_balance (balance w + value) w)) by reflexivity.
  rewrite nonReentrant_eval by exact Hs.
  mcompute. rewrite Hk, Hl. reflexivity.
Qed.

Lemma sell_launched env sender timestamp a qty w :
  _status w <> _ENTERED -> known (memeTokenOf w a) a = true ->
  isLaunched (memeTokenOf w a) = true ->
  sellMemeToken env sender timestamp a qty w = Err AlreadyLaunched.
Proof.
  intros Hs Hk Hl. unfold sellMemeToken.
  rewrite nonReentrant_eval by exact Hs.
  mcompute. rewrite Hk, Hl. reflexivity.
Qed.

Ltac mcompute' :=
  cbv beta iota delta [mbind M_bind gets modify receive require mret M_ret
                       fail checked Token.balanceOf Token.storage];
  wsimpl.

Lemma sell_uncovered env sender timestamp a qty w refund tk :
  _status w <> _ENTERED -> known (memeTokenOf w a) a = true ->
  isLaunched (memeTokenOf w a) = false ->
  qty * DECIMALS < U256.modulus ->
  tokens w !! a = Some tk -> qty * DECIMALS <= Token.balance_in tk sender ->
  calculateRefund (curveSupplyOf w a) (qty * DECIMALS) = Some refund ->
  fundingRaised (memeTokenOf w a) < refund ->
  sellMemeToken env sender timestamp a qty w = Err InsufficientReserve.
Proof.
  intros Hs Hk Hl Hq Htk Hheld Hr Hlt. unfold sellMemeToken.
  rewrite nonReentrant_eval by exact Hs.
  mcompute'. rewrite Hk, Hl. cbn [negb].
  rewrite (proj2 (U256Facts.mul_Some qty DECIMALS _) (conj Hq eq_refl)).
  mcompute'. rewrite Htk.
  rewrite (proj2 (Z.leb_le _ _) Hheld).
  assert (Hsold : qty * DECIMALS <= curveSupplyOf w a).
  { unfold calculateRefund in Hr. bind_inv Hr.
    apply U256Facts.sub_Some in Ha1 as [? _]. assumption. }
  rewrite (proj2 (Z.leb_le _ _) Hsold). rewrite Hr.
  mcompute'. rewrite (proj2 (Z.leb_gt _ _) Hlt). reflexivity.
Qed.

Lemma sell_over_reserve_fails env sender timestamp a qty w refund :
  calculateRefund (curveSupplyOf w a) (qty * DECIMALS) = Some refund ->
  fundingRaised (memeTokenOf w a) < refund ->
  exists e, sellMemeToken env sender timestamp a qty w = Err e.
Proof.
  intros Hr Hlt.
  destruct (sellMemeToken env sender timestamp a qty w) as [[ret w']|e] eqn:E;
    [|eauto].
  apply sellMemeToken_Ok in E as (refund' & tk & F).
  pose proof (sf_refund _ _ _ _ _ _ _ _ _ _ F).
  pose proof (sf_cover _ _ _ _ _ _ _ _ _ _ F).
  assert (refund' = refund) by congruence. lia.
Qed.

Lemma buy_zero_fails env sender timestamp value a w :
  exists e, buyMemeToken env sender timestamp value a 0 w = Err e.
Proof.
  destruct (buyMemeToken env sender timestamp value a 0 w) as [[ret w']|e] eqn:E;
    [|eauto].
  apply buyMemeToken_Ok in E as (cost & tk & F).
  pose proof (bf_pos _ _ _ _ _ _ _ _ _ _ _ F) as Hp.
  pose proof (bf_room _ _ _ _ _ _ _ _ _ _ _ F) as Hroom.
  unfold buyRawOf in Hp. rewrite Z.mul_0_l in Hp.
  destruct (Z.ltb_spec (maxCurveRaw - curveSupplyOf w a) 0); lia.
Qed.

Lemma buy_zero_reason env sender timestamp value a w :
  _status w <> _ENTERED -> known (memeTokenOf w a) a = true ->
  isLaunched (memeTokenOf w a) = false ->
  curveSupplyOf w a <= maxCurveRaw ->
  buyMemeToken env sender timestamp value a 0 w =
    Err (if curveSupplyOf w a =? maxCurveRaw then CurveComplete else NothingToBuy).
Proof.
  intros Hs Hk Hl Hcap. unfold buyMemeToken.
  rewrite (bind_eval _ _ _ tt (set_balance (balance w + value) w)) by reflexivity.
  rewrite nonReentrant_eval by exact Hs.
  mcompute'. rewrite Hk, Hl. cbn [negb]. mcompute'.
  rewrite (proj2 (U256Facts.sub_Some maxCurveRaw (curveSupplyOf w a) _)
             (conj Hcap eq_refl)).
  mcompute'.
  destruct (Z.eqb_spec (curveSupplyOf w a) maxCurveRaw) as [E|E].
  - rewrite E, Z.sub_diag. reflexivity.
  - rewrite (proj2 (Z.ltb_lt 0 (maxCurveRaw - curveSupplyOf w a))) by lia.
    change (U256.mul 0 DECIMALS) with (Some 0). mcompute'.
    rewrite (proj2 (Z.ltb_ge (maxCurveRaw - curveSupplyOf w a) 0)) by lia.
    reflexivity.
Qed.

(** *** [exp] and the series *)

Lemma q18_term_nonneg x i : 0 <= x -> 0 <= q18_term x i.
Proof.
  intros Hx. induction i as [|i IH]; [discriminate|].
  cbn [q18_term]. apply Z.div_pos; [nia|].
  assert (0 < 10 ^ 18) by reflexivity. lia.
Qed.

Lemma q18_term_1 x : q18_term x 1 = x.
Proof.
  cbn [q18_term]. change (Z.of_nat 1) with 1. rewrite Z.mul_1_l, Z.mul_comm.
  apply Z.div_mul. discriminate.
Qed.

Lemma mul_fits a b :
  U256.mul a b = if a * b <? U256.modulus then Some (a * b) else None.
Proof. reflexivity. Qed.

Lemma add_fits a b :
  U256.add a b = if a + b <? U256.modulus then Some (a + b) else None.
Proof. reflexivity. Qed.

(** The loop of [exp], started at iteration [k+1] on term [k], computes the
    sum of the specification or overflows where the specification says. *)
Lemma exp_loop_spec x n : forall k sum,
  0 <= x -> (S k + n <= 21)%nat ->
  exp_loop n x (Z.of_nat (S k)) (q18_term x k) sum =
    if q18_fits x n (S k) sum then Some (q18_sum x n (S k) sum) else None.
Proof.
  induction n as [|n IH]; intros k sum Hx Hk; [reflexivity|].
  rewrite exp_loop_S. cbn [q18_fits q18_sum Nat.pred].
  pose proof (q18_term_nonneg x (S k) Hx) as Ht.
  rewrite (mul_fits (q18_term x k) x).
  destruct (Z.ltb_spec (q18_term x k * x) U256.modulus) as [H1|H1];
    [|reflexivity].
  cbn [mbind option_bind andb].
  assert (H2 : Z.of_nat (S k) * DECIMALS < U256.modulus).
  { assert (Z.of_nat (S k) <= 21) by lia.
    assert (21 * DECIMALS < U256.modulus) by reflexivity.
    pose proof DECIMALS_pos. nia. }
  rewrite (proj2 (U256Facts.mul_Some _ _ _) (conj H2 eq_refl)).
  cbn [mbind option_bind].
  assert (H3 : Z.of_nat (S k) * DECIMALS <> 0)
    by (pose proof DECIMALS_pos; nia).
  rewrite (proj2 (U256Facts.div_Some _ _ _) (conj H3 eq_refl)).
  cbn [mbind option_bind].
  change (q18_term x k * x / (Z.of_nat (S k) * DECIMALS))
    with (q18_term x (S k)).
  rewrite add_fits.
  destruct (Z.ltb_spec (sum + q18_term x (S k)) U256.modulus) as [H4|H4];
    [|reflexivity].
  cbn [mbind option_bind andb].
  destruct (Z.eqb_spec (q18_term x (S k)) 0) as [E|E].
  - rewrite E. reflexivity.
  - destruct (Z.ltb_spec (q18_term x (S k)) 1); [lia|].
    replace (Z.of_nat (S k) + 1) with (Z.of_nat (S (S k))) by lia.
    apply IH; [assumption | lia].
Qed.

Lemma exp_spec_eq x :
  0 <= x -> exp x = if exp_fits x then Some (exp_spec x) else None.
Proof.
  intros Hx. unfold exp, exp_fits, exp_spec.
  change DECIMALS with (q18_term x 0) at 1.
  apply (exp_loop_spec x 20 0 DECIMALS Hx). lia.
Qed.

(** *** Convexity of the series on a coarse grid *)

Lemma q18_term_zero_tail x i :
  q18_term x i = 0 -> forall j, q18_term x (i + j) = 0.
Proof.
  intros Hz j. induction j as [|j IH]; [rewrite Nat.add_0_r; exact Hz|].
  rewrite Nat.add_succ_r. cbn [q18_term]. rewrite IH. reflexivity.
Qed.

Lemma q18_series_tail x i :
  q18_term x (S i) = 0 -> forall m, q18_series x (S i + m) = q18_series x i.
Proof.
  intros Hz m. induction m as [|m IH].
  - rewrite Nat.add_0_r. cbn [q18_series]. lia.
  - rewrite Nat.add_succ_r. cbn [q18_series]. rewrite IH.
    pose proof (q18_term_zero_tail x (S i) Hz (S m)) as Ht.
    rewrite Nat.add_succ_r in Ht. rewrite Ht. lia.
Qed.

Lemma q18_sum_series x : 0 <= x -> forall n i acc,
  q18_sum x n (S i) acc = acc + (q18_series x (i + n) - q18_series x i).
Proof.
  intros Hx. induction n as [|n IH]; intros i acc.
  - rewrite Nat.add_0_r. cbn [q18_sum]. lia.
  - cbn [q18_sum]. destruct (Z.eqb_spec (q18_term x (S i)) 0) as [E|E].
    + replace (i + S n)%nat with (S i + n)%nat by lia.
      rewrite (q18_series_tail x i E n). lia.
    + rewrite IH. replace (S i + n)%nat with (i + S n)%nat by lia.
      cbn [q18_series]. lia.
Qed.

Lemma exp_spec_series x : 0 <= x -> exp_spec x = q18_series x 20.
Proof.
  intros Hx. unfold exp_spec. rewrite (q18_sum_series x Hx 20 0).
  cbn [Nat.add q18_series q18_term]. lia.
Qed.

Lemma exp_series x v : 0 <= x -> exp x = Some v -> v = q18_series x 20.
Proof.
  intros Hx H. rewrite (exp_spec_eq x Hx) in H.
  destruct (exp_fits x); [|discriminate].
  injection H as <-. apply exp_spec_series. assumption.
Qed.

Lemma q18_term_mono x y i : 0 <= x <= y -> q18_term x i <= q18_term y i.
Proof.
  intros Hxy. induction i as [|i IH]; [reflexivity|].
  cbn [q18_term]. apply Z.div_le_mono.
  - assert (0 < 10 ^ 18) by reflexivity. lia.
  - pose proof (q18_term_nonneg x i ltac:(lia)). nia.
Qed.

Section Convexity.

Variables a b s : Z.
Hypothesis Ha : 0 <= a.
Hypothesis Hab : a <= b.
Hypothesis Hs : 0 <= s.
Hypothesis Hcap : a <= 4 * 10 ^ 18.

(** One step of the recurrence of the terms loses at most two units of the
    gain, scaled. *)
Lemma term_gain_step j :
  a * term_gain a b s j
  < Z.of_nat (S j) * 10 ^ 18 * (term_gain a b s (S j) + 2).
Proof.
  unfold term_gain. cbn [q18_term].
  set (D := Z.of_nat (S j) * 10 ^ 18).
  assert (HD : 0 < D) by (subst D; assert (0 < 10 ^ 18) by reflexivity; lia).
  set (ubs := q18_term (b + s) j). set (uas := q18_term (a + s) j).
  set (ub := q18_term b j). set (ua := q18_term a j).
  assert (M1 : ub <= ubs) by (apply q18_term_mono; lia).
  assert (M2 : uas <= ubs) by (apply q18_term_mono; lia).
  pose proof (Z.mul_div_le (uas * (a + s)) D HD) as L1.
  pose proof (Z.mul_div_le (ub * b) D HD) as L2.
  pose proof (Z.mul_succ_div_gt (ubs * (b + s)) D HD) as U1.
  pose proof (Z.mul_succ_div_gt (ua * a) D HD) as U2.
  assert (P1 : 0 <= (b - a) * (ubs - ub)) by nia.
  assert (P2 : 0 <= s * (ubs - uas)) by nia.
  nia.
Qed.

Lemma term_gain_0 : term_gain a b s 0 = 0.
Proof. unfold term_gain. cbn [q18_term]. lia. Qed.

Lemma term_gain_1 : term_gain a b s 1 = 0.
Proof. unfold term_gain. rewrite !q18_term_1. lia. Qed.

Lemma term_gain_2 : s * (b - a) < 10 ^ 18 * (term_gain a b s 2 + 2).
Proof.
  unfold term_gain. cbn [q18_term]. change (Z.of_nat 1) with 1.
  change (Z.of_nat 2) with 2.
  assert (E : forall x, 10 ^ 18 * x / (1 * 10 ^ 18) = x).
  { intros x. rewrite Z.mul_1_l, Z.mul_comm. apply Z.div_mul. discriminate. }
  rewrite !E.
  set (D := 2 * 10 ^ 18).
  assert (HD : 0 < D) by reflexivity.
  pose proof (Z.mul_div_le ((a + s) * (a + s)) D HD) as L1.
  pose proof (Z.mul_div_le (b * b) D HD) as L2.
  pose proof (Z.mul_succ_div_gt ((b + s) * (b + s)) D HD) as U1.
  pose proof (Z.mul_succ_div_gt (a * a) D HD) as U2.
  assert (HDv : D = 2 * 10 ^ 18) by reflexivity.
  clearbody D. nia.
Qed.

Hypothesis Hwide : 2 * 10 ^ 18 <= s * (b - a).

(** From the third term on, a term loses at most three units. *)
Lemma term_gain_bound j :
  - Z.min (Z.of_nat j) 3 <= term_gain a b s (2 + j).
Proof.
  induction j as [|j IH].
  - pose proof term_gain_2. cbn [Nat.add]. change (Z.of_nat 0) with 0.
    assert (0 < 10 ^ 18) by reflexivity. nia.
  - pose proof (term_gain_step (2 + j)) as St.
    replace (2 + S j)%nat with (S (2 + j)) by lia.
    assert (HS : 0 < 10 ^ 18) by reflexivity.
    assert (Hj : Z.of_nat (S (2 + j)) = Z.of_nat j + 3) by lia.
    rewrite Hj in St.
    assert (Hj' : Z.of_nat (S j) = Z.of_nat j + 1) by lia. rewrite Hj'.
    assert (0 <= Z.of_nat j) by lia.
    set (g := term_gain a b s (2 + j)) in *.
    set (g' := term_gain a b s (S (2 + j))) in *.
    set (n := Z.of_nat j) in *. clearbody g g' n.
    assert (Hlow : - (4 * 10 ^ 18 * Z.min n 3) <= a * g) by nia.
    assert (Hkey : - (4 * Z.min n 3) < (n + 3) * (g' + 2)) by nia.
    nia.
Qed.

Lemma series_gain n :
  term_gain a b s 2 - 3 * Z.of_nat n
  <= q18_series (b + s) (2 + n) - q18_series (a + s) (2 + n)
     - q18_series b (2 + n) + q18_series a (2 + n).
Proof.
  induction n as [|n IH].
  - pose proof term_gain_0 as G0. pose proof term_gain_1 as G1.
    unfold term_gain in *. cbn [Nat.add q18_series]. change (Z.of_nat 0) with 0.
    lia.
  - replace (2 + S n)%nat with (S (2 + n)) by lia. cbn [q18_series].
    pose proof (term_gain_bound (S n)) as B.
    replace (2 + S n)%nat with (S (2 + n)) in B by lia.
    unfold term_gain in B, IH |- *. lia.
Qed.

End Convexity.

Lemma exp_convex a b s e00 e10 e01 e11 :
  0 <= a <= b -> 0 <= s -> a <= 4 * 10 ^ 18 -> 60 * 10 ^ 18 <= s * (b - a) ->
  exp a = Some e00 -> exp b = Some e10 ->
  exp (a + s) = Some e01 -> exp (b + s) = Some e11 ->
  e10 - e00 < e11 - e01.
Proof.
  intros [Ha Hab] Hs Hcap Hwide H00 H10 H01 H11.
  apply exp_series in H00; [|lia]. apply exp_series in H10; [|lia].
  apply exp_series in H01; [|lia]. apply exp_series in H11; [|lia].
  subst.
  assert (HS : 0 < 10 ^ 18) by reflexivity.
  assert (Hw2 : 2 * 10 ^ 18 <= s * (b - a)) by lia.
  pose proof (series_gain a b s Ha Hab Hs Hcap Hw2 18) as G.
  pose proof (term_gain_2 a b s) as G2.
  change (2 + 18)%nat with 20%nat in G. change (Z.of_nat 18) with 18 in G.
  set (g := term_gain a b s 2) in *. clearbody g.
  assert (58 < g) by nia. lia.
Qed.

(** For an amount of at least one token, [calculateCost] is strictly higher
    at a supply that is a whole number of tokens higher, within the cap. *)
Lemma calculateCost_strict_supply c d u :
  0 <= c -> DECIMALS <= d -> 1 <= u ->
  c + u * DECIMALS + d <= maxCurveRaw ->
  exists v v',
    calculateCost c d = Some v /\
    calculateCost (c + u * DECIMALS) d = Some v' /\ v < v'.
Proof.
  intros Hc Hd Hu Hcap. pose proof DECIMALS_pos as HD.
  destruct (calculateCost_total c d) as (v & Hv & _); [lia | lia | nia |].
  destruct (calculateCost_total (c + u * DECIMALS) d) as (v' & Hv' & _);
    [nia | lia | lia |].
  exists v, v'. split; [assumption|]. split; [assumption|].
  apply calculateCost_Some in Hv
    as (e1 & e0 & _ & _ & _ & He1 & He0 & Hle & _ & ->).
  apply calculateCost_Some in Hv'
    as (e1' & e0' & _ & _ & _ & He1' & He0' & Hle' & _ & ->).
  replace (c + u * DECIMALS + d) with (c + d + u * DECIMALS) in He1' by ring.
  rewrite exponent_of_add_whole in He1', He0'.
  apply price_scale_strict.
  assert (Hb : exponent_of c + K <= exponent_of (c + d)).
  { replace (exponent_of c + K) with (exponent_of (c + 1 * DECIMALS))
      by (rewrite exponent_of_add_whole; ring).
    apply exponent_of_mono. lia. }
  assert (Ha4 : exponent_of c <= 4 * 10 ^ 18).
  { assert (exponent_of c <= exponent_of (800000 * DECIMALS)).
    { apply exponent_of_mono. rewrite maxCurveRaw_val in Hcap. nia. }
    rewrite exponent_of_whole in H.
    assert (K * 800000 <= 4 * 10 ^ 18) by (vm_compute; discriminate). lia. }
  pose proof (exponent_of_nonneg c Hc) as Hn.
  assert (HK : 60 * 10 ^ 18 <= K * K) by (vm_compute; discriminate).
  pose proof K_pos as HKp.
  apply (exp_convex (exponent_of c) (exponent_of (c + d)) (K * u) e0 e1 e0' e1');
    try assumption; try lia.
  assert (K <= K * u) by nia.
  assert (K <= exponent_of (c + d) - exponent_of c) by lia.
  nia.
Qed.

(** *** The inverse solver *)

Lemma affordable_down cur eff q q' :
  0 <= cur -> 0 <= q <= q' ->
  affordable cur eff q' = true -> affordable cur eff q = true.
Proof.
  intros Hc Hq. unfold affordable.
  destruct (calculateCost cur (q' * DECIMALS)) as [c'|] eqn:E'; [|discriminate].
  intros Hle. pose proof DECIMALS_pos.
  destruct (calculateCost_mono_amount cur (q' * DECIMALS) (q * DECIMALS) c')
    as (c & -> & Hcc); [lia | nia | assumption |]. lia.
Qed.

Lemma affordable_zero cur eff :
  0 <= cur <= maxCurveRaw -> 0 <= eff -> affordable cur eff 0 = true.
Proof.
  intros Hc He. unfold affordable. rewrite Z.mul_0_l.
  destruct (calculateCost_total cur 0) as (v & Hv & _); [lia..|].
  rewrite Hv. rewrite (calculateCost_zero cur 0 v) by (rewrite ?Z.add_0_r; auto).
  lia.
Qed.

Lemma affordable_nothing_for_free cur q :
  0 <= cur -> 1 <= q -> affordable cur 0 q = false.
Proof.
  intros Hc Hq. unfold affordable.
  destruct (calculateCost cur (q * DECIMALS)) as [c|] eqn:E; [|reflexivity].
  pose proof DECIMALS_pos.
  assert (HD : DECIMALS = 10 ^ 18) by reflexivity.
  assert (204046 <= q * DECIMALS) by (rewrite HD; lia).
  destruct (calculateCost_pos cur (q * DECIMALS) c) as [_ Hpos];
    [lia | lia | apply exponent_of_step; assumption | assumption |]. lia.
Qed.

Lemma midpoint_bounds low high :
  low < high -> low < (low + high + 1) / 2 <= high.
Proof. intros H. Z.div_mod_to_equations. lia. Qed.

(** The midpoint of an iteration of the search. *)
Lemma search_mid fuel cur eff low high :
  0 <= low < high -> high <= 10 ^ 30 ->
  search (S fuel) cur eff low high =
    if affordable cur eff ((low + high + 1) / 2)
    then search fuel cur eff ((low + high + 1) / 2) high
    else search fuel cur eff low ((low + high + 1) / 2 - 1).
Proof.
  intros Hlh Hcap. cbn [search].
  rewrite (proj2 (Z.ltb_lt low high)) by lia.
  assert (HM : 10 ^ 60 < U256.modulus) by reflexivity.
  assert (H30 : 10 ^ 30 = 1000000000000000000000000000000) by reflexivity.
  assert (H60 : 10 ^ 60 = 10 ^ 30 * 10 ^ 30) by reflexivity.
  assert (HD : DECIMALS = 10 ^ 18) by reflexivity.
  assert (H18 : 10 ^ 18 = 1000000000000000000) by reflexivity.
  set (mid := (low + high + 1) / 2).
  assert (Hmid : low < mid <= high) by (apply midpoint_bounds; lia).
  rewrite (proj2 (U256Facts.add_Some low high _)) by (split; [lia | reflexivity]).
  cbn [mbind option_bind].
  rewrite (proj2 (U256Facts.add_Some (low + high) 1 _))
    by (split; [lia | reflexivity]).
  cbn [mbind option_bind].
  change (U256.div (low + high + 1) 2) with (Some mid).
  cbn [mbind option_bind].
  rewrite (proj2 (U256Facts.mul_Some mid DECIMALS _))
    by (split; [nia | reflexivity]).
  cbn [mbind option_bind].
  rewrite (proj2 (U256Facts.sub_Some mid 1 _)) by (split; [lia | reflexivity]).
  cbn [mbind option_bind].
  unfold affordable.
  destruct (calculateCost cur (mid * DECIMALS)) as [c|]; [|reflexivity].
  destruct (c <=? eff); reflexivity.
Qed.

Lemma search_spec cur eff fuel : forall low high,
  0 <= cur -> 0 <= low <= high -> high <= 10 ^ 30 ->
  high - low <= Z.of_nat fuel ->
  exists r,
    search fuel cur eff low high = Some r /\ low <= r <= high /\
    (low < r -> affordable cur eff r = true) /\
    (forall q, r < q <= high -> affordable cur eff q = false).
Proof.
  induction fuel as [|fuel IH]; intros low high Hc Hlh Hcap Hf.
  - assert (low = high) by lia. subst high. exists low. cbn [search].
    rewrite Z.ltb_irrefl. repeat split; intros; lia.
  - destruct (Z.eq_dec low high) as [->|Hne].
    + exists high. cbn [search]. rewrite Z.ltb_irrefl.
      repeat split; intros; lia.
    + rewrite search_mid by lia.
      set (mid := (low + high + 1) / 2).
      assert (Hmid : low < mid <= high) by (apply midpoint_bounds; lia).
      destruct (affordable cur eff mid) eqn:A.
      * destruct (IH mid high) as (r & Hr & Hb & Hp & Hq); [lia..|].
        exists r. split; [assumption|]. split; [lia|]. split; [|assumption].
        intros _. destruct (Z.eq_dec r mid) as [->|]; [assumption|].
        apply Hp. lia.
      * destruct (IH low (mid - 1)) as (r & Hr & Hb & Hp & Hq); [lia..|].
        exists r. split; [assumption|]. split; [lia|]. split; [assumption|].
        intros q Hqr. destruct (Z_le_gt_dec q (mid - 1)); [apply Hq; lia|].
        destruct (affordable cur eff q) eqn:Aq; [|reflexivity].
        rewrite (affordable_down cur eff mid q) in A; [discriminate|lia..|assumption].
Qed.

Lemma calculateTokenAmountFromEth_spec a ethAmount w :
  known (memeTokenOf w a) a = true -> isLaunched (memeTokenOf w a) = false ->
  0 <= curveSupplyOf w a <= maxCurveRaw ->
  0 <= ethAmount -> ethAmount * (BPS_DENOMINATOR - FEE_BPS) < U256.modulus ->
  let cur := curveSupplyOf w a in
  let maxTokens := (maxCurveRaw - cur) / DECIMALS in
  let eff := ethAmount * (BPS_DENOMINATOR - FEE_BPS) / BPS_DENOMINATOR in
  exists q,
    calculateTokenAmountFromEth a ethAmount w = Ok (q, w) /\
    0 <= q <= maxTokens /\ affordable cur eff q = true /\
    forall q', q < q' <= maxTokens -> affordable cur eff q' = false.
Proof.
  intros Hk Hl Hcur He Hov cur maxTokens eff.
  pose proof DECIMALS_pos as HD.
  assert (Hmax : 0 <= maxTokens).
  { apply Z.div_pos; [unfold cur; lia | assumption]. }
  assert (Hmax' : maxTokens <= 800000).
  { subst maxTokens. apply Z.div_le_upper_bound; [assumption|].
    rewrite maxCurveRaw_val in *. unfold cur. lia. }
  assert (Heff : 0 <= eff).
  { subst eff. apply Z.div_pos; [|reflexivity].
    assert (0 < BPS_DENOMINATOR - FEE_BPS) by reflexivity. nia. }
  unfold calculateTokenAmountFromEth. mcompute'. rewrite Hk, Hl. cbn [negb].
  mcompute'.
  rewrite (proj2 (U256Facts.sub_Some maxCurveRaw (curveSupplyOf w a) _))
    by (split; [lia | reflexivity]).
  change (U256.div (maxCurveRaw - curveSupplyOf w a) DECIMALS)
    with (Some maxTokens).
  cbv beta iota.
  destruct ((maxTokens =? 0) || (ethAmount =? 0)) eqn:Z0.
  - exists 0. split; [reflexivity|]. split; [lia|].
    split; [apply affordable_zero; [exact Hcur | exact Heff]|].
    intros q' Hq'. apply orb_true_iff in Z0 as [Z0|Z0]; [lia|].
    assert (ethAmount = 0) by lia. subst ethAmount.
    replace eff with 0 by reflexivity.
    apply affordable_nothing_for_free; [unfold cur|]; lia.
  - rewrite (proj2 (U256Facts.mul_Some ethAmount (BPS_DENOMINATOR - FEE_BPS) _))
      by (split; [assumption | reflexivity]).
    change (U256.div (ethAmount * (BPS_DENOMINATOR - FEE_BPS)) BPS_DENOMINATOR)
      with (Some eff).
    cbv beta iota.
    destruct (search_spec cur eff (Z.to_nat maxTokens) 0 maxTokens)
      as (r & Hr & Hb & Hp & Hq); [unfold cur; lia | lia | | lia |].
    { assert (800000 <= 10 ^ 30) by (vm_compute; discriminate). lia. }
    fold cur. rewrite Hr. exists r. split; [reflexivity|].
    split; [lia|]. split; [|assumption].
    destruct (Z.eq_dec r 0) as [->|]; [|apply Hp; lia].
    apply affordable_zero; [exact Hcur | exact Heff].
Qed.

(** * The claims of the specification *)

Lemma demo_world_deployed : constructor 1 700 701 5 500 = Ok demo_world.
Proof. reflexivity. Qed.

Lemma in_range_intro z : (0 <=? z) && (z <? U256.modulus) = true -> U256.in_range z.
Proof. unfold U256.in_range. lia. Qed.

Lemma demo_world_reachable : reachable demo_world.
Proof.
  apply (reachable_init 1 700 701 5 500); [|reflexivity].
  apply in_range_intro. reflexivity.
Qed.

Lemma demo_created_reachable : reachable demo_created.
Proof.
  apply (reachable_step demo_world); [apply demo_world_reachable|].
  apply step_call; [discriminate|]. apply in_range_intro. reflexivity.
Qed.

Lemma demo_bought_reachable : reachable demo_bought.
Proof.
  apply (reachable_step demo_created); [apply demo_created_reachable|].
  apply step_call.
  - vm_compute. discriminate.
  - split; apply in_range_intro; reflexivity.
Qed.

Lemma demo_singles_reachable : reachable demo_singles.
Proof.
  unfold demo_singles.
  do 3 (eapply reachable_step;
          [|apply step_call;
            [vm_compute; discriminate
            |split; apply in_range_intro; reflexivity]]).
  apply demo_created_reachable.
Qed.

Lemma wf_open w : wf w -> _status w <> _ENTERED.
Proof. intros [-> _]. discriminate. Qed.

(** C1. A buy that brings [fundingRaised] to the funding goal, or
    [curveSupply] to the curve cap, sets [isLaunched] in that same call;
    from then on, whatever transactions follow, the flag stays set and every
    [buyMemeToken] and [sellMemeToken] on the asset fails with
    [AlreadyLaunched], leaving the world as it was. *)
Theorem launch_is_a_one_way_latch env sender timestamp value a qty w ret w' cost :
  reachable w ->
  buyMemeToken env sender timestamp value a qty w = Ok (ret, w') ->
  calculateCost (curveSupplyOf w a) (buyRawOf w a qty) = Some cost ->
  MEMECOIN_FUNDING_GOAL <= fundingRaised (memeTokenOf w a) + cost
  \/ maxCurveRaw <= curveSupplyOf w a + buyRawOf w a qty ->
  isLaunched (memeTokenOf w' a) = true /\
  forall w'', rtc step w' w'' ->
    isLaunched (memeTokenOf w'' a) = true /\
    (forall env' s t v q,
       transact (buyMemeToken env' s t v a q) w'' = (w'', Err AlreadyLaunched)) /\
    (forall env' s t q,
       transact (sellMemeToken env' s t a q) w'' = (w'', Err AlreadyLaunched)).
Proof.
  intros Hr Hbuy Hcost Hgoal. apply reachable_wf in Hr.
  destruct (buyMemeToken_wf _ _ _ _ _ _ _ _ _ Hbuy Hr) as [Hw' _].
  apply buyMemeToken_Ok in Hbuy as (cost' & tk & F).
  pose proof (bf_cost _ _ _ _ _ _ _ _ _ _ _ F) as Hc'.
  assert (cost' = cost) by congruence. subst cost'.
  assert (G : graduates w a cost (buyRawOf w a qty) = true).
  { unfold graduates. apply orb_true_iff.
    destruct Hgoal; [left | right]; lia. }
  assert (L : isLaunched (memeTokenOf w' a) = true).
  { rewrite (memeTokenOf_insert _ _ _ a _ (bf_asset _ _ _ _ _ _ _ _ _ _ _ F)).
    rewrite decide_True by reflexivity. rewrite G. reflexivity. }
  split; [exact L|]. intros w'' Hs.
  pose proof (steps_wf _ _ Hs Hw') as Hw''.
  pose proof (steps_latch _ _ a Hs Hw' L) as L''.
  pose proof (wf_open _ Hw'') as Ho.
  destruct Hw'' as [_ Hall]. destruct (Hall a) as (_ & _ & Hk).
  destruct (Hk L'') as [Hk' _].
  split; [exact L''|]. split.
  - intros env' s t v q. unfold transact.
    rewrite (buy_launched env' s t v a q w'' Ho Hk' L''). reflexivity.
  - intros env' s t q. unfold transact.
    rewrite (sell_launched env' s t a q w'' Ho Hk' L''). reflexivity.
Qed.

Lemma launch_is_a_one_way_latch_witness :
  isLaunched (memeTokenOf demo_launched 1000) = true /\
  forall w'', rtc step demo_launched w'' ->
    isLaunched (memeTokenOf w'' 1000) = true /\
    (forall env' s t v q,
       transact (buyMemeToken env' s t v 1000 q) w''
       = (w'', Err AlreadyLaunched)) /\
    (forall env' s t q,
       transact (sellMemeToken env' s t 1000 q) w''
       = (w'', Err AlreadyLaunched)).
Proof.
  apply (launch_is_a_one_way_latch (demo_env 0) 7 101 (200000 * ether) 1000
           800001 demo_created 116149999838690607410941 demo_launched
           114999999840287730109843).
  - apply demo_created_reachable.
  - vm_compute. reflexivity.
  - vm_compute. reflexivity.
  - right. vm_compute. discriminate.
Defined.

(** C2. A sell whose gross refund [calculateRefund(curveSupply, qty*1e18)]
    exceeds [fundingRaised] fails and leaves the world as it was; when the
    earlier checks of [sellMemeToken] pass, the failure is
    [InsufficientReserve].  In every reachable world [fundingRaised] of every
    asset is non-negative. *)
Theorem sell_over_reserve_rejected :
  (forall env sender timestamp a qty w refund,
     calculateRefund (curveSupplyOf w a) (qty * DECIMALS) = Some refund ->
     fundingRaised (memeTokenOf w a) < refund ->
     exists e,
       transact (sellMemeToken env sender timestamp a qty) w = (w, Err e) /\
       (_status w <> _ENTERED -> known (memeTokenOf w a) a = true ->
        isLaunched (memeTokenOf w a) = false ->
        qty * DECIMALS < U256.modulus ->
        (exists tk, tokens w !! a = Some tk /\
                    qty * DECIMALS <= Token.balance_in tk sender) ->
        e = InsufficientReserve)) /\
  (forall w a, reachable w -> 0 <= fundingRaised (memeTokenOf w a)).
Proof.
  split.
  - intros env sender timestamp a qty w refund Hr Hlt.
    destruct (sell_over_reserve_fails env sender timestamp a qty w refund Hr Hlt)
      as [e He].
    exists e. unfold transact. rewrite He. split; [reflexivity|].
    intros Hs Hk Hl Hq (tk & Htk & Hheld).
    rewrite (sell_uncovered env sender timestamp a qty w refund tk
               Hs Hk Hl Hq Htk Hheld Hr Hlt) in He.
    congruence.
  - intros w a Hr. apply reachable_wf in Hr as [_ Hall].
    destruct (Hall a) as (H & _). exact H.
Qed.

Lemma sell_over_reserve_rejected_witness :
  (exists e,
     transact (sellMemeToken (demo_env 0) 7 105 1000 3) demo_singles
       = (demo_singles, Err e) /\
     (_status demo_singles <> _ENTERED ->
      known (memeTokenOf demo_singles 1000) 1000 = true ->
      isLaunched (memeTokenOf demo_singles 1000) = false ->
      3 * DECIMALS < U256.modulus ->
      (exists tk, tokens demo_singles !! 1000 = Some tk /\
                  3 * DECIMALS <= Token.balance_in tk 7) ->
      e = InsufficientReserve)) /\
  0 <= fundingRaised (memeTokenOf demo_singles 1000).
Proof.
  split.
  - apply (proj1 sell_over_reserve_rejected (demo_env 0) 7 105 1000 3
             demo_singles 34202518643236019); vm_compute; reflexivity.
  - apply (proj2 sell_over_reserve_rejected demo_singles 1000
             demo_singles_reachable).
Defined.

(** C3, as the code has it.  A successful [buyMemeToken] returns the native
    currency charged, curve cost plus trading fee, for the quantity filled
    (not the quantity); a successful [sellMemeToken] returns the net payout,
    gross refund minus trading fee. *)
Theorem trade_return_values :
  (forall env sender timestamp value a qty w ret w',
     buyMemeToken env sender timestamp value a qty w = Ok (ret, w') ->
     exists cost,
       calculateCost (curveSupplyOf w a) (buyRawOf w a qty) = Some cost /\
       ret = cost + feeOf cost) /\
  (forall env sender timestamp a qty w ret w',
     sellMemeToken env sender timestamp a qty w = Ok (ret, w') ->
     exists refund,
       calculateRefund (curveSupplyOf w a) (qty * DECIMALS) = Some refund /\
       ret = refund - feeOf refund /\
       payouts (log w') = payouts (log w) ++ [(sender, ret)]).
Proof.
  split.
  - intros env sender timestamp value a qty w ret w' H.
    apply buyMemeToken_Ok in H as (cost & tk & F). exists cost.
    split; [exact (bf_cost _ _ _ _ _ _ _ _ _ _ _ F)
           |exact (bf_ret _ _ _ _ _ _ _ _ _ _ _ F)].
  - intros env sender timestamp a qty w ret w' H.
    apply sellMemeToken_Ok in H as (refund & tk & F). exists refund.
    split; [exact (sf_refund _ _ _ _ _ _ _ _ _ _ F)|].
    split; [exact (sf_ret _ _ _ _ _ _ _ _ _ _ F)|].
    rewrite (sf_log _ _ _ _ _ _ _ _ _ _ F), payouts_app. reflexivity.
Qed.

Lemma trade_return_values_witness :
  (exists cost,
     calculateCost (curveSupplyOf demo_created 1000)
       (buyRawOf demo_created 1000 3) = Some cost /\
     34544543829668379 = cost + feeOf cost) /\
  (exists refund,
     calculateRefund (curveSupplyOf demo_bought 1000) (1 * DECIMALS)
       = Some refund /\
     11286886467527095 = refund - feeOf refund /\
     payouts (log (exec (demo_env 0) 7 102 (SellMemeToken 1000 1) demo_bought))
     = payouts (log demo_bought) ++ [(7, 11286886467527095)]).
Proof.
  split.
  - apply (proj1 trade_return_values (demo_env 0) 7 101 (2 * ether) 1000 3
             demo_created 34544543829668379 demo_bought).
    vm_compute. reflexivity.
  - apply (proj2 trade_return_values (demo_env 0) 7 102 1000 1 demo_bought
             11286886467527095
             (exec (demo_env 0) 7 102 (SellMemeToken 1000 1) demo_bought)).
    vm_compute. reflexivity.
Defined.

(** C3 as stated fails: a buy that fills three whole tokens returns the
    34544543829668379 wei it charged, not 3. *)
Lemma buy_returns_the_charge_not_the_quantity :
  transact (buyMemeToken (demo_env 0) 7 101 (2 * ether) 1000 3) demo_created
    = (demo_bought, Ok 34544543829668379)
  /\ buyRawOf demo_created 1000 3 / DECIMALS = 3
  /\ In (TokenBought 1000 7 3 34544543829668379 101) (log demo_bought)
  /\ 34544543829668379 <> 3.
Proof.
  split; [vm_compute; reflexivity|].
  split; [vm_compute; reflexivity|].
  split; [vm_compute; tauto | discriminate].
Qed.

(** C4. A successful buy that asks for more than the curve has left fills
    exactly what is left: cost and fee are those of that amount, that amount
    is minted to the buyer, the curve is sold out, and what the buyer sent
    above cost plus fee goes back to the buyer; the only other payout of the
    call is the liquidity sent to the router. *)
Theorem partial_fill_is_exact env sender timestamp value a qty w ret w' :
  buyMemeToken env sender timestamp value a qty w = Ok (ret, w') ->
  maxCurveRaw - curveSupplyOf w a < qty * DECIMALS ->
  let avail := maxCurveRaw - curveSupplyOf w a in
  exists cost tk,
    calculateCost (curveSupplyOf w a) avail = Some cost /\
    ret = cost + feeOf cost /\ ret <= value /\
    curveSupplyOf w' a = maxCurveRaw /\
    tokens w !! a = Some tk /\
    let lp0 := fundingRaised (memeTokenOf w a) + cost in
    let lp := lp0 - listingFeeTaken (listingFee w) lp0 in
    protocolFeeBalance w' =
      protocolFeeBalance w + feeOf cost + listingFeeTaken (listingFee w) lp0 /\
    log w' =
      log w
      ++ [Transfer a 0 sender avail; Minted a sender avail;
          TokenBought a sender (avail / DECIMALS) ret timestamp]
      ++ (if ret <? value then [Sent sender (value - ret)] else [])
      ++ [Approval a (this w) (uniswapRouter w) INIT_SUPPLY;
          Sent (uniswapRouter w) lp;
          TokenLaunched a lp (listingFeeTaken (listingFee w) lp0) timestamp] /\
    payouts (log w') =
      payouts (log w)
      ++ (if ret <? value then [(sender, value - ret)] else [])
      ++ [(uniswapRouter w, lp)] /\
    exists r,
      env_addLiquidityETH env a lp
        (Token.set_allowance (this w) (uniswapRouter w) INIT_SUPPLY
           (minted tk sender avail)) = Some r /\
      tokens w' = <[a := fst r]> (tokens w).
Proof.
  intros H Hclamp avail. apply buyMemeToken_Ok in H as (cost & tk & F).
  assert (Hraw : buyRawOf w a qty = avail).
  { unfold buyRawOf. fold avail.
    rewrite (proj2 (Z.ltb_lt avail (qty * DECIMALS)) Hclamp). reflexivity. }
  assert (G : graduates w a cost avail = true).
  { unfold graduates. apply orb_true_iff. right. unfold avail. lia. }
  destruct F as [? ? ? ? ? ? Fcost Fret Fpaid Ftoken Fsupply Fasset Ffees ?
                 Flog Fbal Fframe Ftokens].
  cbv zeta in Flog, Ftokens. rewrite Hraw in *. rewrite G in *.
  exists cost, tk.
  split; [exact Fcost|]. split; [exact Fret|]. split; [exact Fpaid|].
  split.
  { rewrite (curveSupplyOf_insert _ _ _ a _ Fsupply).
    rewrite decide_True by reflexivity. unfold avail. lia. }
  split; [exact Ftoken|]. cbv zeta.
  split; [exact Ffees|]. split; [exact Flog|].
  split; [|exact Ftokens].
  rewrite Flog, !payouts_app. cbn [payouts app].
  destruct (ret <? value); reflexivity.
Qed.

Lemma partial_fill_is_exact_witness :
  let avail := maxCurveRaw - curveSupplyOf demo_created 1000 in
  exists cost tk,
    calculateCost (curveSupplyOf demo_created 1000) avail = Some cost /\
    116149999838690607410941 = cost + feeOf cost /\
    116149999838690607410941 <= 200000 * ether /\
    curveSupplyOf demo_launched 1000 = maxCurveRaw /\
    tokens demo_created !! 1000 = Some tk /\
    let lp0 := fundingRaised (memeTokenOf demo_created 1000) + cost in
    let lp := lp0 - listingFeeTaken (listingFee demo_created) lp0 in
    protocolFeeBalance demo_launched =
      protocolFeeBalance demo_created + feeOf cost
      + listingFeeTaken (listingFee demo_created) lp0 /\
    log demo_launched =
      log demo_created
      ++ [Transfer 1000 0 7 avail; Minted 1000 7 avail;
          TokenBought 1000 7 (avail / DECIMALS) 116149999838690607410941 101]
      ++ (if 116149999838690607410941 <? 200000 * ether
          then [Sent 7 (200000 * ether - 116149999838690607410941)] else [])
      ++ [Approval 1000 (this demo_created) (uniswapRouter demo_created)
            INIT_SUPPLY;
          Sent (uniswapRouter demo_created) lp;
          TokenLaunched 1000 lp (listingFeeTaken (listingFee demo_created) lp0)
            101] /\
    payouts (log demo_launched) =
      payouts (log demo_created)
      ++ (if 116149999838690607410941 <? 200000 * ether
          then [(7, 200000 * ether - 116149999838690607410941)] else [])
      ++ [(uniswapRouter demo_created, lp)] /\
    exists r,
      env_addLiquidityETH (demo_env 0) 1000 lp
        (Token.set_allowance (this demo_created) (uniswapRouter demo_created)
           INIT_SUPPLY (minted tk 7 avail)) = Some r /\
      tokens demo_launched = <[1000 := fst r]> (tokens demo_created).
Proof.
  apply (partial_fill_is_exact (demo_env 0) 7 101 (200000 * ether) 1000 800001
           demo_created 116149999838690607410941 demo_launched).
  - vm_compute. reflexivity.
  - vm_compute. reflexivity.
Defined.

(** C9. A buy of zero tokens always fails and leaves the world as it was;
    on an asset that is known and not launched the failure is
    ["Curve complete"] when the curve is sold out and ["Nothing to buy"]
    otherwise. *)
Theorem zero_buy_always_fails env sender timestamp value a w :
  exists e,
    transact (buyMemeToken env sender timestamp value a 0) w = (w, Err e) /\
    (_status w <> _ENTERED -> known (memeTokenOf w a) a = true ->
     isLaunched (memeTokenOf w a) = false ->
     curveSupplyOf w a <= maxCurveRaw ->
     e = if curveSupplyOf w a =? maxCurveRaw then CurveComplete
         else NothingToBuy).
Proof.
  destruct (buy_zero_fails env sender timestamp value a w) as [e He].
  exists e. unfold transact. rewrite He. split; [reflexivity|].
  intros Hs Hk Hl Hcap.
  rewrite (buy_zero_reason env sender timestamp value a w Hs Hk Hl Hcap) in He.
  congruence.
Qed.

Lemma zero_buy_always_fails_witness :
  transact (buyMemeToken (demo_env 0) 7 105 ether 1000 0) demo_bought
    = (demo_bought, Err NothingToBuy).
Proof.
  destruct (zero_buy_always_fails (demo_env 0) 7 105 ether 1000 demo_bought)
    as (e & He & Hreason).
  rewrite He. f_equal. f_equal. apply Hreason.
  - vm_compute. discriminate.
  - vm_compute. reflexivity.
  - vm_compute. reflexivity.
  - vm_compute. discriminate.
Defined.

(** C10. A successful [createMemeToken] was paid at least the creation fee,
    adds the whole payment to [protocolFeeBalance], keeps it all in the
    factory and pays nothing back. *)
Theorem creation_keeps_the_whole_payment
    env sender timestamp value n s i d w a w' :
  createMemeToken env sender timestamp value n s i d w = Ok (a, w') ->
  MEMETOKEN_CREATION_FEE <= value /\
  protocolFeeBalance w' = protocolFeeBalance w + value /\
  balance w' = balance w + value /\
  payouts (log w') = payouts (log w).
Proof. apply createMemeToken_Ok. Qed.

Lemma creation_keeps_the_whole_payment_witness :
  MEMETOKEN_CREATION_FEE <= 2000000000000 /\
  protocolFeeBalance demo_created = protocolFeeBalance demo_world + 2000000000000 /\
  balance demo_created = balance demo_world + 2000000000000 /\
  payouts (log demo_created) = payouts (log demo_world).
Proof.
  apply (creation_keeps_the_whole_payment (demo_env 1000) 7 100 2000000000000
           "A" "A" "u" "d" demo_world 1000 demo_created).
  vm_compute. reflexivity.
Defined.

(** C8. On every input [exp] returns the truncated Q18 Maclaurin sum of the
    specification (terms [t_0 = 1e18], [t_i = t_{i-1} * x / (i * 1e18)],
    added for at most 20 iterations, stopping after the first zero term),
    unless a product or a partial sum of those iterations leaves the 256-bit
    range, in which case it aborts. *)
Theorem exp_is_the_truncated_series x :
  0 <= x -> exp x = if exp_fits x then Some (exp_spec x) else None.
Proof. apply exp_spec_eq. Qed.

Lemma exp_is_the_truncated_series_witness :
  exp (K * 800000) = Some (exp_spec (K * 800000))
  /\ exp_spec (K * 800000) = 50435252932401309679.
Proof.
  split.
  - rewrite (exp_is_the_truncated_series (K * 800000)).
    + vm_compute. reflexivity.
    + vm_compute. discriminate.
  - vm_compute. reflexivity.
Defined.

(** C7, as the code has it.  Where [calculateCost] evaluates, its result is
    strictly positive exactly when the integer exponent [K * raw / 1e18] of
    [supply + delta] exceeds that of [supply]; it is strictly positive for
    every [delta] of at least 204046 raw units, so for every whole token. *)
Theorem cost_positive_when_the_exponent_moves c d v :
  0 <= c -> 0 <= d -> calculateCost c d = Some v ->
  (0 < v <-> exponent_of c < exponent_of (c + d))
  /\ (204046 <= d -> 0 < v).
Proof.
  intros Hc Hd H.
  assert (P : exponent_of c < exponent_of (c + d) -> 0 < v).
  { intros He. apply (calculateCost_pos c d v Hc Hd He H). }
  split.
  - split; [|exact P]. intros Hv.
    pose proof (exponent_of_mono c (c + d) ltac:(lia)) as Hm.
    destruct (Z.eq_dec (exponent_of (c + d)) (exponent_of c)) as [E|E]; [|lia].
    rewrite (calculateCost_zero c d v E H) in Hv. lia.
  - intros Hbig. apply P. apply exponent_of_step. assumption.
Qed.

Lemma cost_positive_when_the_exponent_moves_witness :
  (0 < 11400783673837639 <-> exponent_of 0 < exponent_of (0 + DECIMALS))
  /\ (204046 <= DECIMALS -> 0 < 11400783673837639).
Proof.
  apply (cost_positive_when_the_exponent_moves 0 DECIMALS 11400783673837639).
  - lia.
  - vm_compute. discriminate.
  - vm_compute. reflexivity.
Defined.

(** C7 as stated fails: one raw unit on an empty curve costs nothing. *)
Lemma one_raw_unit_costs_nothing :
  calculateCost 0 1 = Some 0 /\ 0 < 1 /\ ~ 0 < 0.
Proof. split; [vm_compute; reflexivity | lia]. Qed.

(** C5, as the code has it.  For a known asset that is not launched, and a
    payment [ethAmount] whose product with 9900 fits in 256 bits,
    [calculateTokenAmountFromEth] returns the largest whole-token quantity
    [q] between 0 and the tokens left on the curve whose cost evaluates and
    is at most [ethAmount * 9900 / 10000]; a midpoint whose cost does not
    evaluate sends the search down. *)
Theorem solver_returns_the_largest_affordable_quantity :
  (forall a ethAmount w,
     known (memeTokenOf w a) a = true ->
     isLaunched (memeTokenOf w a) = false ->
     0 <= curveSupplyOf w a <= maxCurveRaw ->
     0 <= ethAmount ->
     ethAmount * (BPS_DENOMINATOR - FEE_BPS) < U256.modulus ->
     let cur := curveSupplyOf w a in
     let maxTokens := (maxCurveRaw - cur) / DECIMALS in
     let eff := ethAmount * (BPS_DENOMINATOR - FEE_BPS) / BPS_DENOMINATOR in
     exists q,
       calculateTokenAmountFromEth a ethAmount w = Ok (q, w) /\
       0 <= q <= maxTokens /\ affordable cur eff q = true /\
       forall q', q < q' <= maxTokens -> affordable cur eff q' = false) /\
  (forall fuel cur eff low high,
     0 <= low < high -> high <= 10 ^ 30 ->
     calculateCost cur ((low + high + 1) / 2 * DECIMALS) = None ->
     search (S fuel) cur eff low high =
       search fuel cur eff low ((low + high + 1) / 2 - 1)).
Proof.
  split.
  - apply calculateTokenAmountFromEth_spec.
  - intros fuel cur eff low high Hlh Hcap Hnone.
    rewrite search_mid by assumption. unfold affordable. rewrite Hnone.
    reflexivity.
Qed.

Lemma solver_returns_the_largest_affordable_quantity_witness :
  let cur := curveSupplyOf demo_bought 1000 in
  let maxTokens := (maxCurveRaw - cur) / DECIMALS in
  let eff := ether * (BPS_DENOMINATOR - FEE_BPS) / BPS_DENOMINATOR in
  exists q,
    calculateTokenAmountFromEth 1000 ether demo_bought = Ok (q, demo_bought) /\
    0 <= q <= maxTokens /\ affordable cur eff q = true /\
    forall q', q < q' <= maxTokens -> affordable cur eff q' = false.
Proof.
  apply (proj1 solver_returns_the_largest_affordable_quantity 1000 ether
           demo_bought).
  - vm_compute. reflexivity.
  - vm_compute. reflexivity.
  - vm_compute. split; discriminate.
  - vm_compute. discriminate.
  - vm_compute. reflexivity.
Defined.

(** C5 as stated fails for a payment so large that its product with 9900
    leaves the 256-bit range: the call aborts instead of returning. *)
Lemma solver_aborts_on_a_huge_payment :
  calculateTokenAmountFromEth 1000 U256.max demo_created = Err Panic.
Proof. vm_compute. reflexivity. Qed.

(** C6, as the code has it.  For a fixed supply [calculateCost] is
    non-decreasing in the amount, and strictly increasing between amounts at
    least 204046 raw units apart, so between different whole-token amounts.
    For a fixed amount of at least one token it is strictly higher at a
    supply that is a positive whole number of tokens higher, within the
    curve cap. *)
Theorem cost_is_monotone_on_whole_tokens :
  (forall c d d' v',
     0 <= c -> 0 <= d <= d' -> calculateCost c d' = Some v' ->
     exists v, calculateCost c d = Some v /\ v <= v' /\
               (204046 <= d' - d -> v < v')) /\
  (forall c d u,
     0 <= c -> DECIMALS <= d -> 1 <= u ->
     c + u * DECIMALS + d <= maxCurveRaw ->
     exists v v',
       calculateCost c d = Some v /\
       calculateCost (c + u * DECIMALS) d = Some v' /\ v < v').
Proof.
  split.
  - intros c d d' v' Hc Hd H.
    destruct (calculateCost_mono_amount c d' d v' Hc Hd H) as (v & Hv & Hle).
    exists v. split; [assumption|]. split; [lia|]. intros Hfar.
    destruct (calculateCost_strict_amount c d' d v' Hc Hd) as (v2 & Hv2 & Hlt);
      [|assumption|].
    + replace (c + d') with (c + d + (d' - d)) by ring.
      apply exponent_of_step. assumption.
    + assert (v2 = v) by congruence. lia.
  - apply calculateCost_strict_supply.
Qed.

Lemma cost_is_monotone_on_whole_tokens_witness :
  (exists v, calculateCost 0 DECIMALS = Some v /\ v <= 22801623221491478 /\
             (204046 <= 2 * DECIMALS - DECIMALS -> v < 22801623221491478)) /\
  (exists v v',
     calculateCost 0 DECIMALS = Some v /\
     calculateCost (0 + 1 * DECIMALS) DECIMALS = Some v' /\ v < v').
Proof.
  split.
  - apply (proj1 cost_is_monotone_on_whole_tokens 0 DECIMALS (2 * DECIMALS)
             22801623221491478).
    + lia.
    + vm_compute. split; discriminate.
    + vm_compute. reflexivity.
  - apply (proj2 cost_is_monotone_on_whole_tokens 0 DECIMALS 1).
    + lia.
    + lia.
    + lia.
    + vm_compute. discriminate.
Defined.

(** C6 as stated fails below that granularity: one more raw unit of amount
    can cost the same, and one more raw unit of supply can cost less. *)
Lemma cost_is_not_strictly_monotone_on_raw_units :
  (calculateCost 0 0 = Some 0 /\ calculateCost 0 1 = Some 0) /\
  (calculateCost 204045 1 = Some 2326 /\ calculateCost 204046 1 = Some 0).
Proof. repeat split; vm_compute; reflexivity. Qed.

(** * Further properties of the contracts *)

(** ** Pricing *)

Lemma refund_mirrors_cost_aux :
  (forall c d, 0 <= d <= c -> c < U256.modulus ->
     calculateRefund c d = calculateCost (c - d) d) /\
  (forall c d, c < d -> calculateRefund c d = None).
Proof.
  split.
  - intros c d Hd Hc. unfold calculateRefund, calculateCost.
    rewrite (proj2 (U256Facts.add_Some (c - d) d c)) by (split; lia).
    rewrite (proj2 (U256Facts.sub_Some c d (c - d))) by (split; lia).
    cbn [mbind option_bind].
    destruct (U256.mul K c) as [kc|]; [|reflexivity]. cbn [mbind option_bind].
    destruct (U256.div kc DECIMALS) as [x1|]; reflexivity.
  - intros c d Hlt. unfold calculateRefund.
    assert (U256.sub c d = None) as E.
    { unfold U256.sub. destruct (Z.leb_spec d c); [lia | reflexivity]. }
    rewrite E.
    destruct (U256.mul K c) as [kc|]; [|reflexivity]. cbn [mbind option_bind].
    destruct (U256.div kc DECIMALS) as [x1|]; reflexivity.
Qed.

(** X1. The gross refund for [d] units out of a supply [c] is the cost of [d]
    units on top of [c - d]; asking for more than the supply aborts. *)
Theorem refund_mirrors_cost :
  (forall c d, 0 <= d <= c -> c < U256.modulus ->
     calculateRefund c d = calculateCost (c - d) d) /\
  (forall c d, c < d -> calculateRefund c d = None).
Proof. exact refund_mirrors_cost_aux. Qed.

Lemma refund_mirrors_cost_witness :
  calculateRefund (3 * DECIMALS) DECIMALS
  = calculateCost (3 * DECIMALS - DECIMALS) DECIMALS
  /\ calculateRefund DECIMALS (3 * DECIMALS) = None.
Proof.
  split.
  - apply (proj1 refund_mirrors_cost (3 * DECIMALS) DECIMALS).
    + vm_compute. split; discriminate.
    + reflexivity.
  - apply (proj2 refund_mirrors_cost DECIMALS (3 * DECIMALS)). reflexivity.
Defined.

Lemma floor_split a b k :
  0 < k -> a / k + b / k <= (a + b) / k <= a / k + b / k + 1.
Proof. intros Hk. Z.div_mod_to_equations. nia. Qed.

(** X2. Splitting a purchase in two never costs more than buying at once, and
    saves at most one wei. *)
Theorem split_purchase_saves_at_most_one_wei c d1 d2 v :
  0 <= c -> 0 <= d1 -> 0 <= d2 ->
  calculateCost c (d1 + d2) = Some v ->
  exists v1 v2,
    calculateCost c d1 = Some v1 /\ calculateCost (c + d1) d2 = Some v2 /\
    v1 + v2 <= v <= v1 + v2 + 1.
Proof.
  intros Hc H1 H2 H.
  destruct (calculateCost_mono_amount c (d1 + d2) d1 v Hc ltac:(lia) H)
    as (v1 & Hv1 & _).
  apply calculateCost_Some in H
    as (e1 & e0 & B1 & B2 & B3 & He1 & He0 & Hle & Hm & ->).
  pose proof Hv1 as Hv1'.
  apply calculateCost_Some in Hv1
    as (em & e0' & _ & B4 & _ & Hem & He0' & Hlem & Hmm & ->).
  assert (e0' = e0) by congruence. subst e0'.
  destruct (exp_mono (exponent_of (c + d1)) (exponent_of (c + (d1 + d2))) e1)
    as (em' & Hem' & _ & Hgap); [|assumption|].
  { split; [apply exponent_of_nonneg; lia | apply exponent_of_mono; lia]. }
  assert (em' = em) by congruence. subst em'.
  pose proof (exponent_of_mono (c + d1) (c + (d1 + d2)) ltac:(lia)).
  assert (0 < INITIAL_PRICE) by reflexivity. pose proof K_pos.
  exists (INITIAL_PRICE * (em - e0) / K), (INITIAL_PRICE * (e1 - em) / K).
  split; [assumption|]. split.
  - apply calculateCost_Some. exists e1, em.
    replace (c + d1 + d2) with (c + (d1 + d2)) by ring.
    repeat split; try assumption; try lia; nia.
  - replace (INITIAL_PRICE * (e1 - e0))
      with (INITIAL_PRICE * (em - e0) + INITIAL_PRICE * (e1 - em)) by ring.
    apply floor_split. assumption.
Qed.

Lemma split_purchase_saves_at_most_one_wei_witness :
  exists v1 v2,
    calculateCost 0 DECIMALS = Some v1 /\
    calculateCost (0 + DECIMALS) (2 * DECIMALS) = Some v2 /\
    v1 + v2 <= 34202518643236019 <= v1 + v2 + 1.
Proof.
  apply (split_purchase_saves_at_most_one_wei 0 DECIMALS (2 * DECIMALS)
           34202518643236019).
  - lia.
  - vm_compute. discriminate.
  - vm_compute. discriminate.
  - vm_compute. reflexivity.
Defined.

(** X3. Where [exp] evaluates it evaluates on every smaller exponent, is
    non-decreasing, grows at least as fast as its argument, and is at least
    [1e18 + x]. *)
Theorem exp_grows_with_its_argument x y v :
  0 <= x <= y -> exp y = Some v ->
  exists u, exp x = Some u /\ DECIMALS + x <= u /\ y - x <= v - u.
Proof.
  intros Hxy H.
  destruct (exp_mono x y v Hxy H) as (u & Hu & _ & Hgap).
  exists u. split; [assumption|]. split; [|assumption].
  destruct (exp_mono 0 x u ltac:(lia) Hu) as (u0 & Hu0 & Hge & Hgap0).
  lia.
Qed.

Lemma exp_grows_with_its_argument_witness :
  exists u, exp K = Some u /\ DECIMALS + K <= u
            /\ K * 800000 - K <= 50435252932401309679 - u.
Proof.
  apply (exp_grows_with_its_argument K (K * 800000) 50435252932401309679).
  - vm_compute. split; discriminate.
  - vm_compute. reflexivity.
Defined.

(** ** Quoting and trading *)

Lemma fee_on_top_fits c E :
  0 <= c -> 0 <= E ->
  c <= E * (BPS_DENOMINATOR - FEE_BPS) / BPS_DENOMINATOR ->
  c + feeOf c <= E.
Proof.
  unfold feeOf.
  change (BPS_DENOMINATOR - FEE_BPS) with 9900.
  change BPS_DENOMINATOR with 10000. change FEE_BPS with 100.
  intros Hc HE Hle. Z.div_mod_to_equations. lia.
Qed.

(** X4. What [calculateTokenAmountFromEth] quotes for a payment can be bought
    with that payment: the quantity is not clamped, its cost evaluates, and
    cost plus trading fee is at most the payment. *)
Theorem quoted_quantity_is_payable a ethAmount w q w' :
  0 <= curveSupplyOf w a -> 0 <= ethAmount ->
  calculateTokenAmountFromEth a ethAmount w = Ok (q, w') ->
  w' = w /\ buyRawOf w a q = q * DECIMALS /\
  exists cost,
    calculateCost (curveSupplyOf w a) (q * DECIMALS) = Some cost /\
    cost + feeOf cost <= ethAmount.
Proof.
  intros Hcur HE H. pose proof H as H0.
  unfold calculateTokenAmountFromEth in H. minv H.
  - assert (Hr : 0 <= curveSupplyOf w a <= maxCurveRaw)
      by (uclean; lia).
    split; [reflexivity|]. split.
    + unfold buyRawOf. rewrite Z.mul_0_l.
      destruct (Z.ltb_spec (maxCurveRaw - curveSupplyOf w a) 0); [lia|reflexivity].
    + rewrite Z.mul_0_l.
      destruct (calculateCost_total (curveSupplyOf w a) 0) as (v & Hv & _);
        [lia..|].
      exists v. split; [assumption|].
      rewrite (calculateCost_zero (curveSupplyOf w a) 0 v)
        by (rewrite ?Z.add_0_r; auto).
      change (feeOf 0) with 0. lia.
  - apply negb_true_iff in Hb0.
    assert (Hr : 0 <= curveSupplyOf w a <= maxCurveRaw).
    { apply U256Facts.sub_Some in Hc as [? _]. lia. }
    assert (Hov : ethAmount * (BPS_DENOMINATOR - FEE_BPS) < U256.modulus).
    { apply U256Facts.mul_Some in Hc1 as [? _]. assumption. }
    destruct (calculateTokenAmountFromEth_spec a ethAmount w Hb Hb0 Hr HE Hov)
      as (q' & Hq' & Hrange & Haff & _).
    rewrite Hq' in H0.
    match type of H0 with
    | _ = Ok (?r, _) => assert (E : r = q') by congruence; rewrite E; clear E
    end.
    split; [reflexivity|].
    assert (Hfit : q' * DECIMALS <= maxCurveRaw - curveSupplyOf w a).
    { pose proof DECIMALS_pos.
      pose proof (Z.mul_div_le (maxCurveRaw - curveSupplyOf w a) DECIMALS
                    ltac:(lia)).
      nia. }
    split.
    + unfold buyRawOf.
      destruct (Z.ltb_spec (maxCurveRaw - curveSupplyOf w a) (q' * DECIMALS));
        [lia | reflexivity].
    + unfold affordable in Haff.
      destruct (calculateCost (curveSupplyOf w a) (q' * DECIMALS))
        as [c|] eqn:Ec; [|discriminate].
      exists c. split; [reflexivity|].
      apply fee_on_top_fits; [eapply calculateCost_nonneg; eassumption | lia | lia].
Qed.

Lemma quoted_quantity_is_payable_witness :
  demo_bought = demo_bought /\
  buyRawOf demo_bought 1000 86 = 86 * DECIMALS /\
  exists cost,
    calculateCost (curveSupplyOf demo_bought 1000) (86 * DECIMALS) = Some cost /\
    cost + feeOf cost <= ether.
Proof.
  apply (quoted_quantity_is_payable 1000 ether demo_bought 86 demo_bought).
  - vm_compute. discriminate.
  - vm_compute. discriminate.
  - vm_compute. reflexivity.
Defined.

(** X5. Buying a quantity and selling it back, with no graduation in between,
    puts [curveSupply] and [fundingRaised] back where they were; the trader
    paid cost plus fee and got cost minus fee, and the two fees stay in the
    factory as protocol fees. *)
Theorem buy_then_sell_round_trip
    env env' sender timestamp timestamp' value a qty w ret w1 ret2 w2 :
  0 <= curveSupplyOf w a ->
  buyMemeToken env sender timestamp value a qty w = Ok (ret, w1) ->
  buyRawOf w a qty = qty * DECIMALS ->
  isLaunched (memeTokenOf w1 a) = false ->
  sellMemeToken env' sender timestamp' a qty w1 = Ok (ret2, w2) ->
  exists cost,
    calculateCost (curveSupplyOf w a) (qty * DECIMALS) = Some cost /\
    ret = cost + feeOf cost /\ ret2 = cost - feeOf cost /\
    curveSupplyOf w2 a = curveSupplyOf w a /\
    fundingRaised (memeTokenOf w2 a) = fundingRaised (memeTokenOf w a) /\
    protocolFeeBalance w2 = protocolFeeBalance w + 2 * feeOf cost /\
    balance w2 = balance w + 2 * feeOf cost.
Proof.
  intros Hcur Hbuy Hraw Hopen Hsell.
  apply buyMemeToken_Ok in Hbuy as (cost & tk & B).
  apply sellMemeToken_Ok in Hsell as (refund & tk' & S).
  destruct B as [_ _ _ Broom _ Bpos Bcost Bret _ _ Bsupply Basset Bfees _ _
                 Bbal _ _].
  destruct S as [_ _ _ _ _ _ _ Srefund _ Sret _ Ssupply Sasset Sfees _ _
                 Sbal _ _].
  rewrite Hraw in *. cbv zeta in Bbal.
  assert (M1 : memeTokenOf w1 a =
               if graduates w a cost (qty * DECIMALS)
               then set_fundingRaised 0 (set_isLaunched true (memeTokenOf w a))
               else set_fundingRaised (fundingRaised (memeTokenOf w a) + cost)
                      (memeTokenOf w a)).
  { rewrite (memeTokenOf_insert _ _ _ a _ Basset).
    rewrite decide_True by reflexivity. reflexivity. }
  destruct (graduates w a cost (qty * DECIMALS)) eqn:G.
  { rewrite M1 in Hopen. discriminate. }
  assert (C1 : curveSupplyOf w1 a = curveSupplyOf w a + qty * DECIMALS).
  { rewrite (curveSupplyOf_insert _ _ _ a _ Bsupply).
    rewrite decide_True by reflexivity. reflexivity. }
  rewrite C1 in Srefund, Ssupply.
  assert (Hfit : curveSupplyOf w a + qty * DECIMALS < U256.modulus).
  { assert (maxCurveRaw < U256.modulus) by reflexivity.
    pose proof (buyRawOf_le w a qty). lia. }
  rewrite (proj1 refund_mirrors_cost_aux) in Srefund by lia.
  replace (curveSupplyOf w a + qty * DECIMALS - qty * DECIMALS)
    with (curveSupplyOf w a) in Srefund by ring.
  assert (refund = cost) by congruence. subst refund.
  exists cost. split; [assumption|]. split; [assumption|].
  split; [assumption|]. split.
  { rewrite (curveSupplyOf_insert _ _ _ a _ Ssupply).
    rewrite decide_True by reflexivity. ring. }
  split.
  { rewrite (memeTokenOf_insert _ _ _ a _ Sasset).
    rewrite decide_True by reflexivity. rewrite M1.
    cbn [fundingRaised set_fundingRaised]. ring. }
  split; [lia | lia].
Qed.

Lemma buy_then_sell_round_trip_witness :
  exists cost,
    calculateCost (curveSupplyOf demo_created 1000) (3 * DECIMALS) = Some cost /\
    34544543829668379 = cost + feeOf cost /\
    33860493456803659 = cost - feeOf cost /\
    curveSupplyOf demo_sold_back 1000 = curveSupplyOf demo_created 1000 /\
    fundingRaised (memeTokenOf demo_sold_back 1000)
    = fundingRaised (memeTokenOf demo_created 1000) /\
    protocolFeeBalance demo_sold_back
    = protocolFeeBalance demo_created + 2 * feeOf cost /\
    balance demo_sold_back = balance demo_created + 2 * feeOf cost.
Proof.
  apply (buy_then_sell_round_trip (demo_env 0) (demo_env 0) 7 101 102
           (2 * ether) 1000 3 demo_created 34544543829668379 demo_bought
           33860493456803659 demo_sold_back).
  - vm_compute. discriminate.
  - vm_compute. reflexivity.
  - vm_compute. reflexivity.
  - vm_compute. reflexivity.
  - vm_compute. reflexivity.
Defined.

(** X6. Trading neither creates nor loses funds: a successful buy or sell
    changes the factory's balance by exactly the change of the protocol fees
    plus the change of the asset's reserve (at graduation the reserve that
    leaves as liquidity is what the balance loses), and touches the reserve
    of no other asset. *)
Theorem trading_conserves_funds :
  (forall env sender timestamp value a qty w ret w',
     buyMemeToken env sender timestamp value a qty w = Ok (ret, w') ->
     balance w' - (protocolFeeBalance w' + fundingRaised (memeTokenOf w' a))
     = balance w - (protocolFeeBalance w + fundingRaised (memeTokenOf w a))
     /\ forall b, b <> a -> memeTokenOf w' b = memeTokenOf w b) /\
  (forall env sender timestamp a qty w ret w',
     sellMemeToken env sender timestamp a qty w = Ok (ret, w') ->
     balance w' - (protocolFeeBalance w' + fundingRaised (memeTokenOf w' a))
     = balance w - (protocolFeeBalance w + fundingRaised (memeTokenOf w a))
     /\ forall b, b <> a -> memeTokenOf w' b = memeTokenOf w b).
Proof.
  split.
  - intros env sender timestamp value a qty w ret w' H.
    apply buyMemeToken_Ok in H as (cost & tk & B).
    destruct B as [_ _ _ _ _ _ _ Bret _ _ _ Basset Bfees _ _ Bbal _ _].
    cbv zeta in Bbal. split.
    + rewrite (memeTokenOf_insert _ _ _ a _ Basset).
      rewrite decide_True by reflexivity.
      destruct (graduates _ _ _ _);
        cbn [fundingRaised set_fundingRaised set_isLaunched]; lia.
    + intros b Hb. rewrite (memeTokenOf_insert _ _ _ b _ Basset).
      rewrite decide_False by congruence. reflexivity.
  - intros env sender timestamp a qty w ret w' H.
    apply sellMemeToken_Ok in H as (refund & tk & S).
    destruct S as [_ _ _ _ _ _ _ _ _ Sret _ _ Sasset Sfees _ _ Sbal _ _].
    split.
    + rewrite (memeTokenOf_insert _ _ _ a _ Sasset).
      rewrite decide_True by reflexivity.
      cbn [fundingRaised set_fundingRaised]. lia.
    + intros b Hb. rewrite (memeTokenOf_insert _ _ _ b _ Sasset).
      rewrite decide_False by congruence. reflexivity.
Qed.

Lemma trading_conserves_funds_witness :
  (balance demo_launched
   - (protocolFeeBalance demo_launched
      + fundingRaised (memeTokenOf demo_launched 1000))
   = balance demo_created
     - (protocolFeeBalance demo_created
        + fundingRaised (memeTokenOf demo_created 1000))
   /\ forall b, b <> 1000 -> memeTokenOf demo_launched b = memeTokenOf demo_created b)
  /\
  (balance demo_sold_back
   - (protocolFeeBalance demo_sold_back
      + fundingRaised (memeTokenOf demo_sold_back 1000))
   = balance demo_bought
     - (protocolFeeBalance demo_bought
        + fundingRaised (memeTokenOf demo_bought 1000))
   /\ forall b, b <> 1000 -> memeTokenOf demo_sold_back b = memeTokenOf demo_bought b).
Proof.
  split.
  - apply (proj1 trading_conserves_funds (demo_env 0) 7 101 (200000 * ether)
             1000 800001 demo_created 116149999838690607410941 demo_launched).
    vm_compute. reflexivity.
  - apply (proj2 trading_conserves_funds (demo_env 0) 7 102 1000 3 demo_bought
             33860493456803659 demo_sold_back).
    vm_compute. reflexivity.
Defined.

(** ** Invariants of the curve ledger *)

Lemma calculateRefund_nonneg c d v :
  0 <= d -> c < U256.modulus -> calculateRefund c d = Some v -> 0 <= v.
Proof.
  intros Hd Hc H. destruct (Z_lt_le_dec c d) as [Hlt|Hle].
  - rewrite (proj2 refund_mirrors_cost_aux c d Hlt) in H. discriminate.
  - rewrite (proj1 refund_mirrors_cost_aux c d) in H by lia.
    eapply calculateCost_nonneg. eassumption.
Qed.

Lemma ledger_inv_kept w w' :
  ledger_kept w w' -> ledger_inv w -> ledger_inv w'.
Proof.
  intros (Ha & Hc & _) Hi a.
  rewrite (memeTokenOf_kept w w' a Ha), (curveSupplyOf_kept w w' a Hc).
  apply Hi.
Qed.

Lemma maxCurveRaw_whole : maxCurveRaw mod DECIMALS = 0.
Proof. reflexivity. Qed.

Lemma buyRawOf_whole w a qty :
  curveSupplyOf w a mod DECIMALS = 0 ->
  (curveSupplyOf w a + buyRawOf w a qty) mod DECIMALS = 0.
Proof.
  intros Hm. unfold buyRawOf.
  destruct (maxCurveRaw - curveSupplyOf w a <? qty * DECIMALS).
  - replace (curveSupplyOf w a + (maxCurveRaw - curveSupplyOf w a))
      with maxCurveRaw by ring. apply maxCurveRaw_whole.
  - rewrite Z.mod_add by discriminate. assumption.
Qed.

Lemma buy_ledger_inv env sender timestamp value a qty w ret w' :
  buyMemeToken env sender timestamp value a qty w = Ok (ret, w') ->
  ledger_inv w -> ledger_inv w'.
Proof.
  intros H Hi. apply buyMemeToken_Ok in H as (cost & tk & B).
  destruct B as [_ _ Bopen _ _ _ _ _ _ _ Bsupply Basset _ _ _ _ _ _].
  intros b.
  rewrite (memeTokenOf_insert _ _ _ b _ Basset).
  rewrite (curveSupplyOf_insert _ _ _ b _ Bsupply).
  destruct (decide (a = b)) as [E|Hne];
    [subst b; rewrite !decide_True by reflexivity
    |rewrite !decide_False by assumption; apply Hi].
  destruct (Hi a) as (Hm & _ & _).
  split; [apply buyRawOf_whole; assumption|].
  destruct (graduates w a cost (buyRawOf w a qty)) eqn:G;
    cbn [isLaunched fundingRaised set_fundingRaised set_isLaunched].
  - split; [discriminate | reflexivity].
  - unfold graduates in G. apply orb_false_iff in G as [G1 G2].
    split; [intros _; lia|]. rewrite Bopen. discriminate.
Qed.

Lemma sell_ledger_inv env sender timestamp a qty w ret w' :
  sellMemeToken env sender timestamp a qty w = Ok (ret, w') ->
  0 <= qty -> wf w -> ledger_inv w -> ledger_inv w'.
Proof.
  intros H Hq [_ Hw] Hi. apply sellMemeToken_Ok in H as (refund & tk & S).
  destruct S as [_ _ Sopen _ _ _ Ssold Srefund _ _ _ Ssupply Sasset _ _ _ _ _ _].
  intros b.
  rewrite (memeTokenOf_insert _ _ _ b _ Sasset).
  rewrite (curveSupplyOf_insert _ _ _ b _ Ssupply).
  destruct (decide (a = b)) as [E|Hne];
    [subst b; rewrite !decide_True by reflexivity
    |rewrite !decide_False by assumption; apply Hi].
  destruct (Hi a) as (Hm & Hroom & _). destruct (Hroom Sopen) as [Hr1 Hr2].
  destruct (Hw a) as (_ & Hc & _).
  pose proof DECIMALS_pos.
  assert (0 <= refund).
  { apply (calculateRefund_nonneg (curveSupplyOf w a) (qty * DECIMALS));
      [nia | | assumption].
    assert (maxCurveRaw < U256.modulus) by reflexivity. lia. }
  cbn [isLaunched fundingRaised set_fundingRaised].
  split.
  - replace (curveSupplyOf w a - qty * DECIMALS)
      with (curveSupplyOf w a + (- qty) * DECIMALS) by ring.
    rewrite Z.mod_add by discriminate. assumption.
  - split; [intros _; split; [nia | lia]|]. rewrite Sopen. discriminate.
Qed.

Lemma create_ledger_inv env sender timestamp value n s i d w t w' :
  createMemeToken env sender timestamp value n s i d w = Ok (t, w') ->
  wf w -> ledger_inv w -> ledger_inv w'.
Proof.
  intros H [_ Hw] Hi. unfold_calls H. minv H.
  match goal with
  | B : bool_decide _ = false |- _ =>
      apply bool_decide_eq_false in B; rename B into Hfresh
  end.
  intros a. unfold memeTokenOf, curveSupplyOf. wsimpl.
  rewrite lookup_insert.
  destruct (decide (env_create env = a)) as [<-|Hne].
  - cbn [default from_option id fundingRaised isLaunched].
    fold (curveSupplyOf w (env_create env)).
    destruct (Hi (env_create env)) as (Hm & Hroom & _).
    split; [assumption|]. split; [|discriminate]. intros _.
    split; [|reflexivity].
    destruct (isLaunched (memeTokenOf w (env_create env))) eqn:L.
    + destruct (Hw (env_create env)) as (_ & _ & Hk).
      destruct (Hk L) as [_ Htok]. contradiction.
    + apply Hroom. reflexivity.
  - fold (memeTokenOf w a). fold (curveSupplyOf w a). apply Hi.
Qed.

Lemma run_ledger_inv env sender timestamp c w r w' :
  run env sender timestamp c w = Ok (r, w') ->
  call_wf c -> wf w -> ledger_inv w -> ledger_inv w'.
Proof.
  intros H Hc Hw Hi. destruct c; cbn [run call_wf] in *.
  - eapply create_ledger_inv; eassumption.
  - eapply buy_ledger_inv; eassumption.
  - eapply sell_ledger_inv; [eassumption | apply Hc | assumption | assumption].
  - apply bind_Ok in H as (? & ? & H & H'). apply ret_Ok in H'.
    injection H' as _ <-. apply setListingFee_kept in H.
    eapply ledger_inv_kept; eassumption.
  - apply bind_Ok in H as (? & ? & H & H'). apply ret_Ok in H'.
    injection H' as _ <-. apply withdrawProtocolFees_kept in H.
    eapply ledger_inv_kept; eassumption.
  - apply bind_Ok in H as (? & ? & H & H'). apply ret_Ok in H'.
    injection H' as _ <-. apply withdrawFees_kept in H.
    eapply ledger_inv_kept; eassumption.
  - apply bind_Ok in H as (? & ? & H & H'). apply ret_Ok in H'.
    injection H' as _ <-. apply transfer_kept in H.
    eapply ledger_inv_kept; eassumption.
  - apply bind_Ok in H as (? & ? & H & H'). apply ret_Ok in H'.
    injection H' as _ <-. apply approve_kept in H.
    eapply ledger_inv_kept; eassumption.
  - apply bind_Ok in H as (? & ? & H & H'). apply ret_Ok in H'.
    injection H' as _ <-. apply transferFrom_kept in H.
    eapply ledger_inv_kept; eassumption.
  - apply bind_Ok in H as (? & ? & H & H'). apply ret_Ok in H'.
    injection H' as _ <-. apply setFactory_kept in H.
    eapply ledger_inv_kept; eassumption.
Qed.

Lemma reachable_ledger_inv w : reachable w -> ledger_inv w.
Proof.
  induction 1 as [sender f r fee self w _ Hw | w w' Hr IH Hs].
  - unfold constructor in Hw. destruct (f =? 0); [discriminate|].
    destruct (r =? 0); [discriminate|]. injection Hw as <-.
    intros a. unfold memeTokenOf, curveSupplyOf.
    cbn [addressToMemeToken curveSupply]. rewrite !lookup_empty.
    cbn [default from_option id noMemeToken fundingRaised isLaunched].
    split; [reflexivity|]. split; [|discriminate]. intros _.
    split; vm_compute; reflexivity.
  - destruct Hs as [env sender ts c _ Hc]. unfold exec, transact.
    destruct (run env sender ts c w) as [[r w']|e] eqn:R; cbn [fst];
      [|assumption].
    eapply run_ledger_inv; eauto using reachable_wf.
Qed.

(** X7. In every reachable world the supply sold on a curve is a whole number
    of tokens, so the exponent the pricing starts from is exact:
    [K * curveSupply / 1e18] loses nothing to truncation. *)
Theorem curve_supply_is_whole_tokens w a :
  reachable w ->
  curveSupplyOf w a mod DECIMALS = 0 /\
  exponent_of (curveSupplyOf w a) * DECIMALS = K * curveSupplyOf w a.
Proof.
  intros Hr. destruct (reachable_ledger_inv w Hr a) as (Hm & _).
  split; [assumption|]. unfold exponent_of.
  apply Z.mod_divide in Hm; [|discriminate]. destruct Hm as [n Hn].
  rewrite Hn, Z.mul_assoc, Z.div_mul by discriminate. ring.
Qed.

Lemma curve_supply_is_whole_tokens_witness :
  curveSupplyOf demo_singles 1000 mod DECIMALS = 0 /\
  exponent_of (curveSupplyOf demo_singles 1000) * DECIMALS
  = K * curveSupplyOf demo_singles 1000.
Proof.
  apply (curve_supply_is_whole_tokens demo_singles 1000).
  apply demo_singles_reachable.
Defined.

(** X8. In every reachable world an asset that is not launched has supply left
    on its curve and a reserve below the funding goal: the graduation of a
    buy never leaves a sold-out or fully funded asset open, and the
    ["Curve complete"] check of [buyMemeToken] cannot fail. *)
Theorem open_assets_have_room w a :
  reachable w -> isLaunched (memeTokenOf w a) = false ->
  0 < maxCurveRaw - curveSupplyOf w a /\
  fundingRaised (memeTokenOf w a) < MEMECOIN_FUNDING_GOAL.
Proof.
  intros Hr Ho. destruct (reachable_ledger_inv w Hr a) as (_ & Hroom & _).
  destruct (Hroom Ho). split; lia.
Qed.

Lemma open_assets_have_room_witness :
  0 < maxCurveRaw - curveSupplyOf demo_singles 1000 /\
  fundingRaised (memeTokenOf demo_singles 1000) < MEMECOIN_FUNDING_GOAL.
Proof.
  apply (open_assets_have_room demo_singles 1000).
  - apply demo_singles_reachable.
  - vm_compute. reflexivity.
Defined.

Lemma kept_frozen w w' a :
  ledger_kept w w' ->
  memeTokenOf w' a = memeTokenOf w a /\ curveSupplyOf w' a = curveSupplyOf w a.
Proof.
  intros (Ha & Hc & _).
  split; [apply memeTokenOf_kept | apply curveSupplyOf_kept]; assumption.
Qed.

Lemma run_frozen env sender timestamp c w r w' a :
  run env sender timestamp c w = Ok (r, w') ->
  wf w -> isLaunched (memeTokenOf w a) = true ->
  memeTokenOf w' a = memeTokenOf w a /\ curveSupplyOf w' a = curveSupplyOf w a.
Proof.
  intros H [_ Hw] L. destruct c; cbn [run] in *.
  - unfold_calls H. minv H.
    match goal with
    | B : bool_decide _ = false |- _ =>
        apply bool_decide_eq_false in B; rename B into Hfresh
    end.
    assert (env_create env <> a).
    { intros E. subst a. destruct (Hw (env_create env)) as (_ & _ & Hk).
      destruct (Hk L). contradiction. }
    unfold memeTokenOf, curveSupplyOf. wsimpl.
    rewrite lookup_insert_ne by assumption. split; reflexivity.
  - apply buyMemeToken_Ok in H as (cost & tk & B).
    destruct B as [_ _ Bopen _ _ _ _ _ _ _ Bsupply Basset _ _ _ _ _ _].
    assert (tokenAddr <> a) by (intros ->; congruence).
    rewrite (memeTokenOf_insert _ _ _ a _ Basset).
    rewrite (curveSupplyOf_insert _ _ _ a _ Bsupply).
    rewrite !decide_False by assumption. split; reflexivity.
  - apply sellMemeToken_Ok in H as (refund & tk & S).
    destruct S as [_ _ Sopen _ _ _ _ _ _ _ _ Ssupply Sasset _ _ _ _ _ _].
    assert (tokenAddr <> a) by (intros ->; congruence).
    rewrite (memeTokenOf_insert _ _ _ a _ Sasset).
    rewrite (curveSupplyOf_insert _ _ _ a _ Ssupply).
    rewrite !decide_False by assumption. split; reflexivity.
  - apply bind_Ok in H as (? & ? & H & H'). apply ret_Ok in H'.
    injection H' as _ <-. apply kept_frozen. eapply setListingFee_kept; eassumption.
  - apply bind_Ok in H as (? & ? & H & H'). apply ret_Ok in H'.
    injection H' as _ <-. apply kept_frozen.
    eapply withdrawProtocolFees_kept; eassumption.
  - apply bind_Ok in H as (? & ? & H & H'). apply ret_Ok in H'.
    injection H' as _ <-. apply kept_frozen. eapply withdrawFees_kept; eassumption.
  - apply bind_Ok in H as (? & ? & H & H'). apply ret_Ok in H'.
    injection H' as _ <-. apply kept_frozen. eapply transfer_kept; eassumption.
  - apply bind_Ok in H as (? & ? & H & H'). apply ret_Ok in H'.
    injection H' as _ <-. apply kept_frozen. eapply approve_kept; eassumption.
  - apply bind_Ok in H as (? & ? & H & H'). apply ret_Ok in H'.
    injection H' as _ <-. apply kept_frozen. eapply transferFrom_kept; eassumption.
  - apply bind_Ok in H as (? & ? & H & H'). apply ret_Ok in H'.
    injection H' as _ <-. apply kept_frozen. eapply setFactory_kept; eassumption.
Qed.

(** X9. Graduation freezes an asset: in a reachable world a launched asset has
    [fundingRaised = 0], and whatever transactions follow, its record
    (metadata, reserve, flag) and its [curveSupply] never change again. *)
Theorem launched_assets_are_frozen w w' a :
  reachable w -> isLaunched (memeTokenOf w a) = true -> rtc step w w' ->
  fundingRaised (memeTokenOf w a) = 0 /\
  memeTokenOf w' a = memeTokenOf w a /\
  curveSupplyOf w' a = curveSupplyOf w a.
Proof.
  intros Hr L Hs. split.
  { destruct (reachable_ledger_inv w Hr a) as (_ & _ & Hz). apply Hz. exact L. }
  apply reachable_wf in Hr. clear -Hr L Hs.
  induction Hs as [w|w w1 w2 Hs1 _ IH]; [split; reflexivity|].
  destruct Hs1 as [env sender ts c _ Hc].
  pose proof (exec_wf env sender ts c w Hc Hr) as [Hw1 Hl].
  assert (F : memeTokenOf (exec env sender ts c w) a = memeTokenOf w a /\
              curveSupplyOf (exec env sender ts c w) a = curveSupplyOf w a).
  { unfold exec, transact.
    destruct (run env sender ts c w) as [[r w']|e] eqn:R; cbn [fst];
      [|split; reflexivity].
    eapply run_frozen; eassumption. }
  destruct F as [F1 F2]. destruct (IH Hw1 (Hl a L)) as [I1 I2].
  split; congruence.
Qed.

Lemma reachable_demo_launched : reachable demo_launched.
Proof.
  apply (reachable_step demo_created); [apply demo_created_reachable|].
  apply step_call.
  - vm_compute. discriminate.
  - split; apply in_range_intro; reflexivity.
Qed.

Lemma launched_assets_are_frozen_witness :
  fundingRaised (memeTokenOf demo_launched 1000) = 0 /\
  memeTokenOf
    (exec (demo_env 0) 8 200 (BuyMemeToken ether 1000 1) demo_launched) 1000
  = memeTokenOf demo_launched 1000 /\
  curveSupplyOf
    (exec (demo_env 0) 8 200 (BuyMemeToken ether 1000 1) demo_launched) 1000
  = curveSupplyOf demo_launched 1000.
Proof.
  apply (launched_assets_are_frozen demo_launched).
  - apply reachable_demo_launched.
  - vm_compute. reflexivity.
  - apply rtc_once. apply step_call.
    + vm_compute. discriminate.
    + split; apply in_range_intro; reflexivity.
Defined.

(** ** The token contract *)

Lemma transfer_Ok sender token to amount w b w' :
  Token.transfer sender token to amount w = Ok (b, w') ->
  exists tk,
    tokens w !! token = Some tk /\ sender <> 0 /\ to <> 0 /\
    amount <= Token.balance_in tk sender /\ b = true /\
    w' = set_log (log w ++ [Transfer token sender to amount])
           (set_tokens (<[token := moved tk sender to amount]> (tokens w)) w).
Proof.
  intros H. unfold Token.transfer, Token._transfer in H. minv H.
  eexists. split; [eassumption|].
  split; [lia|]. split; [lia|]. split; [lia|]. split; [reflexivity|].
  uclean. reflexivity.
Qed.

Lemma approve_Ok sender token spender amount w b w' :
  Token.approve sender token spender amount w = Ok (b, w') ->
  exists tk,
    tokens w !! token = Some tk /\ sender <> 0 /\ spender <> 0 /\ b = true /\
    w' = set_log (log w ++ [Approval token sender spender amount])
           (set_tokens
              (<[token := Token.set_allowance sender spender amount tk]>
                 (tokens w)) w).
Proof.
  intros H. unfold Token.approve, Token._approve in H. minv H.
  eexists. split; [eassumption|].
  split; [lia|]. split; [lia|]. split; reflexivity.
Qed.

Lemma transferFrom_Ok sender token from to amount w b w' :
  Token.transferFrom sender token from to amount w = Ok (b, w') ->
  exists tk,
    tokens w !! token = Some tk /\ from <> 0 /\ to <> 0 /\ sender <> 0 /\
    amount <= Token.allowance_in tk from sender /\
    amount <= Token.balance_in tk from /\ b = true /\
    w' = set_log (log w ++ [Approval token from sender
                              (Token.allowance_in tk from sender - amount);
                            Transfer token from to amount])
           (set_tokens
              (<[token := moved
                            (Token.set_allowance from sender
                               (Token.allowance_in tk from sender - amount) tk)
                            from to amount]> (tokens w)) w).
Proof.
  intros H. unfold Token.transferFrom in H.
  unfold Token._approve, Token._transfer in H. minv H. same_token.
  change (Token.balance_in (Token.set_allowance from sender
            (Token.allowance_in x4 from sender - amount) x4) from)
    with (Token.balance_in x4 from) in Hb4.
  eexists. split; [eassumption|].
  split; [lia|]. split; [lia|]. split; [lia|]. split; [lia|].
  split; [lia|]. split; [reflexivity|].
  uclean. unfold moved. cbn [set_log set_tokens tokens log this owner
    uniswapFactory uniswapRouter memeTokenAddresses addressToMemeToken
    curveSupply listingFee protocolFeeBalance _status balance].
  rewrite insert_insert_eq, <- app_assoc. reflexivity.
Qed.

Lemma setFactory_Ok token f w u w' :
  Token.setFactory token f w = Ok (u, w') ->
  exists tk,
    tokens w !! token = Some tk /\ tk_factoryLocked tk = false /\ f <> 0 /\
    w' = set_log (log w ++ [FactorySet token f])
           (set_tokens (<[token := Token.lock_factory f tk]> (tokens w)) w).
Proof.
  intros H. unfold Token.setFactory in H. minv H.
  eexists. split; [eassumption|].
  split; [apply negb_true_iff; assumption|]. split; [lia|]. reflexivity.
Qed.

Lemma balance_in_moved tk from to amount acct :
  Token.balance_in (moved tk from to amount) acct =
    Token.balance_in tk acct
    - (if decide (from = acct) then amount else 0)
    + (if decide (to = acct) then amount else 0).
Proof.
  unfold moved, Token.balance_in, Token.set_balance_of. cbn [tk_balances].
  destruct (decide (to = acct)) as [Ht|Ht];
    destruct (decide (from = acct)) as [Hf|Hf]; subst.
  - rewrite !lookup_insert_eq. cbn [default from_option id]. lia.
  - rewrite lookup_insert_eq, lookup_insert_ne by assumption.
    cbn [default from_option id]. lia.
  - rewrite lookup_insert_ne, lookup_insert_eq by assumption.
    cbn [default from_option id]. lia.
  - rewrite !lookup_insert_ne by assumption. lia.
Qed.

(** ** The registry and the tokens on a curve *)

Lemma createMemeToken_world env sender timestamp value n s i d w a w' :
  createMemeToken env sender timestamp value n s i d w = Ok (a, w') ->
  a = env_create env /\ tokens w !! a = None /\
  memeTokenAddresses w' = memeTokenAddresses w ++ [a] /\
  addressToMemeToken w' =
    <[a := mkMemeToken n s d i 0 a sender false]> (addressToMemeToken w) /\
  curveSupply w' = curveSupply w /\
  tokens w' = <[a := created n s (this w)]> (tokens w) /\
  this w' = this w /\ owner w' = owner w.
Proof.
  intros H. unfold_calls H. minv H.
  match goal with
  | B : bool_decide _ = false |- _ =>
      apply bool_decide_eq_false in B; rename B into Hfresh
  end.
  assert (Hnone : tokens w !! env_create env = None).
  { destruct (tokens w !! env_create env) eqn:E; [|reflexivity].
    exfalso. apply Hfresh. eauto. }
  unfold Token.balance_in in Hc2. cbn [tk_totalSupply tk_balances] in Hc1, Hc2.
  rewrite lookup_empty in Hc2. cbn [default from_option id] in Hc2.
  uclean. rewrite !Z.add_0_l.
  wsimpl. rewrite !insert_insert_eq.
  repeat (split; [reflexivity || assumption|]). reflexivity.
Qed.

Lemma sum_insert_fresh (m : gmap Z Z) k v :
  m !! k = None ->
  map_fold (fun _ v acc => v + acc) 0 (<[k := v]> m)
  = v + map_fold (fun _ v acc => v + acc) 0 m.
Proof.
  intros Hk. apply (map_fold_insert_L (fun _ v acc => v + acc)); [|assumption].
  intros. lia.
Qed.

Lemma sum_insert (m : gmap Z Z) k v :
  map_fold (fun _ v acc => v + acc) 0 (<[k := v]> m)
  = map_fold (fun _ v acc => v + acc) 0 m - default 0 (m !! k) + v.
Proof.
  destruct (m !! k) as [x|] eqn:E; cbn [default from_option id].
  - rewrite <- (insert_delete_id m k x E) at 2.
    rewrite <- insert_delete_eq.
    rewrite !sum_insert_fresh by apply lookup_delete_eq. lia.
  - rewrite sum_insert_fresh by assumption. lia.
Qed.

Lemma sum_balances_set_balance_of tk a v :
  sum_balances (Token.set_balance_of a v tk)
  = sum_balances tk - Token.balance_in tk a + v.
Proof. apply sum_insert. Qed.

Lemma sum_balances_moved tk from to n :
  sum_balances (moved tk from to n) = sum_balances tk.
Proof.
  unfold moved. cbv zeta. rewrite !sum_balances_set_balance_of. lia.
Qed.

Lemma sum_balances_minted tk to n :
  sum_balances (minted tk to n) = sum_balances tk + n.
Proof.
  unfold minted. rewrite sum_balances_set_balance_of.
  unfold sum_balances, Token.balance_in, Token.set_totalSupply.
  cbn [tk_balances]. lia.
Qed.

Lemma sum_balances_burned tk from n :
  sum_balances (burned tk from n) = sum_balances tk - n.
Proof.
  unfold burned.
  change (sum_balances (Token.set_totalSupply ?v ?t)) with (sum_balances t).
  rewrite sum_balances_set_balance_of. lia.
Qed.

Lemma sum_nonneg (m : gmap Z Z) :
  (forall k, 0 <= default 0 (m !! k)) ->
  0 <= map_fold (fun _ v acc => v + acc) 0 m.
Proof.
  induction m as [|k v m Hk IH] using map_ind; intros H.
  - rewrite map_fold_empty. reflexivity.
  - rewrite sum_insert_fresh by assumption.
    pose proof (H k) as Hv. rewrite lookup_insert_eq in Hv.
    cbn [default from_option id] in Hv.
    assert (0 <= map_fold (fun _ v acc => v + acc) 0 m); [|lia].
    apply IH. intros j. destruct (decide (k = j)) as [E|Hne].
    + subst j. rewrite Hk. reflexivity.
    + specialize (H j). rewrite lookup_insert_ne in H by assumption. exact H.
Qed.

Lemma balance_le_sum tk account :
  (forall a, 0 <= Token.balance_in tk a) ->
  Token.balance_in tk account <= sum_balances tk.
Proof.
  intros H. unfold sum_balances, Token.balance_in in *.
  destruct (tk_balances tk !! account) as [x|] eqn:E;
    cbn [default from_option id].
  - rewrite <- (insert_delete_id (tk_balances tk) account x E).
    rewrite sum_insert_fresh by apply lookup_delete_eq.
    assert (0 <= map_fold (fun _ v acc => v + acc) 0
                   (delete account (tk_balances tk))); [|lia].
    apply sum_nonneg. intros k. destruct (decide (account = k)) as [Ek|Hne].
    + subst k. rewrite lookup_delete_eq. reflexivity.
    + rewrite lookup_delete_ne by assumption. apply H.
  - apply sum_nonneg. exact H.
Qed.

Lemma balance_in_set_balance_of tk a v account :
  Token.balance_in (Token.set_balance_of a v tk) account =
    if decide (a = account) then v else Token.balance_in tk account.
Proof.
  unfold Token.balance_in, Token.set_balance_of. cbn [tk_balances].
  destruct (decide (a = account)) as [E|Hne].
  - subst a. rewrite lookup_insert_eq. reflexivity.
  - rewrite lookup_insert_ne by assumption. reflexivity.
Qed.

Lemma balance_in_minted tk to n account :
  Token.balance_in (minted tk to n) account =
    Token.balance_in tk account + (if decide (to = account) then n else 0).
Proof.
  unfold minted. rewrite balance_in_set_balance_of.
  change (Token.balance_in (Token.set_totalSupply ?v ?t) ?x)
    with (Token.balance_in t x).
  destruct (decide (to = account)) as [E|Hne];
    [subst to; rewrite ?decide_True by reflexivity; reflexivity
    |rewrite ?decide_False by assumption; lia].
Qed.

Lemma balance_in_burned tk from n account :
  Token.balance_in (burned tk from n) account =
    Token.balance_in tk account - (if decide (from = account) then n else 0).
Proof.
  unfold burned.
  change (Token.balance_in (Token.set_totalSupply ?v ?t) ?x)
    with (Token.balance_in t x).
  rewrite balance_in_set_balance_of.
  destruct (decide (from = account)) as [E|Hne];
    [subst from; rewrite ?decide_True by reflexivity; reflexivity
    |rewrite ?decide_False by assumption; lia].
Qed.

Lemma INIT_SUPPLY_nonneg : 0 <= INIT_SUPPLY.
Proof. vm_compute. discriminate. Qed.

Lemma created_curve_token n s self : curve_token self 0 (created n s self).
Proof.
  pose proof INIT_SUPPLY_nonneg.
  unfold curve_token.
  split; [reflexivity|]. split; [reflexivity|]. split; [reflexivity|].
  split; [unfold created; cbn [tk_totalSupply]; lia|].
  split.
  { unfold sum_balances, created. cbn [tk_balances tk_totalSupply].
    rewrite sum_insert_fresh by apply lookup_empty. rewrite map_fold_empty. lia. }
  assert (B : forall account,
            Token.balance_in (created n s self) account
            = if decide (self = account) then INIT_SUPPLY else 0).
  { intros account. unfold Token.balance_in, created. cbn [tk_balances].
    destruct (decide (self = account)) as [E|Hne].
    - subst self. rewrite lookup_insert_eq. reflexivity.
    - rewrite lookup_insert_ne by assumption. rewrite lookup_empty. reflexivity. }
  split; [intros account; rewrite B; destruct (decide (self = account)); lia|].
  split; [rewrite B, decide_True by reflexivity; lia|].
  intros sp. unfold Token.allowance_in, created. cbn [tk_allowances].
  rewrite lookup_empty. reflexivity.
Qed.

Lemma create_assets_inv env sender timestamp value n s i d w a w' :
  createMemeToken env sender timestamp value n s i d w = Ok (a, w') ->
  assets_inv w -> assets_inv w'.
Proof.
  intros H [[Hnd Hreg] Htok].
  apply createMemeToken_world in H
    as (_ & Hnone & Hl & Hm & Hc & Ht & Hs & _).
  assert (Hfresh : a ∉ memeTokenAddresses w).
  { intros Hin. destruct (proj1 (Hreg a) Hin) as [[tk E] _]. congruence. }
  destruct (proj2 (Hreg a) Hfresh) as (_ & _ & Hsold).
  split; [split|].
  - rewrite Hl. apply NoDup_app. split; [assumption|].
    split; [|apply NoDup_singleton].
    intros x Hx Hx'. apply list_elem_of_singleton in Hx'. subst x. contradiction.
  - intros b. rewrite Hl, Ht, (memeTokenOf_insert _ _ _ b _ Hm),
      (curveSupplyOf_kept _ _ b Hc), lookup_insert.
    rewrite elem_of_app, list_elem_of_singleton.
    destruct (decide (a = b)) as [E|Hne].
    + subst b. split; [intros _; split; [eauto | reflexivity]|].
      intros Hn. exfalso. apply Hn. right. reflexivity.
    + split.
      * intros [Hin|E]; [apply Hreg; assumption | congruence].
      * intros Hn. apply Hreg. intros Hin. apply Hn. left. assumption.
  - intros b tk. rewrite Ht, Hs, (memeTokenOf_insert _ _ _ b _ Hm),
      (curveSupplyOf_kept _ _ b Hc), lookup_insert.
    destruct (decide (a = b)) as [E|Hne].
    + subst b. intros _ [= <-]. rewrite Hsold. apply created_curve_token.
    + apply Htok.
Qed.

(** A call that touches one asset: its record, its supply and its token. *)
Lemma assets_inv_update w w' a mt' c' tk tk' :
  tokens w !! a = Some tk ->
  tokens w' = <[a := tk']> (tokens w) ->
  (forall b, memeTokenOf w' b = if decide (a = b) then mt' else memeTokenOf w b) ->
  (forall b, curveSupplyOf w' b = if decide (a = b) then c' else curveSupplyOf w b) ->
  memeTokenAddresses w' = memeTokenAddresses w ->
  this w' = this w ->
  tokenAddress mt' = tokenAddress (memeTokenOf w a) ->
  (isLaunched mt' = false ->
   isLaunched (memeTokenOf w a) = false /\
   (curve_token (this w) (curveSupplyOf w a) tk -> curve_token (this w) c' tk')) ->
  assets_inv w -> assets_inv w'.
Proof.
  intros Ht Ht' Hm Hc Hl Hs Ha Hk [[Hnd Hreg] Htok].
  assert (Hin : a ∈ memeTokenAddresses w).
  { destruct (decide (a ∈ memeTokenAddresses w)) as [|Hn]; [assumption|].
    destruct (proj2 (Hreg a) Hn) as (E & _). congruence. }
  split; [split|].
  - rewrite Hl. assumption.
  - intros b. rewrite Hl, Ht', Hm, Hc, lookup_insert.
    destruct (decide (a = b)) as [E|Hne].
    + subst b. split; [|intros Hn; contradiction].
      intros _. split; [eauto|]. rewrite Ha. apply Hreg. assumption.
    + apply Hreg.
  - intros b tkb. rewrite Ht', Hs, Hm, Hc, lookup_insert.
    destruct (decide (a = b)) as [E|Hne].
    + subst b. intros L [= <-]. destruct (Hk L) as [L0 Hstep].
      apply Hstep. apply Htok; assumption.
    + apply Htok.
Qed.

Lemma curve_token_minted self sold tk to n :
  to <> self -> 0 <= n -> curve_token self sold tk ->
  curve_token self (sold + n) (minted tk to n).
Proof.
  intros Hne Hn (H1 & H2 & H3 & H4 & Hsum & Hnn & H5 & H6).
  unfold curve_token. rewrite sum_balances_minted.
  split; [exact H1|]. split; [exact H2|]. split; [exact H3|].
  split; [change (tk_totalSupply tk + n = INIT_SUPPLY + (sold + n)); lia|].
  split; [change (sum_balances tk + n = tk_totalSupply tk + n); lia|].
  split.
  { intros account. rewrite balance_in_minted. pose proof (Hnn account).
    case_decide; lia. }
  split; [rewrite balance_in_minted, decide_False by assumption; lia|].
  exact H6.
Qed.

Lemma curve_token_burned self sold tk from n :
  from <> self -> n <= Token.balance_in tk from -> curve_token self sold tk ->
  curve_token self (sold - n) (burned tk from n).
Proof.
  intros Hne Hn (H1 & H2 & H3 & H4 & Hsum & Hnn & H5 & H6).
  unfold curve_token. rewrite sum_balances_burned.
  split; [exact H1|]. split; [exact H2|]. split; [exact H3|].
  split; [change (tk_totalSupply tk - n = INIT_SUPPLY + (sold - n)); lia|].
  split; [change (sum_balances tk - n = tk_totalSupply tk - n); lia|].
  split.
  { intros account. rewrite balance_in_burned. pose proof (Hnn account).
    case_decide; [subst account|]; lia. }
  split; [rewrite balance_in_burned, decide_False by assumption; lia|].
  exact H6.
Qed.

Lemma curve_token_moved self sold tk from to n :
  from <> self \/ n = 0 -> 0 <= n <= Token.balance_in tk from ->
  curve_token self sold tk ->
  curve_token self sold (moved tk from to n).
Proof.
  intros Hne Hn (H1 & H2 & H3 & H4 & Hsum & Hnn & H5 & H6).
  unfold curve_token. rewrite balance_in_moved, sum_balances_moved.
  split; [assumption|]. split; [assumption|]. split; [assumption|].
  split; [assumption|]. split; [assumption|].
  split.
  { intros account. rewrite balance_in_moved. pose proof (Hnn account).
    repeat case_decide; subst; lia. }
  split; [|assumption].
  repeat case_decide; lia.
Qed.

Lemma curve_token_set_allowance self sold tk o spender v :
  o <> self \/ v = 0 -> curve_token self sold tk ->
  curve_token self sold (Token.set_allowance o spender v tk).
Proof.
  intros Hne (H1 & H2 & H3 & H4 & Hsum & Hnn & H5 & H6).
  unfold curve_token, sum_balances, Token.balance_in, Token.allowance_in in *.
  cbn [tk_factory tk_factoryLocked tk_maxSupply tk_totalSupply tk_balances
       tk_allowances Token.set_allowance].
  repeat (split; [assumption|]).
  intros sp.
  destruct (decide ((o, spender) = (self, sp))) as [E|E].
  - injection E as -> ->. rewrite lookup_insert_eq.
    destruct Hne as [?| ->]; [congruence | reflexivity].
  - rewrite lookup_insert_ne by assumption. apply H6.
Qed.

Lemma buy_assets_inv env sender timestamp value a qty w ret w' :
  buyMemeToken env sender timestamp value a qty w = Ok (ret, w') ->
  sender <> this w -> assets_inv w -> assets_inv w'.
Proof.
  intros H Hsender Hi. apply buyMemeToken_Ok in H as (cost & tk & B).
  destruct B as [_ _ Bopen _ _ Bpos _ _ _ Btoken Bsupply Basset _ _ _ _ Bframe Btokens].
  destruct Bframe as (Hs & _ & _ & _ & _ & Hl). cbv zeta in Btokens.
  destruct (graduates w a cost (buyRawOf w a qty)) eqn:G.
  - destruct Btokens as (r & _ & Ht').
    eapply (assets_inv_update w w' a _ _ tk (fst r)); try eassumption.
    + intros b. apply (memeTokenOf_insert _ _ _ b _ Basset).
    + intros b. apply (curveSupplyOf_insert _ _ _ b _ Bsupply).
    + reflexivity.
    + cbn [isLaunched set_fundingRaised set_isLaunched]. discriminate.
  - eapply (assets_inv_update w w' a _ _ tk); try eassumption.
    + intros b. apply (memeTokenOf_insert _ _ _ b _ Basset).
    + intros b. apply (curveSupplyOf_insert _ _ _ b _ Bsupply).
    + reflexivity.
    + intros _. split; [assumption|].
      apply curve_token_minted; [assumption | lia].
Qed.

Lemma sell_assets_inv env sender timestamp a qty w ret w' :
  sellMemeToken env sender timestamp a qty w = Ok (ret, w') ->
  sender <> this w -> assets_inv w -> assets_inv w'.
Proof.
  intros H Hsender Hi. apply sellMemeToken_Ok in H as (refund & tk & S).
  destruct S as [_ _ Sopen _ Stoken Sheld _ _ _ _ _ Ssupply Sasset _ _ _ _ Sframe Stokens].
  destruct Sframe as (Hs & _ & _ & _ & _ & Hl).
  eapply (assets_inv_update w w' a _ _ tk); try eassumption.
  - intros b. apply (memeTokenOf_insert _ _ _ b _ Sasset).
  - intros b. apply (curveSupplyOf_insert _ _ _ b _ Ssupply).
  - reflexivity.
  - intros _. split; [assumption|].
    apply curve_token_burned; assumption.
Qed.

(** A call that changes the storage of one token and nothing else of the
    ledger. *)
Lemma token_call_assets_inv w w' t tk tk' :
  tokens w !! t = Some tk ->
  tokens w' = <[t := tk']> (tokens w) ->
  addressToMemeToken w' = addressToMemeToken w ->
  curveSupply w' = curveSupply w ->
  memeTokenAddresses w' = memeTokenAddresses w ->
  this w' = this w ->
  (isLaunched (memeTokenOf w t) = false ->
   curve_token (this w) (curveSupplyOf w t) tk ->
   curve_token (this w) (curveSupplyOf w t) tk') ->
  assets_inv w -> assets_inv w'.
Proof.
  intros Ht Ht' Hm Hc Hl Hs Hk.
  apply (assets_inv_update w w' t (memeTokenOf w t) (curveSupplyOf w t) tk tk');
    try assumption.
  - intros b. rewrite (memeTokenOf_kept _ _ b Hm).
    destruct (decide (t = b)) as [->|]; reflexivity.
  - intros b. rewrite (curveSupplyOf_kept _ _ b Hc).
    destruct (decide (t = b)) as [->|]; reflexivity.
  - reflexivity.
  - intros L. split; [assumption|]. apply Hk. assumption.
Qed.

Lemma transfer_assets_inv sender token to amount w b w' :
  Token.transfer sender token to amount w = Ok (b, w') ->
  sender <> this w -> 0 <= amount -> assets_inv w -> assets_inv w'.
Proof.
  intros H Hsender Hn.
  apply transfer_Ok in H as (tk & Ht & _ & _ & Hbal & _ & ->).
  apply (token_call_assets_inv _ _ token tk (moved tk sender to amount));
    try reflexivity; try assumption.
  intros _. apply curve_token_moved; [left; assumption | lia].
Qed.

Lemma approve_assets_inv sender token spender amount w b w' :
  Token.approve sender token spender amount w = Ok (b, w') ->
  sender <> this w -> assets_inv w -> assets_inv w'.
Proof.
  intros H Hsender.
  apply approve_Ok in H as (tk & Ht & _ & _ & _ & ->).
  apply (token_call_assets_inv _ _ token tk
           (Token.set_allowance sender spender amount tk));
    try reflexivity; try assumption.
  intros _. apply curve_token_set_allowance. left. assumption.
Qed.

Lemma transferFrom_assets_inv sender token from to amount w b w' :
  Token.transferFrom sender token from to amount w = Ok (b, w') ->
  sender <> this w -> 0 <= amount -> assets_inv w -> assets_inv w'.
Proof.
  intros H Hsender Hn.
  apply transferFrom_Ok in H as (tk & Ht & _ & _ & _ & Hal & Hbal & _ & ->).
  eapply (token_call_assets_inv _ _ token tk); try reflexivity; try assumption.
  intros _ Hc.
  destruct (decide (from = this w)) as [E|Hne].
  - subst from. pose proof Hc as (_ & _ & _ & _ & _ & _ & _ & Hz).
    rewrite Hz in Hal. assert (amount = 0) by lia. subst amount.
    apply curve_token_moved; [right; reflexivity | split; [lia | exact Hbal] |].
    apply curve_token_set_allowance; [right; rewrite Hz; reflexivity | assumption].
  - apply curve_token_moved; [left; assumption | split; [assumption | exact Hbal] |].
    apply curve_token_set_allowance; [left; assumption | assumption].
Qed.

Lemma setFactory_assets_inv token f w u w' :
  Token.setFactory token f w = Ok (u, w') -> assets_inv w -> assets_inv w'.
Proof.
  intros H.
  apply setFactory_Ok in H as (tk & Ht & Hopen & _ & ->).
  apply (token_call_assets_inv _ _ token tk (Token.lock_factory f tk));
    try reflexivity; try assumption.
  intros _ (_ & Hlocked & _). congruence.
Qed.


Lemma assets_inv_kept w w' : registry_kept w w' -> assets_inv w -> assets_inv w'.
Proof.
  intros (Ht & Hm & Hc & Hl & Hs) [[Hnd Hreg] Htok].
  split; [split|].
  - rewrite Hl. assumption.
  - intros a. rewrite Hl, Ht, (memeTokenOf_kept _ _ a Hm),
      (curveSupplyOf_kept _ _ a Hc). apply Hreg.
  - intros a tk. rewrite Ht, Hs, (memeTokenOf_kept _ _ a Hm),
      (curveSupplyOf_kept _ _ a Hc). apply Htok.
Qed.

Lemma setListingFee_registry sender fee w u w' :
  setListingFee sender fee w = Ok (u, w') -> registry_kept w w'.
Proof. intros H. unfold_calls H. minv H. repeat split. Qed.

Lemma withdrawProtocolFees_registry env sender to w u w' :
  withdrawProtocolFees env sender to w = Ok (u, w') -> registry_kept w w'.
Proof. intros H. unfold_calls H. minv H. repeat split. Qed.

Lemma withdrawFees_registry env sender to w u w' :
  withdrawFees env sender to w = Ok (u, w') -> registry_kept w w'.
Proof. intros H. unfold_calls H. minv H. repeat split. Qed.

Lemma run_assets_inv env sender timestamp c w r w' :
  run env sender timestamp c w = Ok (r, w') ->
  sender <> this w -> call_wf c -> assets_inv w -> assets_inv w'.
Proof.
  intros H Hs Hc Hi. destruct c; cbn [run call_wf] in *.
  - eapply create_assets_inv; eassumption.
  - eapply buy_assets_inv; eassumption.
  - eapply sell_assets_inv; eassumption.
  - apply bind_Ok in H as (? & ? & H & H'). apply ret_Ok in H'.
    injection H' as _ <-. apply setListingFee_registry in H.
    eapply assets_inv_kept; eassumption.
  - apply bind_Ok in H as (? & ? & H & H'). apply ret_Ok in H'.
    injection H' as _ <-. apply withdrawProtocolFees_registry in H.
    eapply assets_inv_kept; eassumption.
  - apply bind_Ok in H as (? & ? & H & H'). apply ret_Ok in H'.
    injection H' as _ <-. apply withdrawFees_registry in H.
    eapply assets_inv_kept; eassumption.
  - apply bind_Ok in H as (? & ? & H & H'). apply ret_Ok in H'.
    injection H' as _ <-.
    eapply transfer_assets_inv; [eassumption | assumption | apply Hc | assumption].
  - apply bind_Ok in H as (? & ? & H & H'). apply ret_Ok in H'.
    injection H' as _ <-. eapply approve_assets_inv; eassumption.
  - apply bind_Ok in H as (? & ? & H & H'). apply ret_Ok in H'.
    injection H' as _ <-.
    eapply transferFrom_assets_inv;
      [eassumption | assumption | apply Hc | assumption].
  - apply bind_Ok in H as (? & ? & H & H'). apply ret_Ok in H'.
    injection H' as _ <-. eapply setFactory_assets_inv; eassumption.
Qed.

Lemma exec_assets_inv env sender timestamp c w :
  sender <> this w -> call_wf c -> assets_inv w ->
  assets_inv (exec env sender timestamp c w).
Proof.
  intros Hs Hc Hi. unfold exec, transact.
  destruct (run env sender timestamp c w) as [[r w']|e] eqn:R; cbn [fst];
    [|assumption].
  eapply run_assets_inv; eassumption.
Qed.

Lemma reachable_assets_inv w : reachable w -> assets_inv w.
Proof.
  induction 1 as [sender f r fee self w _ Hw | w w' Hr IH Hs].
  - unfold constructor in Hw. destruct (f =? 0); [discriminate|].
    destruct (r =? 0); [discriminate|]. injection Hw as <-.
    split; [split|].
    + apply NoDup_nil_2.
    + intros a. unfold memeTokenOf, curveSupplyOf.
      cbn [addressToMemeToken curveSupply tokens memeTokenAddresses].
      rewrite !lookup_empty. split.
      * intros Hin. apply elem_of_nil in Hin. contradiction.
      * intros _. repeat split.
    + intros a tk _. cbn [tokens]. rewrite lookup_empty. discriminate.
  - destruct Hs as [env sender ts c Hs Hc]. apply exec_assets_inv; assumption.
Qed.

Lemma known_listed w a :
  registry_inv w -> known (memeTokenOf w a) a = true ->
  a ∈ memeTokenAddresses w.
Proof.
  intros [_ Hreg] Hk.
  destruct (decide (a ∈ memeTokenAddresses w)) as [|Hn]; [assumption|].
  destruct (proj2 (Hreg a) Hn) as (_ & E & _). rewrite E in Hk.
  unfold known in Hk. cbn [tokenAddress noMemeToken] in Hk.
  apply andb_true_iff in Hk as [Hk1 Hk2].
  apply Z.eqb_eq in Hk1. apply negb_true_iff, Z.eqb_neq in Hk2. congruence.
Qed.

Lemma buyRawOf_le_room w a qty : buyRawOf w a qty <= maxCurveRaw - curveSupplyOf w a.
Proof.
  unfold buyRawOf.
  destruct (maxCurveRaw - curveSupplyOf w a <? qty * DECIMALS) eqn:E; lia.
Qed.

(** X10. In every reachable world the token of an asset that is still on its
    curve has the supply the ledger says: its balances are non-negative and
    add up to [totalSupply], which is the initial liquidity supply plus what
    the curve sold, under the cap [MAX_SUPPLY] the token was created with.  So the mint
    of a buy, which is clamped to the supply the curve has left, can never be
    refused by the cap of the token. *)
Theorem token_supply_tracks_the_curve w a :
  reachable w -> known (memeTokenOf w a) a = true ->
  isLaunched (memeTokenOf w a) = false ->
  exists tk,
    tokens w !! a = Some tk /\
    tk_maxSupply tk = MAX_SUPPLY /\
    tk_totalSupply tk = INIT_SUPPLY + curveSupplyOf w a /\
    sum_balances tk = tk_totalSupply tk /\
    (forall account, 0 <= Token.balance_in tk account <= tk_totalSupply tk) /\
    forall qty, tk_totalSupply tk + buyRawOf w a qty <= tk_maxSupply tk.
Proof.
  intros Hr Hk L. destruct (reachable_assets_inv w Hr) as [Hreg Htok].
  pose proof (known_listed w a Hreg Hk) as Hin.
  destruct Hreg as [_ Hreg]. destruct (proj1 (Hreg a) Hin) as [[tk Ht] _].
  destruct (Htok a tk L Ht) as (_ & _ & Hmax & Htot & Hsum & Hnn & _).
  exists tk. split; [assumption|]. split; [assumption|]. split; [assumption|].
  split; [assumption|].
  split.
  { intros account. split; [apply Hnn|].
    rewrite <- Hsum. apply balance_le_sum. assumption. }
  intros qty. pose proof (buyRawOf_le_room w a qty).
  rewrite Htot, Hmax. unfold maxCurveRaw in *. lia.
Qed.

Lemma token_supply_tracks_the_curve_witness :
  exists tk,
    tokens demo_bought !! 1000 = Some tk /\
    tk_maxSupply tk = MAX_SUPPLY /\
    tk_totalSupply tk = INIT_SUPPLY + curveSupplyOf demo_bought 1000 /\
    sum_balances tk = tk_totalSupply tk /\
    (forall account, 0 <= Token.balance_in tk account <= tk_totalSupply tk) /\
    forall qty, tk_totalSupply tk + buyRawOf demo_bought 1000 qty <= tk_maxSupply tk.
Proof.
  apply (token_supply_tracks_the_curve demo_bought 1000 demo_bought_reachable);
    reflexivity.
Defined.

(** X11. In every reachable world the token of an asset that is still on its
    curve is bound to the factory for good, and the factory still holds the
    liquidity supply minted to it at creation with no allowance granted on
    it: nobody can link the token to another minter, and the check
    ["Insufficient LP tokens"] of the launch finds its tokens. *)
Theorem factory_keeps_its_liquidity_tokens w a :
  reachable w -> known (memeTokenOf w a) a = true ->
  isLaunched (memeTokenOf w a) = false ->
  exists tk,
    tokens w !! a = Some tk /\
    tk_factory tk = this w /\
    INIT_SUPPLY <= Token.balance_in tk (this w) /\
    (forall spender, Token.allowance_in tk (this w) spender = 0) /\
    forall f, Token.setFactory a f w = Err (Revert "Factory already set").
Proof.
  intros Hr Hk L. destruct (reachable_assets_inv w Hr) as [Hreg Htok].
  pose proof (known_listed w a Hreg Hk) as Hin.
  destruct Hreg as [_ Hreg]. destruct (proj1 (Hreg a) Hin) as [[tk Ht] _].
  destruct (Htok a tk L Ht) as (Hf & Hlock & _ & _ & _ & _ & Hbal & Hal).
  exists tk. repeat (split; [assumption|]).
  intros f. unfold Token.setFactory, Token.storage.
  unfold mbind, M_bind. rewrite Ht, Hlock. reflexivity.
Qed.

Lemma factory_keeps_its_liquidity_tokens_witness :
  exists tk,
    tokens demo_bought !! 1000 = Some tk /\
    tk_factory tk = this demo_bought /\
    INIT_SUPPLY <= Token.balance_in tk (this demo_bought) /\
    (forall spender, Token.allowance_in tk (this demo_bought) spender = 0) /\
    forall f, Token.setFactory 1000 f demo_bought = Err (Revert "Factory already set").
Proof.
  apply (factory_keeps_its_liquidity_tokens demo_bought 1000 demo_bought_reachable);
    reflexivity.
Defined.

(** ** The registry *)

Lemma getAllMemeTokens_addresses w :
  registry_inv w -> map tokenAddress (getAllMemeTokens w) = memeTokenAddresses w.
Proof.
  intros [_ Hreg]. unfold getAllMemeTokens. rewrite map_map.
  rewrite <- (map_id (memeTokenAddresses w)) at 2.
  apply map_ext_in. intros a Hin. apply Hreg. apply list_elem_of_In. assumption.
Qed.

(** X12. In every reachable world [getAllMemeTokens] returns one record per
    deployed token, each under its own address and none twice, and every
    asset that can be traded is among them. *)
Theorem registry_lists_each_asset_once w :
  reachable w ->
  map tokenAddress (getAllMemeTokens w) = memeTokenAddresses w /\
  NoDup (memeTokenAddresses w) /\
  forall a, known (memeTokenOf w a) a = true ->
    a ∈ memeTokenAddresses w /\ memeTokenOf w a ∈ getAllMemeTokens w /\
    is_Some (tokens w !! a).
Proof.
  intros Hr. destruct (reachable_assets_inv w Hr) as [Hreg _].
  split; [apply getAllMemeTokens_addresses; assumption|].
  split; [apply Hreg|].
  intros a Hk. pose proof (known_listed w a Hreg Hk) as Hin.
  split; [assumption|]. split.
  - unfold getAllMemeTokens. apply list_elem_of_fmap. exists a.
    split; [reflexivity | assumption].
  - destruct Hreg as [_ Hreg]. apply Hreg. assumption.
Qed.

Lemma registry_lists_each_asset_once_witness :
  map tokenAddress (getAllMemeTokens demo_bought) = memeTokenAddresses demo_bought /\
  NoDup (memeTokenAddresses demo_bought) /\
  forall a, known (memeTokenOf demo_bought a) a = true ->
    a ∈ memeTokenAddresses demo_bought /\
    memeTokenOf demo_bought a ∈ getAllMemeTokens demo_bought /\
    is_Some (tokens demo_bought !! a).
Proof.
  apply (registry_lists_each_asset_once demo_bought demo_bought_reachable).
Defined.

(** X13. A successful [createMemeToken] in a reachable world deploys the token
    at an address the registry did not list, and [getAllMemeTokens] returns
    afterwards what it returned before followed by the new record: the
    metadata given, the caller as creator, nothing raised, not launched.  The
    new token has its whole initial supply on the factory. *)
Theorem creation_appends_to_the_registry
    env sender timestamp value n s i d w a w' :
  reachable w ->
  createMemeToken env sender timestamp value n s i d w = Ok (a, w') ->
  (a ∉ memeTokenAddresses w) /\
  getAllMemeTokens w' =
    getAllMemeTokens w ++ [mkMemeToken n s d i 0 a sender false] /\
  curveSupplyOf w' a = 0 /\
  tokens w' !! a = Some (created n s (this w)).
Proof.
  intros Hr H. destruct (reachable_assets_inv w Hr) as [[_ Hreg] _].
  apply createMemeToken_world in H
    as (_ & Hnone & Hl & Hm & Hc & Ht & _ & _).
  assert (Hfresh : a ∉ memeTokenAddresses w).
  { intros Hin. destruct (proj1 (Hreg a) Hin) as [[tk E] _]. congruence. }
  split; [assumption|]. split; [|split].
  - unfold getAllMemeTokens. rewrite Hl, map_app. cbn [map]. f_equal.
    + apply map_ext_in. intros b Hin. apply list_elem_of_In in Hin.
      rewrite (memeTokenOf_insert _ _ _ b _ Hm).
      rewrite decide_False by congruence. reflexivity.
    + rewrite (memeTokenOf_insert _ _ _ a _ Hm).
      rewrite decide_True by reflexivity. reflexivity.
  - rewrite (curveSupplyOf_kept _ _ a Hc). apply Hreg. assumption.
  - rewrite Ht. apply lookup_insert_eq.
Qed.

Lemma creation_appends_to_the_registry_witness :
  (1000 ∉ memeTokenAddresses demo_world) /\
  getAllMemeTokens demo_created =
    getAllMemeTokens demo_world ++ [mkMemeToken "A" "A" "d" "u" 0 1000 7 false] /\
  curveSupplyOf demo_created 1000 = 0 /\
  tokens demo_created !! 1000 = Some (created "A" "A" (this demo_world)).
Proof.
  apply (creation_appends_to_the_registry (demo_env 1000) 7 100 2000000000000
           "A" "A" "u" "d" demo_world 1000 demo_created demo_world_reachable).
  vm_compute. reflexivity.
Defined.

Lemma run_metadata env sender timestamp c w r w' a :
  run env sender timestamp c w = Ok (r, w') ->
  registry_inv w -> a ∈ memeTokenAddresses w ->
  metadata (memeTokenOf w' a) = metadata (memeTokenOf w a).
Proof.
  intros H [_ Hreg] Hin. destruct c; cbn [run] in *.
  - apply createMemeToken_world in H as (_ & Hnone & _ & Hm & _).
    rewrite (memeTokenOf_insert _ _ _ a _ Hm).
    rewrite decide_False; [reflexivity|].
    intros E. subst a. destruct (proj1 (Hreg _) Hin) as [[tk E] _]. congruence.
  - apply buyMemeToken_Ok in H as (cost & tk & B).
    destruct B as [_ _ _ _ _ _ _ _ _ _ _ Basset _ _ _ _ _ _].
    rewrite (memeTokenOf_insert _ _ _ a _ Basset).
    destruct (decide (tokenAddr = a)) as [E|Hne];
      [subst a; rewrite decide_True by reflexivity
      |rewrite decide_False by assumption; reflexivity].
    destruct (graduates _ _ _ _); reflexivity.
  - apply sellMemeToken_Ok in H as (refund & tk & S).
    destruct S as [_ _ _ _ _ _ _ _ _ _ _ _ Sasset _ _ _ _ _ _].
    rewrite (memeTokenOf_insert _ _ _ a _ Sasset).
    destruct (decide (tokenAddr = a)) as [E|Hne];
      [subst a; rewrite decide_True by reflexivity
      |rewrite decide_False by assumption]; reflexivity.
  - apply bind_Ok in H as (? & ? & H & H'). apply ret_Ok in H'.
    injection H' as _ <-. apply setListingFee_kept in H as (Ha & _).
    rewrite (memeTokenOf_kept _ _ a Ha). reflexivity.
  - apply bind_Ok in H as (? & ? & H & H'). apply ret_Ok in H'.
    injection H' as _ <-. apply withdrawProtocolFees_kept in H as (Ha & _).
    rewrite (memeTokenOf_kept _ _ a Ha). reflexivity.
  - apply bind_Ok in H as (? & ? & H & H'). apply ret_Ok in H'.
    injection H' as _ <-. apply withdrawFees_kept in H as (Ha & _).
    rewrite (memeTokenOf_kept _ _ a Ha). reflexivity.
  - apply bind_Ok in H as (? & ? & H & H'). apply ret_Ok in H'.
    injection H' as _ <-. apply transfer_kept in H as (Ha & _).
    rewrite (memeTokenOf_kept _ _ a Ha). reflexivity.
  - apply bind_Ok in H as (? & ? & H & H'). apply ret_Ok in H'.
    injection H' as _ <-. apply approve_kept in H as (Ha & _).
    rewrite (memeTokenOf_kept _ _ a Ha). reflexivity.
  - apply bind_Ok in H as (? & ? & H & H'). apply ret_Ok in H'.
    injection H' as _ <-. apply transferFrom_kept in H as (Ha & _).
    rewrite (memeTokenOf_kept _ _ a Ha). reflexivity.
  - apply bind_Ok in H as (? & ? & H & H'). apply ret_Ok in H'.
    injection H' as _ <-. apply setFactory_kept in H as (Ha & _).
    rewrite (memeTokenOf_kept _ _ a Ha). reflexivity.
Qed.

Lemma run_listed env sender timestamp c w r w' a :
  run env sender timestamp c w = Ok (r, w') ->
  a ∈ memeTokenAddresses w -> a ∈ memeTokenAddresses w'.
Proof.
  intros H Hin. destruct c; cbn [run] in *.
  - apply createMemeToken_world in H as (_ & _ & Hl & _).
    rewrite Hl. apply elem_of_app. left. assumption.
  - apply buyMemeToken_Ok in H as (cost & tk & B).
    destruct B as [_ _ _ _ _ _ _ _ _ _ _ _ _ _ _ _ Bframe _].
    destruct Bframe as (_ & _ & _ & _ & _ & ->). assumption.
  - apply sellMemeToken_Ok in H as (refund & tk & S).
    destruct S as [_ _ _ _ _ _ _ _ _ _ _ _ _ _ _ _ _ Sframe _].
    destruct Sframe as (_ & _ & _ & _ & _ & ->). assumption.
  - apply bind_Ok in H as (? & ? & H & H'). apply ret_Ok in H'.
    injection H' as _ <-. apply setListingFee_registry in H as (_ & _ & _ & -> & _).
    assumption.
  - apply bind_Ok in H as (? & ? & H & H'). apply ret_Ok in H'.
    injection H' as _ <-.
    apply withdrawProtocolFees_registry in H as (_ & _ & _ & -> & _). assumption.
  - apply bind_Ok in H as (? & ? & H & H'). apply ret_Ok in H'.
    injection H' as _ <-.
    apply withdrawFees_registry in H as (_ & _ & _ & -> & _). assumption.
  - apply bind_Ok in H as (? & ? & H & H'). apply ret_Ok in H'.
    injection H' as _ <-. apply transfer_Ok in H as (? & _ & _ & _ & _ & _ & ->).
    assumption.
  - apply bind_Ok in H as (? & ? & H & H'). apply ret_Ok in H'.
    injection H' as _ <-. apply approve_Ok in H as (? & _ & _ & _ & _ & ->).
    assumption.
  - apply bind_Ok in H as (? & ? & H & H'). apply ret_Ok in H'.
    injection H' as _ <-.
    apply transferFrom_Ok in H as (? & _ & _ & _ & _ & _ & _ & _ & ->).
    assumption.
  - apply bind_Ok in H as (? & ? & H & H'). apply ret_Ok in H'.
    injection H' as _ <-. apply setFactory_Ok in H as (? & _ & _ & _ & ->).
    assumption.
Qed.

(** X14. What the registry says about an asset itself never changes: from a
    reachable world on, whatever transactions follow, a listed asset stays
    listed with the name, symbol, description, image, token address and
    creator it was created with. *)
Theorem asset_metadata_is_immutable w w' a :
  reachable w -> a ∈ memeTokenAddresses w -> rtc step w w' ->
  a ∈ memeTokenAddresses w' /\
  metadata (memeTokenOf w' a) = metadata (memeTokenOf w a).
Proof.
  intros Hr Hin Hs. apply reachable_assets_inv in Hr. revert Hr Hin.
  induction Hs as [w|w w1 w2 Hs1 _ IH]; intros Hi Hin;
    [split; [assumption | reflexivity]|].
  destruct Hs1 as [env sender ts c Hsender Hc].
  pose proof (exec_assets_inv env sender ts c w Hsender Hc Hi) as Hi1.
  assert (F : a ∈ memeTokenAddresses (exec env sender ts c w) /\
              metadata (memeTokenOf (exec env sender ts c w) a)
              = metadata (memeTokenOf w a)).
  { unfold exec, transact.
    destruct (run env sender ts c w) as [[r w']|e] eqn:R; cbn [fst];
      [|split; [assumption | reflexivity]].
    split; [eapply run_listed; eassumption|].
    eapply run_metadata; [eassumption | apply Hi | assumption]. }
  destruct F as [F1 F2]. destruct (IH Hi1 F1) as [I1 I2].
  split; [assumption | congruence].
Qed.

Lemma asset_metadata_is_immutable_witness :
  1000 ∈ memeTokenAddresses demo_launched /\
  metadata (memeTokenOf demo_launched 1000)
  = metadata (memeTokenOf demo_created 1000).
Proof.
  apply (asset_metadata_is_immutable demo_created demo_launched 1000
           demo_created_reachable).
  - vm_compute. apply list_elem_of_here.
  - apply rtc_once. apply step_call.
    + vm_compute. discriminate.
    + split; apply in_range_intro; reflexivity.
Defined.

(** ** Transfers and allowances *)

Lemma allowance_in_set_allowance tk o spender v o' spender' :
  Token.allowance_in (Token.set_allowance o spender v tk) o' spender' =
    if decide ((o, spender) = (o', spender')) then v
    else Token.allowance_in tk o' spender'.
Proof.
  unfold Token.allowance_in, Token.set_allowance. cbn [tk_allowances].
  destruct (decide ((o, spender) = (o', spender'))) as [E|E].
  - rewrite E, lookup_insert_eq. reflexivity.
  - rewrite lookup_insert_ne by assumption. reflexivity.
Qed.

Lemma storage_eval token w tk :
  tokens w !! token = Some tk -> Token.storage token w = Ok (tk, w).
Proof. unfold Token.storage. intros ->. reflexivity. Qed.

(** X15. A successful [transfer] takes the amount from the sender, which had
    it, and gives it to the recipient: every other balance, the balances
    added up, [totalSupply], the allowances and every other token are as
    before.  A transfer to oneself changes no balance. *)
Theorem transfer_moves_the_amount sender token to amount w b w' :
  Token.transfer sender token to amount w = Ok (b, w') ->
  exists tk tk',
    tokens w !! token = Some tk /\ tokens w' !! token = Some tk' /\
    b = true /\ amount <= Token.balance_in tk sender /\
    (forall acct,
       Token.balance_in tk' acct =
         Token.balance_in tk acct
         - (if decide (sender = acct) then amount else 0)
         + (if decide (to = acct) then amount else 0)) /\
    sum_balances tk' = sum_balances tk /\
    tk_totalSupply tk' = tk_totalSupply tk /\
    tk_allowances tk' = tk_allowances tk /\
    forall t, t <> token -> tokens w' !! t = tokens w !! t.
Proof.
  intros H. apply transfer_Ok in H as (tk & Ht & _ & _ & Hbal & -> & ->).
  exists tk, (moved tk sender to amount). wsimpl.
  split; [assumption|]. split; [apply lookup_insert_eq|].
  split; [reflexivity|]. split; [assumption|].
  split; [intros acct; apply balance_in_moved|].
  split; [apply sum_balances_moved|].
  split; [reflexivity|]. split; [reflexivity|].
  intros t Hne. apply lookup_insert_ne. congruence.
Qed.

Lemma transfer_moves_the_amount_witness :
  exists tk tk',
    tokens demo_bought !! 1000 = Some tk /\
    tokens demo_transferred !! 1000 = Some tk' /\
    true = true /\ DECIMALS <= Token.balance_in tk 7 /\
    (forall acct,
       Token.balance_in tk' acct =
         Token.balance_in tk acct
         - (if decide (7 = acct) then DECIMALS else 0)
         + (if decide (8 = acct) then DECIMALS else 0)) /\
    sum_balances tk' = sum_balances tk /\
    tk_totalSupply tk' = tk_totalSupply tk /\
    tk_allowances tk' = tk_allowances tk /\
    forall t, t <> 1000 -> tokens demo_transferred !! t = tokens demo_bought !! t.
Proof.
  apply (transfer_moves_the_amount 7 1000 8 DECIMALS demo_bought true
           demo_transferred).
  vm_compute. reflexivity.
Defined.

(** X16. [transferFrom] spends the allowance of the caller: a successful call
    lowers the allowance the owner gave the caller by exactly the amount,
    leaves every other allowance alone and moves the amount like a transfer;
    a call for more than the allowance fails with
    ["ERC20: insufficient allowance"], also when the caller is the owner of
    the tokens.  No allowance is exempt from being lowered. *)
Theorem transferFrom_spends_the_allowance :
  (forall sender token from to amount w b w',
     Token.transferFrom sender token from to amount w = Ok (b, w') ->
     exists tk tk',
       tokens w !! token = Some tk /\ tokens w' !! token = Some tk' /\
       amount <= Token.allowance_in tk from sender /\
       amount <= Token.balance_in tk from /\
       Token.allowance_in tk' from sender
         = Token.allowance_in tk from sender - amount /\
       (forall o s, (o, s) <> (from, sender) ->
          Token.allowance_in tk' o s = Token.allowance_in tk o s) /\
       (forall acct,
          Token.balance_in tk' acct =
            Token.balance_in tk acct
            - (if decide (from = acct) then amount else 0)
            + (if decide (to = acct) then amount else 0)) /\
       tk_totalSupply tk' = tk_totalSupply tk) /\
  (forall sender token from to amount w tk,
     tokens w !! token = Some tk ->
     Token.allowance_in tk from sender < amount ->
     Token.transferFrom sender token from to amount w
       = Err (Revert "ERC20: insufficient allowance")).
Proof.
  split.
  - intros sender token from to amount w b w' H.
    apply transferFrom_Ok in H
      as (tk & Ht & _ & _ & _ & Hal & Hbal & _ & ->).
    eexists tk, _. wsimpl.
    split; [assumption|]. split; [apply lookup_insert_eq|].
    split; [assumption|]. split; [assumption|].
    split; [|split; [|split]].
    + unfold moved, Token.allowance_in, Token.set_balance_of,
        Token.set_allowance. cbn [tk_allowances].
      rewrite lookup_insert_eq. reflexivity.
    + intros o s Hne.
      unfold moved, Token.allowance_in, Token.set_balance_of,
        Token.set_allowance. cbn [tk_allowances].
      rewrite lookup_insert_ne by congruence. reflexivity.
    + intros acct. rewrite balance_in_moved. reflexivity.
    + reflexivity.
  - intros sender token from to amount w tk Ht Hlt.
    unfold Token.transferFrom.
    rewrite (bind_eval _ _ w tk w) by (apply storage_eval; assumption).
    cbv zeta. rewrite (proj2 (Z.leb_gt _ _) Hlt). reflexivity.
Qed.

Lemma transferFrom_spends_the_allowance_witness :
  (exists tk tk',
     tokens demo_approved !! 1000 = Some tk /\
     tokens demo_spent !! 1000 = Some tk' /\
     DECIMALS <= Token.allowance_in tk 7 9 /\
     DECIMALS <= Token.balance_in tk 7 /\
     Token.allowance_in tk' 7 9 = Token.allowance_in tk 7 9 - DECIMALS /\
     (forall o s, (o, s) <> (7, 9) ->
        Token.allowance_in tk' o s = Token.allowance_in tk o s) /\
     (forall acct,
        Token.balance_in tk' acct =
          Token.balance_in tk acct
          - (if decide (7 = acct) then DECIMALS else 0)
          + (if decide (8 = acct) then DECIMALS else 0)) /\
     tk_totalSupply tk' = tk_totalSupply tk) /\
  Token.transferFrom 7 1000 7 8 DECIMALS demo_bought
    = Err (Revert "ERC20: insufficient allowance").
Proof.
  split.
  - apply (proj1 transferFrom_spends_the_allowance 9 1000 7 8 DECIMALS
             demo_approved true demo_spent).
    vm_compute. reflexivity.
  - eapply (proj2 transferFrom_spends_the_allowance 7 1000 7 8 DECIMALS
              demo_bought).
    + vm_compute. reflexivity.
    + vm_compute. reflexivity.
Defined.

Lemma approve_eval token o spender v w tk :
  tokens w !! token = Some tk -> o <> 0 -> spender <> 0 ->
  Token._approve token o spender v w =
    Ok (tt, set_log (log w ++ [Approval token o spender v])
              (set_tokens
                 (<[token := Token.set_allowance o spender v tk]> (tokens w)) w)).
Proof.
  intros Ht Ho Hs. unfold Token._approve.
  apply Z.eqb_neq in Ho, Hs. rewrite Ho, Hs. cbn [negb].
  rewrite !(bind_eval _ _ w tt w) by reflexivity.
  rewrite (bind_eval _ _ w tk w) by (apply storage_eval; assumption).
  reflexivity.
Qed.

Lemma transfer_eval token from to amount w tk :
  tokens w !! token = Some tk -> from <> 0 -> to <> 0 ->
  0 <= amount <= Token.balance_in tk from ->
  Token.balance_in tk to + amount < U256.modulus ->
  Token._transfer token from to amount w =
    Ok (tt, set_log (log w ++ [Transfer token from to amount])
              (set_tokens (<[token := moved tk from to amount]> (tokens w)) w)).
Proof.
  intros Ht Hf Hto Ha Hfit. unfold Token._transfer.
  apply Z.eqb_neq in Hf, Hto. rewrite Hf, Hto. cbn [negb].
  rewrite !(bind_eval _ _ w tt w) by reflexivity.
  rewrite (bind_eval _ _ w tk w) by (apply storage_eval; assumption).
  cbv zeta. rewrite (proj2 (Z.leb_le _ _) (proj2 Ha)).
  rewrite (bind_eval _ _ w tt w) by reflexivity.
  pose proof (balance_in_moved tk from to amount to) as Hm.
  unfold moved in Hm. cbv zeta in Hm.
  set (tk1 := Token.set_balance_of from (Token.balance_in tk from - amount) tk)
    in *.
  assert (Hfit1 : Token.balance_in tk1 to + amount < U256.modulus).
  { subst tk1. unfold Token.balance_in, Token.set_balance_of in *.
    cbn [tk_balances] in *.
    destruct (decide (from = to)) as [E|E].
    - subst to. rewrite lookup_insert_eq. cbn [default from_option id]. lia.
    - rewrite lookup_insert_ne by assumption. assumption. }
  rewrite (proj2 (U256Facts.add_Some _ _ _) (conj Hfit1 eq_refl)).
  unfold moved. reflexivity.
Qed.

(** X17. An allowance can be used: after [approve(spender, n)] by an owner,
    [transferFrom] by that spender of an amount within [n] and within the
    balance of the owner succeeds, whatever the allowance was before, and
    leaves [n - amount] of the allowance. *)
Theorem approved_spender_can_move_the_tokens
    o token spender n to amount w b w1 tk :
  Token.approve o token spender n w = Ok (b, w1) ->
  tokens w !! token = Some tk ->
  0 <= amount <= n -> amount <= Token.balance_in tk o -> to <> 0 ->
  Token.balance_in tk to + amount < U256.modulus ->
  exists w2 tk2,
    Token.transferFrom spender token o to amount w1 = Ok (true, w2) /\
    tokens w2 !! token = Some tk2 /\
    Token.allowance_in tk2 o spender = n - amount /\
    Token.balance_in tk2 o =
      Token.balance_in tk o - (if decide (o = to) then 0 else amount).
Proof.
  intros H Ht Ha Hbal Hto Hfit.
  apply approve_Ok in H as (tk0 & Ht0 & Ho & Hs & _ & ->).
  assert (tk0 = tk) by congruence. subst tk0.
  set (tk1 := Token.set_allowance o spender n tk).
  set (w1 := set_log _ _).
  assert (Ht1 : tokens w1 !! token = Some tk1).
  { subst w1. wsimpl. apply lookup_insert_eq. }
  set (tk1' := Token.set_allowance o spender (n - amount) tk1).
  eexists _, (moved tk1' o to amount).
  split; [|split; [|split]].
  - unfold Token.transferFrom.
    rewrite (bind_eval _ _ w1 tk1 w1) by (apply storage_eval; assumption).
    cbv zeta.
    assert (Hal : Token.allowance_in tk1 o spender = n).
    { subst tk1. rewrite allowance_in_set_allowance.
      rewrite decide_True by reflexivity. reflexivity. }
    rewrite Hal. rewrite (proj2 (Z.leb_le _ _) (proj2 Ha)).
    rewrite (bind_eval _ _ w1 tt w1) by reflexivity.
    erewrite bind_eval; [|apply (approve_eval _ _ _ _ _ tk1); assumption].
    erewrite bind_eval; [reflexivity|].
    apply (transfer_eval _ _ _ _ _ tk1').
    + wsimpl. apply lookup_insert_eq.
    + assumption.
    + assumption.
    + split; [lia | exact Hbal].
    + exact Hfit.
  - wsimpl. apply lookup_insert_eq.
  - unfold moved, Token.set_balance_of. cbv zeta.
    change (Token.allowance_in tk1' o spender = n - amount).
    subst tk1'. rewrite allowance_in_set_allowance.
    rewrite decide_True by reflexivity. reflexivity.
  - rewrite balance_in_moved.
    change (Token.balance_in tk1' o) with (Token.balance_in tk o).
    rewrite decide_True by reflexivity.
    destruct (decide (o = to)), (decide (to = o)); try lia; congruence.
Qed.

Lemma approved_spender_can_move_the_tokens_witness :
  exists w2 tk2,
    Token.transferFrom 9 1000 7 8 DECIMALS demo_approved = Ok (true, w2) /\
    tokens w2 !! 1000 = Some tk2 /\
    Token.allowance_in tk2 7 9 = 2 * DECIMALS - DECIMALS /\
    Token.balance_in tk2 7 =
      3 * DECIMALS - (if decide (7 = 8) then 0 else DECIMALS).
Proof.
  destruct (tokens demo_bought !! 1000) as [tk|] eqn:E;
    [|vm_compute in E; discriminate E].
  assert (B7 : Token.balance_in tk 7 = 3 * DECIMALS).
  { vm_compute in E. apply (inj Some) in E. subst tk. vm_compute. reflexivity. }
  assert (B8 : Token.balance_in tk 8 = 0).
  { vm_compute in E. apply (inj Some) in E. subst tk. vm_compute. reflexivity. }
  destruct (approved_spender_can_move_the_tokens 7 1000 9 (2 * DECIMALS) 8
              DECIMALS demo_bought true demo_approved tk)
    as (w2 & tk2 & H1 & H2 & H3 & H4).
  - vm_compute. reflexivity.
  - exact E.
  - vm_compute. split; discriminate.
  - rewrite B7. vm_compute. discriminate.
  - discriminate.
  - rewrite B8. vm_compute. reflexivity.
  - exists w2, tk2. rewrite B7 in H4. repeat (split; [assumption|]). exact H4.
Defined.

(** ** Minting and burning *)

(** X18. In every reachable world only the factory can mint or burn the token
    of an asset that is still on its curve: [mint] and [burn] called by
    anybody else fail with ["Not factory"], so the supply of the token moves
    only with the buys and sells of the curve. *)
Theorem outsiders_cannot_mint_or_burn w a sender amount account :
  reachable w -> known (memeTokenOf w a) a = true ->
  isLaunched (memeTokenOf w a) = false -> sender <> this w ->
  Token.mint sender a amount account w = Err (Revert "Not factory") /\
  Token.burn sender a amount account w = Err (Revert "Not factory").
Proof.
  intros Hr Hk L Hs. destruct (reachable_assets_inv w Hr) as [Hreg Htok].
  pose proof (known_listed w a Hreg Hk) as Hin.
  destruct Hreg as [_ Hreg]. destruct (proj1 (Hreg a) Hin) as [[tk Ht] _].
  destruct (Htok a tk L Ht) as (Hf & _).
  unfold Token.mint, Token.burn, Token.onlyFactory.
  rewrite !(bind_eval _ _ w tk w) by (apply storage_eval; assumption).
  rewrite Hf. apply Z.eqb_neq in Hs. rewrite Hs. split; reflexivity.
Qed.

Lemma outsiders_cannot_mint_or_burn_witness :
  Token.mint 7 1000 DECIMALS 7 demo_bought = Err (Revert "Not factory") /\
  Token.burn 7 1000 DECIMALS 8 demo_bought = Err (Revert "Not factory").
Proof.
  split.
  - apply (outsiders_cannot_mint_or_burn demo_bought 1000 7 DECIMALS 7
             demo_bought_reachable); [reflexivity | reflexivity |].
    vm_compute. discriminate.
  - apply (outsiders_cannot_mint_or_burn demo_bought 1000 7 DECIMALS 8
             demo_bought_reachable); [reflexivity | reflexivity |].
    vm_compute. discriminate.
Defined.

(** ** The owner *)

Lemma run_owner env sender timestamp c w r w' :
  run env sender timestamp c w = Ok (r, w') -> owner w' = owner w.
Proof.
  intros H. destruct c; cbn [run] in *.
  - apply createMemeToken_world in H as (_ & _ & _ & _ & _ & _ & _ & Ho).
    assumption.
  - apply buyMemeToken_Ok in H as (cost & tk & B).
    destruct B as [_ _ _ _ _ _ _ _ _ _ _ _ _ _ _ _ Bframe _]. apply Bframe.
  - apply sellMemeToken_Ok in H as (refund & tk & S).
    destruct S as [_ _ _ _ _ _ _ _ _ _ _ _ _ _ _ _ _ Sframe _]. apply Sframe.
  - unfold_calls H. minv H. reflexivity.
  - unfold_calls H. minv H. reflexivity.
  - unfold_calls H. minv H. reflexivity.
  - apply bind_Ok in H as (? & ? & H & H'). apply ret_Ok in H'.
    injection H' as _ <-. apply transfer_Ok in H as (? & _ & _ & _ & _ & _ & ->).
    reflexivity.
  - apply bind_Ok in H as (? & ? & H & H'). apply ret_Ok in H'.
    injection H' as _ <-. apply approve_Ok in H as (? & _ & _ & _ & _ & ->).
    reflexivity.
  - apply bind_Ok in H as (? & ? & H & H'). apply ret_Ok in H'.
    injection H' as _ <-.
    apply transferFrom_Ok in H as (? & _ & _ & _ & _ & _ & _ & _ & ->).
    reflexivity.
  - apply bind_Ok in H as (? & ? & H & H'). apply ret_Ok in H'.
    injection H' as _ <-. apply setFactory_Ok in H as (? & _ & _ & _ & ->).
    reflexivity.
Qed.

Lemma onlyOwner_rejects {A} sender (body : M A) w :
  sender <> owner w -> onlyOwner sender body w = Err (Revert "Not owner").
Proof.
  intros Hs. unfold onlyOwner. rewrite (bind_eval _ _ w (owner w) w) by reflexivity.
  apply Z.eqb_neq in Hs. rewrite Hs. reflexivity.
Qed.

(** X19. The owner is the deployer for good: no transaction changes [owner],
    and in whatever world the transactions lead to, [setListingFee],
    [withdrawProtocolFees] and [withdrawFees] called by anybody else fail
    with ["Not owner"]. *)
Theorem only_the_deployer_administers w w' :
  rtc step w w' ->
  owner w' = owner w /\
  forall env sender fee to, sender <> owner w ->
    setListingFee sender fee w' = Err (Revert "Not owner") /\
    withdrawProtocolFees env sender to w' = Err (Revert "Not owner") /\
    withdrawFees env sender to w' = Err (Revert "Not owner").
Proof.
  intros Hs.
  assert (Ho : owner w' = owner w).
  { induction Hs as [w|w w1 w2 Hs1 _ IH]; [reflexivity|].
    rewrite IH. destruct Hs1 as [env sender ts c _ _]. unfold exec, transact.
    destruct (run env sender ts c w) as [[r w']|e] eqn:R; cbn [fst];
      [|reflexivity].
    eapply run_owner; eassumption. }
  split; [assumption|].
  intros env sender fee to Hne. rewrite <- Ho in Hne.
  unfold setListingFee, withdrawProtocolFees, withdrawFees.
  rewrite !onlyOwner_rejects by assumption. repeat split.
Qed.

Lemma only_the_deployer_administers_witness :
  owner demo_bought = owner demo_created /\
  forall env sender fee to, sender <> owner demo_created ->
    setListingFee sender fee demo_bought = Err (Revert "Not owner") /\
    withdrawProtocolFees env sender to demo_bought = Err (Revert "Not owner") /\
    withdrawFees env sender to demo_bought = Err (Revert "Not owner").
Proof.
  apply (only_the_deployer_administers demo_created demo_bought).
  apply rtc_once. apply step_call.
  - vm_compute. discriminate.
  - split; apply in_range_intro; reflexivity.
Defined.

(** X20. [withdrawProtocolFees] pays out the protocol fees and nothing else: a
    successful call comes from the owner, sends exactly [protocolFeeBalance]
    to the recipient and sets it to zero, and leaves registry, reserves,
    curve supplies and tokens as they were; a second withdrawal right after
    fails with ["no fees"]. *)
Theorem fee_withdrawal_pays_exactly_the_fees env sender to w u w' :
  withdrawProtocolFees env sender to w = Ok (u, w') ->
  sender = owner w /\ to <> 0 /\
  0 < protocolFeeBalance w <= balance w /\
  protocolFeeBalance w' = 0 /\
  balance w' = balance w - protocolFeeBalance w /\
  payouts (log w') = payouts (log w) ++ [(to, protocolFeeBalance w)] /\
  registry_kept w w' /\
  forall env' to', to' <> 0 ->
    withdrawProtocolFees env' sender to' w' = Err (Revert "no fees").
Proof.
  intros H. unfold_calls H. minv H.
  apply Z.eqb_eq in Hb. apply negb_true_iff, Z.eqb_neq in Hb1.
  apply Z.ltb_lt in Hb2.
  split; [assumption|]. split; [assumption|]. split; [lia|].
  split; [reflexivity|]. split; [reflexivity|].
  split; [wsimpl; rewrite payouts_app; reflexivity|].
  split; [repeat split|].
  intros env' to' Hto. unfold withdrawProtocolFees.
  unfold onlyOwner. rewrite (bind_eval _ _ _ (owner w) _) by reflexivity.
  rewrite (proj2 (Z.eqb_eq _ _) Hb).
  rewrite (bind_eval _ _ _ tt _) by reflexivity.
  rewrite nonReentrant_eval by (wsimpl; discriminate).
  apply Z.eqb_neq in Hto. rewrite Hto. reflexivity.
Qed.

Lemma fee_withdrawal_pays_exactly_the_fees_witness :
  1 = owner demo_bought /\ 2 <> 0 /\
  0 < protocolFeeBalance demo_bought <= balance demo_bought /\
  protocolFeeBalance demo_withdrawn = 0 /\
  balance demo_withdrawn = balance demo_bought - protocolFeeBalance demo_bought /\
  payouts (log demo_withdrawn)
    = payouts (log demo_bought) ++ [(2, protocolFeeBalance demo_bought)] /\
  registry_kept demo_bought demo_withdrawn /\
  forall env' to', to' <> 0 ->
    withdrawProtocolFees env' 1 to' demo_withdrawn = Err (Revert "no fees").
Proof.
  apply (fee_withdrawal_pays_exactly_the_fees (demo_env 0) 1 2 demo_bought tt
           demo_withdrawn).
  vm_compute. reflexivity.
Defined.

(** X21. [withdrawFees] takes everything: a successful call comes from the
    owner and sends the whole native balance of the factory to the
    recipient, the reserves of the curves included, while [protocolFeeBalance]
    and every [fundingRaised] stay as recorded.  With the balance at zero no
    payout of a positive amount goes through until new funds arrive. *)
Theorem withdrawFees_takes_the_reserves env sender to w u w' :
  withdrawFees env sender to w = Ok (u, w') ->
  sender = owner w /\ to <> 0 /\ 0 < balance w /\
  balance w' = 0 /\
  payouts (log w') = payouts (log w) ++ [(to, balance w)] /\
  protocolFeeBalance w' = protocolFeeBalance w /\
  registry_kept w w' /\
  forall env' to' amount, 0 < amount ->
    send env' to' amount w' = Ok (false, w').
Proof.
  intros H. unfold_calls H. minv H.
  apply Z.eqb_eq in Hb. apply negb_true_iff, Z.eqb_neq in Hb1.
  apply Z.ltb_lt in Hb2.
  split; [assumption|]. split; [assumption|]. split; [assumption|].
  split; [wsimpl; lia|].
  split; [wsimpl; rewrite payouts_app; reflexivity|].
  split; [reflexivity|].
  split; [repeat split|].
  intros env' to' amount Ha. unfold send. wsimpl.
  rewrite Z.sub_diag. rewrite (proj2 (Z.leb_gt amount 0)) by assumption.
  reflexivity.
Qed.

Lemma withdrawFees_takes_the_reserves_witness :
  1 = owner demo_bought /\ 2 <> 0 /\ 0 < balance demo_bought /\
  balance demo_drained = 0 /\
  payouts (log demo_drained)
    = payouts (log demo_bought) ++ [(2, balance demo_bought)] /\
  protocolFeeBalance demo_drained = protocolFeeBalance demo_bought /\
  registry_kept demo_bought demo_drained /\
  forall env' to' amount, 0 < amount ->
    send env' to' amount demo_drained = Ok (false, demo_drained).
Proof.
  apply (withdrawFees_takes_the_reserves (demo_env 0) 1 2 demo_bought tt
           demo_drained).
  vm_compute. reflexivity.
Defined.

(** ** The price of a buy *)

Lemma buyRawOf_pos w a qty :
  curveSupplyOf w a < maxCurveRaw -> 0 < qty -> 0 < buyRawOf w a qty.
Proof.
  intros Hroom Hq. unfold buyRawOf. pose proof DECIMALS_pos.
  destruct (maxCurveRaw - curveSupplyOf w a <? qty * DECIMALS); nia.
Qed.

(** X22. In every reachable world a buy of a positive quantity of an asset on
    its curve has a price: the cost of what it fills evaluates, without
    overflow, and a buy that sends less than that cost plus the trading fee
    fails with ["Insufficient SEI sent"]. *)
Theorem underpaid_buy_is_rejected env sender timestamp value a qty w :
  reachable w -> known (memeTokenOf w a) a = true ->
  isLaunched (memeTokenOf w a) = false ->
  0 < qty -> qty * DECIMALS < U256.modulus ->
  exists cost,
    calculateCost (curveSupplyOf w a) (buyRawOf w a qty) = Some cost /\
    0 <= cost /\
    (value < cost + feeOf cost ->
     buyMemeToken env sender timestamp value a qty w = Err InsufficientPayment).
Proof.
  intros Hr Hk L Hq Hfit.
  destruct (reachable_wf w Hr) as [Hst Hw].
  destruct (Hw a) as (_ & Hcur & _).
  destruct (reachable_ledger_inv w Hr a) as (_ & Hroom & _).
  destruct (Hroom L) as [Hlt _].
  pose proof (buyRawOf_pos w a qty Hlt Hq) as Hpos.
  pose proof (buyRawOf_le_room w a qty) as Hle.
  destruct (calculateCost_total (curveSupplyOf w a) (buyRawOf w a qty))
    as (cost & Hcost & Hc0 & Hc1); [lia..|].
  exists cost. split; [assumption|]. split; [assumption|].
  intros Hv. unfold buyMemeToken.
  rewrite (bind_eval _ _ _ tt (set_balance (balance w + value) w)) by reflexivity.
  assert (Hs : _status w <> _ENTERED) by (rewrite Hst; discriminate).
  rewrite nonReentrant_eval by exact Hs.
  mcompute'. rewrite Hk, L. cbn [negb]. mcompute'.
  rewrite (proj2 (U256Facts.sub_Some maxCurveRaw (curveSupplyOf w a) _)
             (conj (proj2 Hcur) eq_refl)).
  mcompute'.
  rewrite (proj2 (Z.ltb_lt 0 (maxCurveRaw - curveSupplyOf w a))) by lia.
  rewrite (proj2 (U256Facts.mul_Some qty DECIMALS _) (conj Hfit eq_refl)).
  mcompute'. fold (buyRawOf w a qty).
  rewrite (proj2 (Z.ltb_lt 0 (buyRawOf w a qty))) by assumption.
  rewrite Hcost. mcompute'.
  assert (Hm : cost * FEE_BPS < U256.modulus).
  { change FEE_BPS with 100.
    assert (10 ^ 40 * 100 < U256.modulus) by reflexivity. lia. }
  rewrite (proj2 (U256Facts.mul_Some cost FEE_BPS _) (conj Hm eq_refl)).
  mcompute'.
  change (U256.div (cost * FEE_BPS) BPS_DENOMINATOR) with (Some (feeOf cost)).
  mcompute'.
  assert (Ha : cost + feeOf cost < U256.modulus).
  { unfold feeOf. change FEE_BPS with 100. change BPS_DENOMINATOR with 10000.
    assert (10 ^ 40 * 2 < U256.modulus) by reflexivity.
    Z.div_mod_to_equations. lia. }
  rewrite (proj2 (U256Facts.add_Some cost (feeOf cost) _) (conj Ha eq_refl)).
  mcompute'. rewrite (proj2 (Z.leb_gt _ _) Hv). reflexivity.
Qed.

Lemma underpaid_buy_is_rejected_witness :
  buyMemeToken (demo_env 0) 7 101 1 1000 3 demo_created = Err InsufficientPayment.
Proof.
  destruct (underpaid_buy_is_rejected (demo_env 0) 7 101 1 1000 3 demo_created
              demo_created_reachable) as (cost & Hc & _ & H);
    [reflexivity | reflexivity | reflexivity | reflexivity |].
  apply H. vm_compute in Hc. apply (inj Some) in Hc. subst cost.
  vm_compute. reflexivity.
Defined.

(** ** The funds of the factory *)

Lemma undrained_reachable w : reachable_undrained w -> reachable w.
Proof.
  induction 1 as [sender f r fee self w Hf Hw | w env sender ts c _ IH Hs Hc _].
  - eapply reachable_init; eassumption.
  - eapply reachable_step; [exact IH|]. apply step_call; assumption.
Qed.

Lemma sum_same (f g : Z -> Z) l :
  (forall b, b ∈ l -> g b = f b) ->
  foldr Z.add 0 (map g l) = foldr Z.add 0 (map f l).
Proof.
  induction l as [|x l IH]; intros H; [reflexivity|]. cbn [map foldr].
  rewrite (H x) by apply list_elem_of_here. rewrite IH; [reflexivity|].
  intros b Hb. apply H. apply list_elem_of_further. assumption.
Qed.

Lemma sum_update (f g : Z -> Z) l a :
  NoDup l -> a ∈ l -> (forall b, b <> a -> g b = f b) ->
  foldr Z.add 0 (map g l) = foldr Z.add 0 (map f l) - f a + g a.
Proof.
  intros Hnd Hin Hg. induction l as [|x l IH]; [apply elem_of_nil in Hin; contradiction|].
  apply NoDup_cons in Hnd as [Hx Hnd]. cbn [map foldr].
  destruct (decide (x = a)) as [E|Hne].
  - subst x. rewrite (sum_same f g l); [lia|].
    intros b Hb. apply Hg. intros E. subst b. contradiction.
  - apply elem_of_cons in Hin as [E|Hin]; [congruence|].
    rewrite (Hg x Hne), (IH Hnd Hin). lia.
Qed.

Lemma reserves_kept w w' :
  memeTokenAddresses w' = memeTokenAddresses w ->
  addressToMemeToken w' = addressToMemeToken w ->
  reserves w' = reserves w.
Proof.
  intros Hl Hm. unfold reserves. rewrite Hl. apply sum_same.
  intros b _. rewrite (memeTokenOf_kept _ _ b Hm). reflexivity.
Qed.

Lemma reserves_insert w w' a mt :
  registry_inv w -> known (memeTokenOf w a) a = true ->
  memeTokenAddresses w' = memeTokenAddresses w ->
  addressToMemeToken w' = <[a := mt]> (addressToMemeToken w) ->
  reserves w' = reserves w - fundingRaised (memeTokenOf w a) + fundingRaised mt.
Proof.
  intros Hreg Hk Hl Hm. pose proof (known_listed w a Hreg Hk) as Hin.
  unfold reserves. rewrite Hl. etransitivity.
  { apply (sum_update (fun b => fundingRaised (memeTokenOf w b)) _ _ a
             (proj1 Hreg) Hin).
    intros b Hne. cbv beta. rewrite (memeTokenOf_insert _ _ _ b _ Hm).
    rewrite decide_False by congruence. reflexivity. }
  cbv beta. rewrite (memeTokenOf_insert _ _ _ a _ Hm).
  rewrite decide_True by reflexivity. reflexivity.
Qed.

Lemma run_backing env sender timestamp c w r w' :
  run env sender timestamp c w = Ok (r, w') ->
  registry_inv w -> drains c = false ->
  balance w' - (protocolFeeBalance w' + reserves w')
  = balance w - (protocolFeeBalance w + reserves w).
Proof.
  intros H Hreg Hd. destruct c; cbn [run drains] in *; try discriminate Hd.
  - pose proof H as H0.
    apply createMemeToken_Ok in H0 as (_ & Hfees & Hbal & _).
    apply createMemeToken_world in H as (_ & Hnone & Hl & Hm & _).
    assert (Hfresh : r ∉ memeTokenAddresses w).
    { intros Hin. destruct (proj1 (proj2 Hreg r) Hin) as [[tk E] _]. congruence. }
    assert (reserves w' = reserves w); [|lia].
    unfold reserves. rewrite Hl, map_app, foldr_app. cbn [map foldr].
    rewrite (memeTokenOf_insert _ _ _ r _ Hm).
    rewrite decide_True by reflexivity. cbn [fundingRaised].
    apply sum_same. intros b Hb. rewrite (memeTokenOf_insert _ _ _ b _ Hm).
    rewrite decide_False by (intros E; subst b; contradiction). reflexivity.
  - apply buyMemeToken_Ok in H as (cost & tk & B).
    destruct B as [_ Bknown _ _ _ _ _ Bret _ _ _ Basset Bfees _ _ Bbal Bframe _].
    destruct Bframe as (_ & _ & _ & _ & _ & Hl). cbv zeta in Bbal.
    rewrite (reserves_insert w w' tokenAddr _ Hreg Bknown Hl Basset).
    destruct (graduates _ _ _ _);
      cbn [fundingRaised set_fundingRaised set_isLaunched]; lia.
  - apply sellMemeToken_Ok in H as (refund & tk & S).
    destruct S as [_ Sknown _ _ _ _ _ _ _ Sret _ _ Sasset Sfees _ _ Sbal Sframe _].
    destruct Sframe as (_ & _ & _ & _ & _ & Hl).
    rewrite (reserves_insert w w' tokenAddr _ Hreg Sknown Hl Sasset).
    cbn [fundingRaised set_fundingRaised]. lia.
  - apply bind_Ok in H as (? & ? & H & H'). apply ret_Ok in H'.
    injection H' as _ <-. unfold_calls H. minv H. reflexivity.
  - apply bind_Ok in H as (? & ? & H & H'). apply ret_Ok in H'.
    injection H' as _ <-. pose proof H as H0.
    apply withdrawProtocolFees_registry in H0 as (_ & Hm & _ & Hl & _).
    rewrite (reserves_kept _ _ Hl Hm).
    unfold_calls H. minv H. wsimpl. lia.
  - apply bind_Ok in H as (? & ? & H & H'). apply ret_Ok in H'.
    injection H' as _ <-. apply transfer_Ok in H as (? & _ & _ & _ & _ & _ & ->).
    reflexivity.
  - apply bind_Ok in H as (? & ? & H & H'). apply ret_Ok in H'.
    injection H' as _ <-. apply approve_Ok in H as (? & _ & _ & _ & _ & ->).
    reflexivity.
  - apply bind_Ok in H as (? & ? & H & H'). apply ret_Ok in H'.
    injection H' as _ <-.
    apply transferFrom_Ok in H as (? & _ & _ & _ & _ & _ & _ & _ & ->).
    reflexivity.
  - apply bind_Ok in H as (? & ? & H & H'). apply ret_Ok in H'.
    injection H' as _ <-. apply setFactory_Ok in H as (? & _ & _ & _ & ->).
    reflexivity.
Qed.

Lemma undrained_backing w :
  reachable_undrained w ->
  balance w = protocolFeeBalance w + reserves w.
Proof.
  induction 1 as [sender f r fee self w Hf Hw | w env sender ts c Hu IH Hs Hc Hd].
  - unfold constructor in Hw. destruct (f =? 0); [discriminate|].
    destruct (r =? 0); [discriminate|]. injection Hw as <-. reflexivity.
  - unfold exec, transact.
    destruct (run env sender ts c w) as [[r w']|e] eqn:R; cbn [fst];
      [|assumption].
    pose proof (reachable_assets_inv w (undrained_reachable w Hu)) as [Hreg _].
    pose proof (run_backing env sender ts c w r w' R Hreg Hd). lia.
Qed.

(** X23. As long as [withdrawFees] is not called, the native balance of the
    factory is exactly what its ledger owes: the protocol fees plus the
    reserves of all curves.  Creation, buys with their refunds, sells,
    graduations with their listing fee and fee withdrawals neither lose funds
    nor leave any unaccounted. *)
Theorem balance_backs_fees_and_reserves w :
  reachable_undrained w ->
  balance w = protocolFeeBalance w + reserves w.
Proof. exact (undrained_backing w). Qed.

Lemma demo_bought_undrained : reachable_undrained demo_bought.
Proof.
  unfold demo_bought, demo_created.
  apply undrained_step; [apply undrained_step| | |].
  - apply (undrained_init 1 700 701 5 500); [|reflexivity].
    apply in_range_intro. reflexivity.
  - discriminate.
  - apply in_range_intro. reflexivity.
  - reflexivity.
  - vm_compute. discriminate.
  - split; apply in_range_intro; reflexivity.
  - reflexivity.
Qed.

Lemma balance_backs_fees_and_reserves_witness :
  balance demo_bought = protocolFeeBalance demo_bought + reserves demo_bought.
Proof. apply (balance_backs_fees_and_reserves demo_bought demo_bought_undrained). Defined.

(** ** Sells the factory can pay *)

Lemma feeOf_nonneg c : 0 <= c -> 0 <= feeOf c.
Proof.
  intros Hc. unfold feeOf. apply Z.div_pos; [|reflexivity].
  change FEE_BPS with 100. lia.
Qed.

Lemma feeOf_le c : 0 <= c -> feeOf c <= c.
Proof.
  intros Hc. unfold feeOf. change FEE_BPS with 100.
  change BPS_DENOMINATOR with 10000. Z.div_mod_to_equations. lia.
Qed.

Lemma listingFeeTaken_nonneg fee lp0 : 0 <= listingFeeTaken fee lp0.
Proof.
  unfold listingFeeTaken. destruct (0 <? fee) eqn:E; cbn [andb]; [|lia].
  destruct (fee <? lp0); lia.
Qed.

Lemma run_fees_nonneg env sender timestamp c w r w' :
  run env sender timestamp c w = Ok (r, w') ->
  call_wf c -> wf w -> 0 <= protocolFeeBalance w -> 0 <= protocolFeeBalance w'.
Proof.
  intros H Hc [_ Hw] Hf. destruct c; cbn [run call_wf] in *.
  - apply createMemeToken_Ok in H as (Hfee & -> & _).
    assert (0 <= MEMETOKEN_CREATION_FEE) by discriminate. lia.
  - apply buyMemeToken_Ok in H as (cost & tk & B).
    destruct B as [_ _ _ _ _ _ Bcost _ _ _ _ _ Bfees _ _ _ _ _].
    rewrite Bfees. apply calculateCost_nonneg in Bcost.
    pose proof (feeOf_nonneg cost Bcost).
    pose proof (listingFeeTaken_nonneg (listingFee w)
                  (fundingRaised (memeTokenOf w tokenAddr) + cost)).
    destruct (graduates _ _ _ _); lia.
  - apply sellMemeToken_Ok in H as (refund & tk & S).
    destruct S as [_ _ _ _ _ _ _ Srefund _ _ _ _ _ Sfees _ _ _ _ _].
    rewrite Sfees. destruct (Hw tokenAddr) as (_ & Hcur & _).
    assert (0 <= refund).
    { pose proof DECIMALS_pos. destruct Hc as [Hq _].
      apply (calculateRefund_nonneg (curveSupplyOf w tokenAddr)
               (tokenQty * DECIMALS)); [nia | | assumption].
      assert (maxCurveRaw < U256.modulus) by reflexivity. lia. }
    pose proof (feeOf_nonneg refund). lia.
  - apply bind_Ok in H as (? & ? & H & H'). apply ret_Ok in H'.
    injection H' as _ <-. unfold_calls H. minv H. assumption.
  - apply bind_Ok in H as (? & ? & H & H'). apply ret_Ok in H'.
    injection H' as _ <-. unfold_calls H. minv H. wsimpl. lia.
  - apply bind_Ok in H as (? & ? & H & H'). apply ret_Ok in H'.
    injection H' as _ <-. unfold_calls H. minv H. assumption.
  - apply bind_Ok in H as (? & ? & H & H'). apply ret_Ok in H'.
    injection H' as _ <-. apply transfer_Ok in H as (? & _ & _ & _ & _ & _ & ->).
    assumption.
  - apply bind_Ok in H as (? & ? & H & H'). apply ret_Ok in H'.
    injection H' as _ <-. apply approve_Ok in H as (? & _ & _ & _ & _ & ->).
    assumption.
  - apply bind_Ok in H as (? & ? & H & H'). apply ret_Ok in H'.
    injection H' as _ <-.
    apply transferFrom_Ok in H as (? & _ & _ & _ & _ & _ & _ & _ & ->).
    assumption.
  - apply bind_Ok in H as (? & ? & H & H'). apply ret_Ok in H'.
    injection H' as _ <-. apply setFactory_Ok in H as (? & _ & _ & _ & ->).
    assumption.
Qed.

Lemma reachable_fees_nonneg w : reachable w -> 0 <= protocolFeeBalance w.
Proof.
  induction 1 as [sender f r fee self w _ Hw | w w' Hr IH Hs].
  - unfold constructor in Hw. destruct (f =? 0); [discriminate|].
    destruct (r =? 0); [discriminate|]. injection Hw as <-. reflexivity.
  - destruct Hs as [env sender ts c _ Hc]. unfold exec, transact.
    destruct (run env sender ts c w) as [[r w']|e] eqn:R; cbn [fst];
      [|assumption].
    eapply run_fees_nonneg; eauto using reachable_wf.
Qed.

Lemma sum_ge_elem (f : Z -> Z) l a :
  (forall b, 0 <= f b) -> a ∈ l -> f a <= foldr Z.add 0 (map f l).
Proof.
  intros Hf Hin. induction l as [|x l IH]; [apply elem_of_nil in Hin; contradiction|].
  cbn [map foldr].
  assert (0 <= foldr Z.add 0 (map f l)).
  { clear -Hf. induction l as [|y l IH']; [reflexivity|]. cbn [map foldr].
    pose proof (Hf y). lia. }
  apply elem_of_cons in Hin as [->|Hin]; [lia|].
  pose proof (IH Hin). pose proof (Hf x). lia.
Qed.

Lemma burn_eval self (token : address) amount from w tk :
  tokens w !! token = Some tk -> tk_factory tk = self -> from <> 0 ->
  amount <= Token.balance_in tk from -> amount <= tk_totalSupply tk ->
  Token.burn self token amount from w =
    Ok (tt, set_log (log w ++ [Transfer token from 0 amount;
                               Burned token from amount])
              (set_tokens (<[token := burned tk from amount]> (tokens w)) w)).
Proof.
  intros Ht Hf Hfrom Hbal Htot.
  unfold Token.burn, Token.onlyFactory, Token._burn, Token.store, emit.
  mcompute'. rewrite Ht, Hf, Z.eqb_refl.
  apply Z.eqb_neq in Hfrom. rewrite Hfrom. cbn [negb]. mcompute'. rewrite Ht.
  rewrite (proj2 (Z.leb_le _ _) Hbal).
  change (tk_totalSupply (Token.set_balance_of from
            (Token.balance_in tk from - amount) tk)) with (tk_totalSupply tk).
  rewrite (proj2 (U256Facts.sub_Some (tk_totalSupply tk) amount _)
             (conj Htot eq_refl)).
  mcompute'. unfold burned. rewrite <- app_assoc. reflexivity.
Qed.

(** X24. As long as [withdrawFees] is not called, a sell of tokens the seller
    holds is honoured.  The refund of the quantity evaluates; and when the
    reserve of the asset covers it, the factory has the funds to pay it: the
    sell succeeds and pays the refund minus the trading fee, provided the
    seller accepts the payment and the fee counter has room for the fee. *)
Theorem sells_are_honoured env sender timestamp a qty w tk :
  reachable_undrained w -> sender <> 0 ->
  known (memeTokenOf w a) a = true -> isLaunched (memeTokenOf w a) = false ->
  0 <= qty -> tokens w !! a = Some tk ->
  qty * DECIMALS <= Token.balance_in tk sender ->
  qty * DECIMALS <= curveSupplyOf w a ->
  exists refund,
    calculateRefund (curveSupplyOf w a) (qty * DECIMALS) = Some refund /\
    (refund <= fundingRaised (memeTokenOf w a) ->
     protocolFeeBalance w + feeOf refund < U256.modulus ->
     env_accepts env sender (refund - feeOf refund) = true ->
     exists w', sellMemeToken env sender timestamp a qty w
                = Ok (refund - feeOf refund, w')).
Proof.
  intros Hu Hsender Hk L Hq Htk Hheld Hsold.
  pose proof (undrained_reachable w Hu) as Hr.
  destruct (reachable_wf w Hr) as [Hst Hw].
  destruct (Hw a) as (Hraised0 & Hcur & _).
  destruct (reachable_ledger_inv w Hr a) as (_ & Hroom & _).
  destruct (Hroom L) as [_ Hgoal].
  destruct (reachable_assets_inv w Hr) as [Hreg Htok].
  destruct (Htok a tk L Htk) as (Hfac & _ & _ & Htot & _).
  pose proof (reachable_fees_nonneg w Hr) as Hfees.
  pose proof (undrained_backing w Hu) as Hback.
  pose proof DECIMALS_pos as HD.
  assert (Hmax : maxCurveRaw < U256.modulus) by reflexivity.
  destruct (calculateCost_total (curveSupplyOf w a - qty * DECIMALS)
              (qty * DECIMALS)) as (refund & Hrefund & Hr0 & Hr1); [nia | nia | lia |].
  rewrite <- (proj1 refund_mirrors_cost_aux (curveSupplyOf w a) (qty * DECIMALS))
    in Hrefund by (try split; lia).
  exists refund. split; [assumption|].
  intros Hcover Hfit Hacc.
  assert (Hs : _status w <> _ENTERED) by (rewrite Hst; discriminate).
  unfold sellMemeToken.
  rewrite nonReentrant_eval by exact Hs.
  mcompute'. rewrite Hk, L. cbn [negb].
  assert (Hqfit : qty * DECIMALS < U256.modulus) by lia.
  rewrite (proj2 (U256Facts.mul_Some qty DECIMALS _) (conj Hqfit eq_refl)).
  mcompute'. rewrite Htk.
  rewrite (proj2 (Z.leb_le _ _) Hheld).
  rewrite (proj2 (Z.leb_le _ _) Hsold). rewrite Hrefund.
  mcompute'. rewrite (proj2 (Z.leb_le _ _) Hcover).
  assert (Hm : refund * FEE_BPS < U256.modulus).
  { change FEE_BPS with 100.
    assert (10 ^ 40 * 100 < U256.modulus) by reflexivity. lia. }
  rewrite (proj2 (U256Facts.mul_Some refund FEE_BPS _) (conj Hm eq_refl)).
  mcompute'.
  change (U256.div (refund * FEE_BPS) BPS_DENOMINATOR) with (Some (feeOf refund)).
  mcompute'.
  pose proof (feeOf_le refund Hr0) as Hfee.
  rewrite (proj2 (U256Facts.sub_Some refund (feeOf refund) _) (conj Hfee eq_refl)).
  mcompute'.
  rewrite (proj2 (U256Facts.add_Some (protocolFeeBalance w) (feeOf refund) _)
             (conj Hfit eq_refl)).
  mcompute'.
  rewrite (proj2 (U256Facts.sub_Some (fundingRaised (memeTokenOf w a)) refund _)
             (conj Hcover eq_refl)).
  mcompute'. unfold update_memeToken. mcompute'.
  rewrite (proj2 (U256Facts.sub_Some (curveSupplyOf w a) (qty * DECIMALS) _)
             (conj Hsold eq_refl)).
  mcompute'.
  rewrite (burn_eval (this w) a (qty * DECIMALS) sender _ tk);
    [|wsimpl; assumption | assumption | assumption | assumption
     |assert (0 <= INIT_SUPPLY) by (vm_compute; discriminate); lia].
  unfold send, emit. mcompute'.
  assert (Hbal : refund - feeOf refund <= balance w).
  { pose proof (feeOf_nonneg refund Hr0).
    pose proof (known_listed w a Hreg Hk) as Hin.
    assert (Hsum : fundingRaised (memeTokenOf w a) <= reserves w).
    { apply (sum_ge_elem (fun b => fundingRaised (memeTokenOf w b))
               (memeTokenAddresses w) a (fun b => proj1 (Hw b)) Hin). }
    lia. }
  rewrite (proj2 (Z.leb_le _ _) Hbal), Hacc. cbn [andb]. mcompute'.
  eexists. reflexivity.
Qed.

Lemma sells_are_honoured_witness :
  exists refund w',
    calculateRefund (curveSupplyOf demo_bought 1000) (1 * DECIMALS) = Some refund /\
    sellMemeToken (demo_env 0) 7 108 1000 1 demo_bought
      = Ok (refund - feeOf refund, w').
Proof.
  destruct (tokens demo_bought !! 1000) as [tk|] eqn:E;
    [|vm_compute in E; discriminate E].
  assert (B7 : Token.balance_in tk 7 = 3 * DECIMALS).
  { vm_compute in E. apply (inj Some) in E. subst tk. vm_compute. reflexivity. }
  destruct (sells_are_honoured (demo_env 0) 7 108 1000 1 demo_bought tk
              demo_bought_undrained) as (refund & Hr & H).
  - discriminate.
  - reflexivity.
  - reflexivity.
  - discriminate.
  - exact E.
  - rewrite B7. vm_compute. discriminate.
  - vm_compute. discriminate.
  - pose proof Hr as Hv. vm_compute in Hv. apply (inj Some) in Hv.
    destruct H as (w' & H).
    + subst refund. vm_compute. discriminate.
    + subst refund. vm_compute. reflexivity.
    + reflexivity.
    + exists refund, w'. split; assumption.
Defined.

(** ** Buys the factory can fill *)

Lemma mint_eval self (token : address) amount to w tk :
  tokens w !! token = Some tk -> tk_factory tk = self -> to <> 0 ->
  tk_totalSupply tk + amount <= tk_maxSupply tk ->
  tk_totalSupply tk + amount < U256.modulus ->
  Token.balance_in tk to + amount < U256.modulus ->
  Token.mint self token amount to w =
    Ok (tt, set_log (log w ++ [Transfer token 0 to amount; Minted token to amount])
              (set_tokens (<[token := minted tk to amount]> (tokens w)) w)).
Proof.
  intros Ht Hf Hto Hcap Hfit Hbal.
  unfold Token.mint, Token.onlyFactory, Token._mint, Token.store, emit.
  mcompute'. rewrite Ht, Hf, Z.eqb_refl.
  apply Z.eqb_neq in Hto. rewrite Hto. cbn [negb]. mcompute'. rewrite Ht.
  rewrite (proj2 (U256Facts.add_Some (tk_totalSupply tk) amount _)
             (conj Hfit eq_refl)).
  mcompute'. rewrite (proj2 (Z.leb_le _ _) Hcap).
  rewrite (proj2 (U256Facts.add_Some (Token.balance_in tk to) amount _)
             (conj Hbal eq_refl)).
  mcompute'. unfold minted. rewrite <- app_assoc. reflexivity.
Qed.

Lemma reserves_nonneg w : wf w -> 0 <= reserves w.
Proof.
  intros [_ Hw]. unfold reserves.
  induction (memeTokenAddresses w) as [|x l IH]; [reflexivity|].
  cbn [map foldr]. pose proof (proj1 (Hw x)). lia.
Qed.

(** X25. As long as [withdrawFees] is not called, a buy of a positive quantity
    of an asset on its curve is honoured.  The cost of what it fills
    evaluates; and when the payment covers cost plus trading fee, the buy
    succeeds and returns that charge, provided it does not graduate the
    asset (graduation depends on the router), the buyer accepts the refund of
    an overpayment and the fee counter has room for the fee.  The mint of
    the token cannot fail. *)
Theorem buys_are_honoured env sender timestamp value a qty w :
  reachable_undrained w -> sender <> 0 ->
  known (memeTokenOf w a) a = true -> isLaunched (memeTokenOf w a) = false ->
  0 < qty -> qty * DECIMALS < U256.modulus ->
  exists cost,
    calculateCost (curveSupplyOf w a) (buyRawOf w a qty) = Some cost /\
    (cost + feeOf cost <= value ->
     graduates w a cost (buyRawOf w a qty) = false ->
     protocolFeeBalance w + feeOf cost < U256.modulus ->
     (cost + feeOf cost < value ->
      env_accepts env sender (value - (cost + feeOf cost)) = true) ->
     exists w', buyMemeToken env sender timestamp value a qty w
                = Ok (cost + feeOf cost, w')).
Proof.
  intros Hu Hsender Hk L Hq Hfit.
  pose proof (undrained_reachable w Hu) as Hr.
  destruct (reachable_wf w Hr) as [Hst Hw].
  destruct (Hw a) as (Hraised0 & Hcur & _).
  destruct (reachable_ledger_inv w Hr a) as (_ & Hroom & _).
  destruct (Hroom L) as [Hlt Hgoal].
  destruct (reachable_assets_inv w Hr) as [Hreg Htok].
  pose proof (known_listed w a Hreg Hk) as Hin.
  destruct (proj1 (proj2 Hreg a) Hin) as [[tk Htk] _].
  destruct (Htok a tk L Htk) as (Hfac & _ & Hmaxs & Htot & Hsum & Hnn & _).
  pose proof (reachable_fees_nonneg w Hr) as Hfees.
  pose proof (undrained_backing w Hu) as Hback.
  pose proof (reserves_nonneg w (reachable_wf w Hr)) as Hres.
  pose proof (buyRawOf_pos w a qty Hlt Hq) as Hpos.
  pose proof (buyRawOf_le_room w a qty) as Hle.
  destruct (calculateCost_total (curveSupplyOf w a) (buyRawOf w a qty))
    as (cost & Hcost & Hc0 & Hc1); [lia..|].
  exists cost. split; [assumption|].
  intros Hpay Hgrad Hfeefit Hacc.
  assert (Hs : _status w <> _ENTERED) by (rewrite Hst; discriminate).
  unfold buyMemeToken.
  rewrite (bind_eval _ _ _ tt (set_balance (balance w + value) w)) by reflexivity.
  rewrite nonReentrant_eval by exact Hs.
  mcompute'. rewrite Hk, L. cbn [negb]. mcompute'.
  rewrite (proj2 (U256Facts.sub_Some maxCurveRaw (curveSupplyOf w a) _)
             (conj (proj2 Hcur) eq_refl)).
  mcompute'.
  rewrite (proj2 (Z.ltb_lt 0 (maxCurveRaw - curveSupplyOf w a))) by lia.
  rewrite (proj2 (U256Facts.mul_Some qty DECIMALS _) (conj Hfit eq_refl)).
  mcompute'. fold (buyRawOf w a qty).
  rewrite (proj2 (Z.ltb_lt 0 (buyRawOf w a qty))) by assumption.
  rewrite Hcost. mcompute'.
  assert (Hm : cost * FEE_BPS < U256.modulus).
  { change FEE_BPS with 100.
    assert (10 ^ 40 * 100 < U256.modulus) by reflexivity. lia. }
  rewrite (proj2 (U256Facts.mul_Some cost FEE_BPS _) (conj Hm eq_refl)).
  mcompute'.
  change (U256.div (cost * FEE_BPS) BPS_DENOMINATOR) with (Some (feeOf cost)).
  mcompute'.
  pose proof (feeOf_le cost Hc0) as Hfee. pose proof (feeOf_nonneg cost Hc0) as Hfee0.
  assert (H40 : 10 ^ 40 * 2 < U256.modulus) by reflexivity.
  assert (Ha : cost + feeOf cost < U256.modulus) by lia.
  rewrite (proj2 (U256Facts.add_Some cost (feeOf cost) _) (conj Ha eq_refl)).
  mcompute'. rewrite (proj2 (Z.leb_le _ _) Hpay). mcompute'.
  rewrite (proj2 (U256Facts.add_Some (protocolFeeBalance w) (feeOf cost) _)
             (conj Hfeefit eq_refl)).
  mcompute'.
  assert (Hgoal' : MEMECOIN_FUNDING_GOAL < 10 ^ 40) by reflexivity.
  assert (Hrc : fundingRaised (memeTokenOf w a) + cost < U256.modulus) by lia.
  rewrite (proj2 (U256Facts.add_Some (fundingRaised (memeTokenOf w a)) cost _)
             (conj Hrc eq_refl)).
  mcompute'. unfold update_memeToken. mcompute'.
  assert (Hmax : maxCurveRaw < U256.modulus) by reflexivity.
  assert (Hsold : curveSupplyOf w a + buyRawOf w a qty < U256.modulus) by lia.
  rewrite (proj2 (U256Facts.add_Some (curveSupplyOf w a) (buyRawOf w a qty) _)
             (conj Hsold eq_refl)).
  mcompute'.
  change (U256.div (buyRawOf w a qty) DECIMALS)
    with (Some (buyRawOf w a qty / DECIMALS)).
  mcompute'.
  assert (HMAX : MAX_SUPPLY < U256.modulus) by reflexivity.
  pose proof (balance_le_sum tk sender Hnn) as Hbs.
  rewrite (mint_eval (this w) a (buyRawOf w a qty) sender _ tk);
    [|wsimpl; assumption | assumption | assumption
     |unfold maxCurveRaw in *; lia | unfold maxCurveRaw in *; lia
     |unfold maxCurveRaw in *; lia].
  unfold emit. mcompute'. unfold refundExcess.
  destruct (Z.ltb_spec (cost + feeOf cost) value) as [Hlt'|Hge].
  - assert (Hsub : cost + feeOf cost <= value) by lia.
    rewrite (proj2 (U256Facts.sub_Some value (cost + feeOf cost) _)
               (conj Hsub eq_refl)).
    unfold send. mcompute'.
    rewrite (proj2 (Z.leb_le (value - (cost + feeOf cost)) (balance w + value)))
      by lia.
    rewrite (Hacc Hlt'). cbn [andb]. mcompute'.
    unfold graduate. mcompute'. unfold graduates in Hgrad.
    rewrite L, Hgrad. cbn [negb andb]. eexists. reflexivity.
  - mcompute'. unfold graduate. mcompute'. unfold graduates in Hgrad.
    rewrite L, Hgrad. cbn [negb andb]. eexists. reflexivity.
Qed.

Lemma buys_are_honoured_witness :
  exists cost w',
    calculateCost (curveSupplyOf demo_created 1000)
      (buyRawOf demo_created 1000 3) = Some cost /\
    buyMemeToken (demo_env 0) 7 101 (2 * ether) 1000 3 demo_created
      = Ok (cost + feeOf cost, w').
Proof.
  destruct (buys_are_honoured (demo_env 0) 7 101 (2 * ether) 1000 3 demo_created)
    as (cost & Hc & H).
  - unfold demo_created. apply undrained_step.
    + apply (undrained_init 1 700 701 5 500); [|reflexivity].
      apply in_range_intro. reflexivity.
    + discriminate.
    + apply in_range_intro. reflexivity.
    + reflexivity.
  - discriminate.
  - reflexivity.
  - reflexivity.
  - reflexivity.
  - reflexivity.
  - pose proof Hc as Hv. vm_compute in Hv. apply (inj Some) in Hv.
    destruct H as (w' & H).
    + subst cost. vm_compute. discriminate.
    + subst cost. vm_compute. reflexivity.
    + subst cost. vm_compute. reflexivity.
    + intros _. reflexivity.
    + exists cost, w'. split; assumption.
Defined.
